(** * SNR.py: sequences, signatures and blocks

    A shallow embedding of [snr.py] (classes [Seq], [Sig] and [Block]) and
    the properties of its signature function, its divisions and its
    antidiagonal summation.

    Python objects become records, [for] loops become [fold_left] over
    [range], exceptions become the [Raise] branch of [result].  The code is
    duck-typed over its coefficients, so the embedding is written once over
    a class of numbers [PyNum] and run at two instances: Python's [int]
    (as [Z]) and Python's [int]/[float] tower (binary64 floats from the
    standard library's [SpecFloat]).

    The sequences that the properties range over have integer coefficients,
    the exact numbers of the code.  [/] is the one operation that leaves
    them: its results are floats, and the divisions are run at the
    [int]/[float] instance on integer operands. *)

From Stdlib Require Import ZArith List Lia Bool Ring.
From Stdlib Require Import Floats.SpecFloat.
Import ListNotations.
Local Open Scope Z_scope.

(** ** Exceptions *)

Inductive exn : Type :=
| ValueError
| ZeroDivisionError
| IndexError.

Inductive result (A : Type) : Type :=
| Ok (a : A)
| Raise (e : exn).

Arguments Ok {A} a.
Arguments Raise {A} e.

Definition bind {A B : Type} (c : result A) (k : A -> result B) : result B :=
  match c with
  | Ok a => k a
  | Raise e => Raise e
  end.

Notation "x <- c ;; k" := (bind c (fun x => k))
  (at level 61, c at next level, right associativity).

(** ** Numbers

    What the code asks of a coefficient: the literals [0] and [1] (and the
    loop index that [Sig.__truediv__] multiplies by), [+], [*], binary and
    unary [-], [==], and the normalisation [int(v) if int(v) == v else v]
    that [Seq.__init__] applies to every element. *)

Class PyNum (N : Type) : Type := {
  of_int : Z -> N;
  py_add : N -> N -> N;
  py_mul : N -> N -> N;
  py_sub : N -> N -> N;
  py_neg : N -> N;
  py_eq : N -> N -> bool;
  py_int : N -> N
}.

(** [a / b] for a divisor that is not zero; the zero test is [pydiv]'s. *)
Class PyDiv (N : Type) {PN : PyNum N} : Type := {
  py_truediv : N -> N -> N
}.

Infix "+!" := py_add (at level 50, left associativity).
Infix "-!" := py_sub (at level 50, left associativity).
Infix "*!" := py_mul (at level 40, left associativity).

(** ** Python built-ins *)

(** [range(lo, hi)] *)
Definition range (lo hi : Z) : list Z :=
  map (fun k => lo + Z.of_nat k) (seq 0 (Z.to_nat (hi - lo))).

(** [l[n] = v] for an index inside the list *)
Fixpoint list_set {A : Type} (l : list A) (n : nat) (v : A) : list A :=
  match l, n with
  | [], _ => []
  | _ :: t, O => v :: t
  | h :: t, S m => h :: list_set t m v
  end.

(** [max(...)] of a list of integers; Python raises [ValueError] on [[]] *)
Definition py_max (l : list Z) : result Z :=
  match l with
  | [] => Raise ValueError
  | h :: t => Ok (fold_left Z.max t h)
  end.

(** [l[i]] on a Python list, for an index that is not negative *)
Definition py_nth {A : Type} (l : list A) (i : Z) : result A :=
  match nth_error l (Z.to_nat i) with
  | Some a => Ok a
  | None => Raise IndexError
  end.

(** A [for] loop whose body may raise *)
Fixpoint foldM {A S : Type} (body : S -> A -> result S) (l : list A) (s : S)
  : result S :=
  match l with
  | [] => Ok s
  | a :: t => s' <- body s a ;; foldM body t s'
  end.

Definition std_l : Z := 30.

Section Snr.

Context {N : Type} {PN : PyNum N}.

Definition zero : N := of_int 0.
Definition one : N := of_int 1.

(** [v == 0] *)
Definition is_zero (v : N) : bool := py_eq v zero.

(** [sum(l)]: the additions run left to right from the integer [0] *)
Definition py_sum (l : list N) : N := fold_left py_add l zero.

(** [a / b] *)
Definition pydiv {PD : PyDiv N} (a b : N) : result N :=
  if is_zero b then Raise ZeroDivisionError else Ok (py_truediv a b).

(** ** Class [Seq] *)

Record Seq : Type := mkSeq { Seq_val : list N }.

(** [Seq(val)] for a list (or tuple) [val] *)
Definition Seq_init (val : list N) : Seq := mkSeq (map py_int val).

(** [Seq(val)] for a number [val] *)
Definition Seq_of_num (val : N) : Seq := mkSeq [py_int val].

(** [Seq.__len__] *)
Definition Seq_len (self : Seq) : Z :=
  if (Z.of_nat (length (Seq_val self)) =? 1) && is_zero (nth 0 (Seq_val self) zero)
  then 0
  else Z.of_nat (length (Seq_val self)).

(** [Seq.__getitem__] at an integer index *)
Definition Seq_getitem (self : Seq) (i : Z) : N :=
  if (i <? Seq_len self) && (0 <=? i)
  then nth (Z.to_nat i) (Seq_val self) zero
  else zero.

(** [Seq.__setitem__] *)
Definition Seq_setitem (self : Seq) (key : Z) (value : N) : Seq :=
  if (key <? Seq_len self) && (0 <=? key)
  then mkSeq (list_set (Seq_val self) (Z.to_nat key) value)
  else self.

(** [Seq.append] *)
Definition Seq_append (self : Seq) (v : N) : Seq :=
  mkSeq (Seq_val self ++ [v]).

(** [Seq.__add__] *)
Definition Seq_add (self o : Seq) : Seq :=
  let l := Z.max (Seq_len self) (Seq_len o) in
  Seq_init (map (fun k => Seq_getitem self k +! Seq_getitem o k) (range 0 l)).

(** [Seq.__eq__] *)
Definition Seq_eq (self o : Seq) : bool :=
  forallb (fun k => py_eq (Seq_getitem self k) (Seq_getitem o k))
          (range 0 (Z.max (Seq_len self) (Seq_len o))).

(** [Seq.__mul__] *)
Definition Seq_mul (self o : Seq) : Seq :=
  let l := Seq_len self + Seq_len o - 1 in
  Seq_init (map (fun x =>
                   py_sum (map (fun k => Seq_getitem self k *! Seq_getitem o (x - k))
                               (range 0 (x + 1))))
                (range 0 l)).

(** [Seq.neg] *)
Definition Seq_neg (self : Seq) : Seq :=
  Seq_init (map py_neg (Seq_val self)).

(** [Seq.__sub__] *)
Definition Seq_sub (self o : Seq) : Seq :=
  Seq_add self (Seq_neg o).

(** [Seq.__pow__] *)
Definition Seq_pow (self : Seq) (power : Z) : Seq :=
  fold_left (fun out _ => Seq_mul out self) (range 0 power) (Seq_of_num one).

(** [Seq.f] *)
Definition Seq_f (self : Seq) (l : Z) : Seq :=
  fold_left
    (fun r x =>
       let n := fold_left
                  (fun n k => n +! Seq_getitem self k *! Seq_getitem r (x - k - 1))
                  (range 0 (Seq_len self)) zero in
       Seq_append r n)
    (range 1 l) (Seq_init [one]).

(** [Seq.i] *)
Definition Seq_i (self : Seq) : result Seq :=
  if negb (py_eq (Seq_getitem self 0) one) then Raise ValueError
  else
    Ok (fold_left
          (fun r x =>
             let n := fold_left
                        (fun n k => n -! Seq_getitem r (k - 1) *! Seq_getitem self (x - k))
                        (range 1 x) (Seq_getitem self x) in
             Seq_append r n)
          (range 2 (Seq_len self)) (Seq_init [Seq_getitem self 1])).

(** [Seq.__getitem__] at the slice [[:stop]] with [stop] not zero *)
Definition Seq_slice_to (self : Seq) (stop : Z) : Seq :=
  Seq_init (map (fun k => if (k <? Seq_len self) && (0 <=? k)
                          then nth (Z.to_nat k) (Seq_val self) zero
                          else zero)
                (range 0 stop)).

(** The loop [while out[-1] == 0: out.pop(-1)], on the reversed list: it
    stops at the last coefficient that is not zero, and indexes the empty
    list when there is none. *)
Fixpoint pop_zeros_rev (r : list N) : result (list N) :=
  match r with
  | [] => Raise IndexError
  | v :: t => if is_zero v then pop_zeros_rev t else Ok (rev (v :: t))
  end.

Definition pop_zeros (out : list N) : result (list N) :=
  pop_zeros_rev (rev out).

(** The loop of [trim], whose guard reads the last element before it asks
    whether there is one; it leaves through [break] once the list is empty. *)
Fixpoint trim_loop_rev (r : list N) : list N :=
  match r with
  | [] => []
  | v :: t => if is_zero v then trim_loop_rev t else rev (v :: t)
  end.

(** [Seq.trim] *)
Definition Seq_trim (self : Seq) : result Seq :=
  match Seq_val self with
  | [] => Raise IndexError
  | _ => Ok (Seq_init (trim_loop_rev (rev (Seq_val self))))
  end.

(** [Seq.__truediv__] *)
Definition Seq_truediv {PD : PyDiv N} (self o : Seq) : result Seq :=
  q <- pydiv (Seq_getitem self 0) (Seq_getitem o 0) ;;
  let l := Z.max (Seq_len self) (Seq_len o) in
  r <- foldM (fun r x =>
                q <- pydiv
                       (Seq_getitem self x -!
                        py_sum (map (fun k => Seq_getitem r k *! Seq_getitem o (x - k))
                                    (range 0 x)))
                       (Seq_getitem o 0) ;;
                Ok (Seq_append r q))
             (range 1 l) (Seq_of_num q) ;;
  Ok (Seq_init (map py_int (Seq_val r))).

(** ** Class [Sig] *)

Record Sig : Type := mkSig { Sig_val : Seq }.

(** The module-level [x = Seq([0, 1])] *)
Definition x : Seq := Seq_init [zero; one].

(** [Sig(sig)] for a number and for a list *)
Definition Sig_of_num (sig : N) : Sig := mkSig (Seq_init [sig]).
Definition Sig_init (sig : list N) : Sig := mkSig (Seq_init sig).

(** The right-hand operands that the decorators [check_seq] and
    [check_sig] accept *)
Inductive operand : Type :=
| ONum (v : N)
| OList (l : list N)
| OSeq (s : Seq)
| OSig (g : Sig).

Definition check_seq (o : operand) : Seq :=
  match o with
  | ONum v => Seq_init [v]
  | OList l => Seq_init l
  | OSeq s => s
  | OSig g => Sig_val g
  end.

Definition check_sig (o : operand) : Sig :=
  match o with
  | ONum v => mkSig (Seq_init [v])
  | OList l => mkSig (Seq_init l)
  | OSeq s => mkSig s
  | OSig g => g
  end.

(** [Sig.__len__] and [Sig.__getitem__] at an integer index *)
Definition Sig_len (self : Sig) : Z := Seq_len (Sig_val self).
Definition Sig_getitem (self : Sig) (i : Z) : N := Seq_getitem (Sig_val self) i.

(** [Sig.__eq__] *)
Definition Sig_eq (self o : Sig) : bool := Seq_eq (Sig_val self) (Sig_val o).

(** [Sig.__mul__]: the loop carries [out] and [g] *)
Definition Sig_mul (self o : Sig) : Sig :=
  let a := Sig_val self in
  let aw := Seq_mul a (check_seq (OSeq x)) in
  let '(out, _) :=
    fold_left
      (fun '(out, g) k =>
         (Seq_add out (Seq_mul g (check_seq (ONum (Sig_getitem o k)))),
          Seq_mul g aw))
      (range 0 (Sig_len o)) (Seq_of_num zero, Seq_of_num one) in
  mkSig (Seq_mul out a).

(** [Sig.__rmul__] *)
Definition Sig_rmul (self : Sig) (o : operand) : Sig :=
  Sig_mul (check_sig o) self.

(** [Sig.__pow__] *)
Definition Sig_pow (self : Sig) (power : Z) : Sig :=
  fold_left (fun out _ => Sig_mul out self) (range 0 power) (Sig_of_num one).

(** [Sig.__truediv__]: the loop carries [out], [ap] and [bp].  Inside the
    loop the name [x] is the loop index, not the module-level sequence, so
    [x * a] is [Sig.__rmul__] of [a] at the integer [x]. *)
Definition Sig_truediv {PD : PyDiv N} (self a : Sig) : result Sig :=
  let l := Z.max (Sig_len self) (Sig_len a) in
  st <- foldM
          (fun '(out, ap, bp) x =>
             q <- pydiv (Seq_getitem ap x) (Seq_getitem bp x) ;;
             let out := out ++ [q] in
             out_x <- py_nth out x ;;
             let ap := Seq_sub ap (Seq_mul bp (check_seq (ONum out_x))) in
             let bp := Seq_mul bp (check_seq (OSig (Sig_rmul a (ONum (of_int x))))) in
             Ok (out, ap, bp))
          (range 0 l) ([], Sig_val self, Sig_val a) ;;
  let '(out, _, _) := st in
  out <- pop_zeros out ;;
  Ok (Sig_init out).

(** [Sig.__floordiv__]: the loop carries the list [block] *)
Definition Sig_floordiv {PD : PyDiv N} (self b : Sig) : result Sig :=
  let l := Z.max (Sig_len self) (Sig_len b) in
  q <- pydiv (Sig_getitem self 0) (Sig_getitem b 0) ;;
  let s := Seq_init [q] in
  let block := map (fun x => Seq_pow s (x + 1)) (range 0 l) in
  block <- foldM
             (fun block x =>
                v <- foldM (fun v k =>
                              block_k <- py_nth block k ;;
                              Ok (v ++ [Seq_getitem block_k (x - k) *! Sig_getitem b k]))
                           (range 1 (x + 1)) [] ;;
                v <- pydiv (Sig_getitem self x -! py_sum v) (Sig_getitem b 0) ;;
                block_0 <- py_nth block 0 ;;
                let block := list_set block 0 (Seq_append block_0 v) in
                foldM (fun block k =>
                         block_0 <- py_nth block 0 ;;
                         block_p <- py_nth block (k - 1) ;;
                         block_k <- py_nth block k ;;
                         let n := py_sum
                                    (map (fun t =>
                                            Seq_getitem block_0 (Seq_len block_0 - t - 1)
                                            *! Seq_getitem block_p t)
                                         (range 0 (Seq_len block_0))) in
                         Ok (list_set block (Z.to_nat k) (Seq_append block_k n)))
                      (range 1 l) block)
             (range 1 l) block ;;
  block_0 <- py_nth block 0 ;;
  out <- pop_zeros (Seq_val block_0) ;;
  Ok (Sig_init out).

(** ** Class [Block] *)

Record Block : Type := mkBlock {
  Block_l : Z;
  Block_L : Z;
  Block_val : list Seq
}.

(** [Block(val, l)] for a list [val] of [Seq] rows *)
Definition Block_init (val : list Seq) (l : Z) : result Block :=
  L <- py_max (map Seq_len val) ;;
  Ok (mkBlock l L val).

(** [Block.__len__] *)
Definition Block_len (self : Block) : Z := Z.of_nat (length (Block_val self)).

(** [Block.__getitem__] at an integer index *)
Definition Block_getitem (self : Block) (i : Z) : Seq :=
  if (i <? Block_len self) && (0 <=? i)
  then nth (Z.to_nat i) (Block_val self) (Seq_of_num zero)
  else Seq_of_num zero.

(** [self[i][j] = v]: the row that [Block.__getitem__] returns is the
    stored object when [i] is in range (so the assignment shows in the
    block) and a fresh [Seq(0)] otherwise (so it is lost). *)
Definition Block_setcell (self : Block) (i j : Z) (v : N) : Block :=
  if (i <? Block_len self) && (0 <=? i)
  then mkBlock (Block_l self) (Block_L self)
               (list_set (Block_val self) (Z.to_nat i)
                         (Seq_setitem (Block_getitem self i) j v))
  else self.

(** [Block.blank] *)
Definition Block_blank (l : Z) : result Block :=
  Block_init (map (fun _ => Seq_init (map (fun _ => zero) (range 0 l))) (range 0 l))
             std_l.

(** [Block.identity] *)
Definition Block_identity (l : Z) : result Block :=
  out <- Block_blank l ;;
  Ok (fold_left (fun out n => Block_setcell out n n one) (range 0 l) out).

(** [Block.power] *)
Definition Block_power (d : Seq) (l : Z) (taper : bool) : result Block :=
  let out := fold_left (fun out _ => out ++ [Seq_mul (last out (Seq_of_num zero)) d])
                       (range 1 l) [Seq_init [one]] in
  out <- (if taper
          then
            last_t <- Seq_trim (last out (Seq_of_num zero)) ;;
            let t := Seq_len last_t - 1 in
            Ok (fold_left
                  (fun out k =>
                     out ++ [Seq_slice_to (Seq_mul d (last out (Seq_of_num zero))) (t - k)])
                  (range 0 t) out)
          else Ok out) ;;
  Block_init out std_l.

(** [Block.__mul__] with a [Block] on the right *)
Definition Block_mul (self other : Block) : result Block :=
  out <- Block_init
           (map (fun _ => Seq_init (map (fun _ => zero)
                                        (range 0 (Z.max (Block_L self) (Block_L other)))))
                (range 0 (Z.max (Block_l self) (Block_l other))))
           std_l ;;
  Ok (fold_left
        (fun out x =>
           fold_left
             (fun out y =>
                Block_setcell out x y
                  (py_sum (map (fun k => Seq_getitem (Block_getitem self x) k
                                         *! Seq_getitem (Block_getitem other k) y)
                               (range 0 (Block_L self)))))
             (range 0 (Block_L self)) out)
        (range 0 (Block_L self)) out).

(** [Block.__pow__] *)
Definition Block_pow (self : Block) (power : Z) : result Block :=
  if power =? 0 then Block_identity (Block_len self)
  else
    out <- Block_init (Block_val self) std_l ;;
    foldM (fun out _ => Block_mul out self) (range 0 power) out.

(** [Block.f] *)
Definition Block_f (self : Block) (a : Z) (g : Seq) : Seq :=
  let g_f := Seq_f g (Block_len self) in
  fold_left
    (fun out n =>
       let _sum := fold_left
                     (fun _sum k =>
                        _sum +! Seq_getitem (Block_getitem self (n - a * k)) k
                                *! Seq_getitem g_f (n - a * k))
                     (range 0 (n + 1)) zero in
       Seq_setitem out n _sum)
    (range 0 (Block_len self))
    (Seq_init (map (fun _ => zero) (range 0 (Block_len self)))).

(** [Block.i] *)
Definition Block_i (self : Block) (a : Z) (g : Seq) : result Seq :=
  Seq_i (Block_f self a g).

End Snr.

Arguments Seq N : clear implicits.
Arguments Sig N : clear implicits.
Arguments Block N : clear implicits.
Arguments operand N : clear implicits.

Arguments mkSeq {N} Seq_val.
Arguments Seq_val {N} s.
Arguments mkSig {N} Sig_val.
Arguments Sig_val {N} s.
Arguments mkBlock {N} Block_l Block_L Block_val.
Arguments Block_l {N} b.
Arguments Block_L {N} b.
Arguments Block_val {N} b.
Arguments ONum {N} v.
Arguments OList {N} l.
Arguments OSeq {N} s.
Arguments OSig {N} g.

(** ** Python's [int]

    Integers of any size with exact [+], [-], [*]; [int(v)] is [v]. *)

#[export] Instance PyNum_Z : PyNum Z := {
  of_int := fun z => z;
  py_add := Z.add;
  py_mul := Z.mul;
  py_sub := Z.sub;
  py_neg := Z.opp;
  py_eq := Z.eqb;
  py_int := fun z => z
}.

Definition SeqZ (l : list Z) : Seq Z := mkSeq l.
Definition SigZ (l : list Z) : Sig Z := mkSig (mkSeq l).

(** ** Python's [int] and [float]

    [/] takes the integers to binary64 floats, and the arithmetic of an
    [int] with a [float] converts the [int].  The floats are the standard
    library's [spec_float] at precision 53 and maximal exponent 1024, with
    its IEEE operations (round to nearest, ties to even).

    Outside the finite floats Python raises where this instance returns a
    value: [float(z)] of an integer beyond the binary64 range and [int(v)]
    of an infinity or a NaN.  The quotient of two [int]s is rounded once by
    CPython, from the exact quotient; here both are converted first, which
    is the same below [2^53]. *)

Definition prec : Z := 53.
Definition emax : Z := 1024.

Inductive pynum : Type :=
| PInt (z : Z)
| PFloat (f : spec_float).

Definition float_of_int (z : Z) : spec_float :=
  binary_normalize prec emax z 0 false.

Definition to_float (v : pynum) : spec_float :=
  match v with
  | PInt z => float_of_int z
  | PFloat f => f
  end.

Definition pynum_arith (zop : Z -> Z -> Z)
  (fop : spec_float -> spec_float -> spec_float) (a b : pynum) : pynum :=
  match a, b with
  | PInt u, PInt v => PInt (zop u v)
  | _, _ => PFloat (fop (to_float a) (to_float b))
  end.

Definition pynum_neg (a : pynum) : pynum :=
  match a with
  | PInt u => PInt (- u)
  | PFloat f => PFloat (SFopp f)
  end.

(** [f == z] for a float and an integer: Python compares the exact values *)
Definition float_eq_int (f : spec_float) (z : Z) : bool :=
  match f with
  | S754_zero _ => z =? 0
  | S754_finite s m e =>
      let mz := if s then Z.neg m else Z.pos m in
      if 0 <=? e then mz * 2 ^ e =? z else mz =? z * 2 ^ (- e)
  | _ => false
  end.

Definition pynum_eq (a b : pynum) : bool :=
  match a, b with
  | PInt u, PInt v => u =? v
  | PInt u, PFloat g => float_eq_int g u
  | PFloat f, PInt v => float_eq_int f v
  | PFloat f, PFloat g => SFeqb f g
  end.

(** [int(v) if int(v) == v else v] *)
Definition pynum_int (a : pynum) : pynum :=
  match a with
  | PInt u => PInt u
  | PFloat (S754_zero _) => PInt 0
  | PFloat (S754_finite s m e) =>
      let mz := if s then Z.neg m else Z.pos m in
      if 0 <=? e then PInt (mz * 2 ^ e)
      else if mz mod 2 ^ (- e) =? 0 then PInt (mz / 2 ^ (- e))
      else a
  | PFloat _ => a
  end.

#[export] Instance PyNum_pynum : PyNum pynum := {
  of_int := PInt;
  py_add := pynum_arith Z.add (SFadd prec emax);
  py_mul := pynum_arith Z.mul (SFmul prec emax);
  py_sub := pynum_arith Z.sub (SFsub prec emax);
  py_neg := pynum_neg;
  py_eq := pynum_eq;
  py_int := pynum_int
}.

#[export] Instance PyDiv_pynum : PyDiv pynum := {
  py_truediv := fun a b => PFloat (SFdiv prec emax (to_float a) (to_float b))
}.

Definition SeqP (l : list Z) : Seq pynum := mkSeq (map PInt l).
Definition SigP (l : list Z) : Sig pynum := mkSig (SeqP l).

(** ** Integers that binary64 holds

    A float result of the code that is an integer below [2 ** 53] is that
    integer, exactly; the predicates below say so of a number of the
    embedding. *)

(** Below [2 ** 53] in absolute value *)
Definition small (z : Z) : Prop := Z.abs z < 2 ^ 53.

(** The binary64 float whose value is the integer [P], or [- P] for
    [s = true]: a mantissa of [53] digits *)
Definition canon (s : bool) (P : positive) : spec_float :=
  S754_finite s
    (Z.to_pos (Zpos P * 2 ^ (53 - Zpos (digits2_pos P))))
    (Zpos (digits2_pos P) - 53).

(** [f] is the float of the integer [z]; zero has its two signs *)
Definition fin_val (f : spec_float) (z : Z) : Prop :=
  match z with
  | Z0 => exists s, f = S754_zero s
  | Zpos P => f = canon false P
  | Zneg P => f = canon true P
  end.

(** The Python number [p] is the integer [z]: the [int], or its float *)
Definition rep (p : pynum) (z : Z) : Prop :=
  match p with
  | PInt u => u = z
  | PFloat f => fin_val f z
  end.

(** Every stored coefficient of [s] is at most [c] in absolute value *)
Definition bounded_by (c : Z) (s : Seq Z) : bool :=
  forallb (fun v => Z.abs v <=? c) (Seq_val s).

(** ** Exact arithmetic

    The laws that [int] has and that floats lack. *)

Class PyNumExact (N : Type) {PN : PyNum N} : Prop := {
  exact_ring : ring_theory zero one py_add py_mul py_sub py_neg (@eq N);
  exact_eq : forall a b : N, py_eq a b = true <-> a = b;
  exact_int : forall v : N, py_int v = v;
  exact_one : (one : N) <> zero
}.

(** ** The loops, one round at a time

    Each loop of the code is named here with its bound as an argument, so
    that the lemmas below can follow it round by round; every one is the
    [fold_left] of the method it comes from. *)

Section Loops.

Context {N : Type} {PN : PyNum N}.

(** [sum(F(k) for k in range(n))] *)
Definition zsum (F : Z -> N) (n : Z) : N := py_sum (map F (range 0 n)).

(** The loop of [i], run for [x] below [n]. *)
Definition i_loop (self : Seq N) (n : Z) : Seq N :=
  fold_left
    (fun r x =>
       let n := fold_left
                  (fun n k => n -! Seq_getitem r (k - 1) *! Seq_getitem self (x - k))
                  (range 1 x) (Seq_getitem self x) in
       Seq_append r n)
    (range 2 n) (Seq_init [Seq_getitem self 1]).

(** The loop of [Sig.__mul__], run for [k] below [n]. *)
Definition mul_loop (self o : Sig N) (n : Z) : Seq N * Seq N :=
  fold_left
    (fun '(out, g) k =>
       (Seq_add out (Seq_mul g (check_seq (ONum (Sig_getitem o k)))),
        Seq_mul g (Seq_mul (Sig_val self) (check_seq (OSeq x)))))
    (range 0 n) (Seq_of_num zero, Seq_of_num one).

(** The loop of [Block.f], run for [n] below [m]. *)
Definition f_loop (self : Block N) (a : Z) (g : Seq N) (m : Z) : Seq N :=
  fold_left
    (fun out n =>
       let _sum := fold_left
                     (fun _sum k =>
                        _sum +! Seq_getitem (Block_getitem self (n - a * k)) k
                                *! Seq_getitem (Seq_f g (Block_len self)) (n - a * k))
                     (range 0 (n + 1)) zero in
       Seq_setitem out n _sum)
    (range 0 m)
    (Seq_init (map (fun _ => zero) (range 0 (Block_len self)))).

(** The antidiagonal sum that the spec gives for coefficient [n]. *)
Definition antidiagonal (self : Block N) (a : Z) (g : Seq N) (n : Z) : N :=
  zsum (fun k => Seq_getitem (Block_getitem self (n - a * k)) k
                 *! Seq_getitem (Seq_f g (Block_len self)) (n - a * k))
       (n + 1).

(** The loop of [Seq.__truediv__] where no division raises, run for [x]
    below [m]. *)
Definition div_loop {PD : PyDiv N} (self o : Seq N) (m : Z) : Seq N :=
  fold_left
    (fun r x =>
       Seq_append r
         (py_truediv
            (Seq_getitem self x -!
             py_sum (map (fun k => Seq_getitem r k *! Seq_getitem o (x - k)) (range 0 x)))
            (Seq_getitem o 0)))
    (range 1 m)
    (Seq_of_num (py_truediv (Seq_getitem self 0) (Seq_getitem o 0))).

End Loops.

(** ** One instance inside another

    [Seq_map h] reads a sequence over [N] as a sequence over [M]; with
    [h := PInt] it reads an integer sequence as a sequence of Python
    numbers. *)

Definition Seq_map {N M : Type} (h : N -> M) (s : Seq N) : Seq M :=
  mkSeq (map h (Seq_val s)).

Definition Sig_map {N M : Type} (h : N -> M) (g : Sig N) : Sig M :=
  mkSig (Seq_map h (Sig_val g)).

Definition result_map {A B : Type} (h : A -> B) (r : result A) : result B :=
  match r with
  | Ok a => Ok (h a)
  | Raise e => Raise e
  end.

(** ** The rest of the classes *)

(** [range(start, stop, step)] for a step that is not zero *)
Definition range_step (start stop step : Z) : list Z :=
  let n := if 0 <? step then (stop - start + step - 1) / step
           else (start - stop - step - 1) / (- step) in
  map (fun k => start + Z.of_nat k * step) (seq 0 (Z.to_nat n)).

(** [range(start, stop, step)]: Python raises [ValueError] on a zero step *)
Definition range3 (start stop step : Z) : result (list Z) :=
  if step =? 0 then Raise ValueError else Ok (range_step start stop step).

(** Python's comparison [l < m] of two lists of integers: the first
    position where they differ decides, and a proper prefix is smaller. *)
Fixpoint list_lt (l m : list Z) : bool :=
  match l, m with
  | [], [] => false
  | [], _ :: _ => true
  | _ :: _, [] => false
  | a :: l', b :: m' => if a =? b then list_lt l' m' else a <? b
  end.

(** [l <= m] of two lists of integers *)
Fixpoint list_le (l m : list Z) : bool :=
  match l, m with
  | [], _ => true
  | _ :: _, [] => false
  | a :: l', b :: m' => if a =? b then list_le l' m' else a <? b
  end.

Section SnrMore.

Context {N : Type} {PN : PyNum N}.

(** [Seq.__contains__] *)
Definition Seq_contains (self i : Seq N) : bool :=
  forallb (fun k => py_eq (Seq_getitem i k) (Seq_getitem self k))
          (range 0 (Seq_len i)).

(** [Seq.__getitem__] at a slice: a bound that is [None] or [0] takes its
    default *)
Definition Seq_getitem_slice (self : Seq N) (start stop step : option Z) : Seq N :=
  let start := match start with Some v => if v =? 0 then 0 else v | None => 0 end in
  let stop := match stop with
              | Some v => if v =? 0 then Seq_len self else v
              | None => Seq_len self
              end in
  let step := match step with Some v => if v =? 0 then 1 else v | None => 1 end in
  Seq_init (map (fun k => if (k <? Seq_len self) && (0 <=? k)
                          then nth (Z.to_nat k) (Seq_val self) zero
                          else zero)
                (range_step start stop step)).

(** [Seq.__rsub__] *)
Definition Seq_rsub (self o : Seq N) : Seq N := Seq_add (Seq_neg self) o.

(** [Seq.aerate]; [k // a] is taken on the loop index, an integer *)
Definition Seq_aerate (self : Seq N) (a : Z) : result (Seq N) :=
  let out := Seq_init (map (fun _ => zero) (range 0 (Seq_len self * a))) in
  ks <- range3 0 (Seq_len self * a) a ;;
  Ok (fold_left (fun out k => Seq_setitem out k (Seq_getitem self (k / a))) ks out).

(** [Sig.f] and [Sig.i] *)
Definition Sig_f (self : Sig N) (l : Z) : Sig N := mkSig (Seq_f (Sig_val self) l).
Definition Sig_i (self : Sig N) : result (Sig N) :=
  result_map mkSig (Seq_i (Sig_val self)).

(** [Sig.__add__] *)
Definition Sig_add (self o : Sig N) : Sig N :=
  mkSig (Seq_sub (Seq_add (Sig_val self) (Sig_val o))
                 (Seq_mul (Seq_mul x (Sig_val self)) (Sig_val o))).

(** [Sig.__sub__] *)
Definition Sig_sub (self o : Sig N) : Sig N :=
  mkSig (Seq_mul (Seq_sub (Sig_val self) (Sig_val o))
                 (check_seq (OSig (Sig_f o std_l)))).

(** [Sig.neg] *)
Definition Sig_neg (self : Sig N) : Sig N :=
  Sig_init (map py_neg (Seq_val (Sig_val self))).

(** [Sig.trim] *)
Definition Sig_trim (self : Sig N) : result (Sig N) :=
  match Seq_val (Sig_val self) with
  | [] => Raise IndexError
  | _ => Ok (Sig_init (trim_loop_rev (rev (Seq_val (Sig_val self)))))
  end.

(** [self[i][j]] on a block *)
Definition Block_entry (self : Block N) (i j : Z) : N :=
  Seq_getitem (Block_getitem self i) j.

(** A block of [R] rows that all store [W] coefficients *)
Definition grid (B : Block N) (R W : Z) : Prop :=
  Block_len B = R /\
  forall r, In r (Block_val B) -> Z.of_nat (length (Seq_val r)) = W.

(** [Block.__add__] and [Block.__sub__]: the loop of both, with the
    operation on two cells *)
Definition Block_cellwise (op : N -> N -> N) (self other : Block N)
  : result (Block N) :=
  out <- Block_init
           (map (fun _ => Seq_init (map (fun _ => zero) (range 0 (Block_L self))))
                (range 0 (Block_L self)))
           std_l ;;
  Ok (fold_left
        (fun out i =>
           fold_left
             (fun out j =>
                Block_setcell out i j
                  (op (Seq_getitem (Block_getitem self i) j)
                      (Seq_getitem (Block_getitem other i) j)))
             (range 0 (Block_L self)) out)
        (range 0 (Block_L self)) out).

Definition Block_add (self other : Block N) : result (Block N) :=
  Block_cellwise py_add self other.

Definition Block_sub (self other : Block N) : result (Block N) :=
  Block_cellwise py_sub self other.

(** [Block.__mul__] with a [Seq] on the right *)
Definition Block_mul_seq (self : Block N) (other : Seq N) : result (Block N) :=
  Block_init (map (fun g => Seq_mul other g) (Block_val self)) std_l.

(** [Block.sen] *)
Definition Block_sen (d : Seq N) (l : Z) : result (Block N) :=
  let out := [Seq_getitem_slice (Seq_init [one]) None (Some l) None] in
  let out := out ++ [Seq_of_num (Seq_getitem d 0 -! one)] in
  let out := fold_left
               (fun out i =>
                  out ++ [Seq_init (map (fun j => Seq_getitem d (i - j - 1)) (range 0 l))])
               (range 2 l) out in
  Block_init out std_l.

(** [generate_next_matrix] inside [Block.g_matrix] *)
Definition generate_next_matrix (s_prev : Block N) (g_p : Seq N) : result (Block N) :=
  out <- Block_blank std_l ;;
  let f_g_p := Seq_f g_p std_l in
  Ok (fold_left
        (fun out n =>
           fold_left
             (fun out y =>
                let _sum := fold_left
                              (fun _sum k =>
                                 _sum +! Seq_getitem (Block_getitem s_prev k) y
                                         *! Seq_getitem f_g_p (n - k))
                              (range 0 (n + 1)) zero in
                Block_setcell out n y _sum)
             (range 0 (n + 1)) out)
        (range 0 std_l) out).

(** [Block.g_matrix]: [None] is what Python returns for an empty [g] *)
Definition Block_g_matrix (s : Block N) (g : list (Seq N)) : result (option (Block N)) :=
  st <- foldM (fun '(s_prev, _) g_p =>
                 s_next <- generate_next_matrix s_prev g_p ;;
                 Ok (s_next, Some s_next))
              g (s, None) ;;
  Ok (snd st).

End SnrMore.

(** ** Coefficient functions

    A sequence read as the function from an index to its coefficient, zero
    at negative indices, and the product, unit and shift of such
    functions. *)

Section Coefficients.

Context {N : Type} {PN : PyNum N}.

(** The Cauchy product of two coefficient functions *)
Definition conv (F G : Z -> N) (n : Z) : N :=
  zsum (fun k => F k *! G (n - k)) (n + 1).

(** The coefficients of [Seq([1])] *)
Definition delta (n : Z) : N := if n =? 0 then one else zero.

(** Coefficient [n] of [a.f(l)], for any [l] beyond [n] *)
Definition f_coeff (a : Seq N) (n : Z) : N := Seq_getitem (Seq_f a (n + 1)) n.

(** Coefficient [n] of [1 - x * a], the series that [a.f()] inverts *)
Definition denom (a : Seq N) (n : Z) : N := delta n -! Seq_getitem a (n - 1).

End Coefficients.

(** [Seq.__lt__], [Seq.__le__], [Seq.__gt__], [Seq.__ge__] on integer
    coefficients: Python's order of the stored lists *)
Definition Seq_lt (self o : Seq Z) : bool := list_lt (Seq_val self) (Seq_val o).
Definition Seq_le (self o : Seq Z) : bool := list_le (Seq_val self) (Seq_val o).

(** [Seq.__mod__] on integer coefficients with an integer [o]: [k % o]
    raises [ZeroDivisionError] for [o = 0] as soon as there is a [k] *)
Definition Seq_mod (self : Seq Z) (o : Z) : result (Seq Z) :=
  if (o =? 0) && negb (Nat.eqb (length (Seq_val self)) 0)
  then Raise ZeroDivisionError
  else Ok (Seq_init (map (fun k => k mod o) (Seq_val self))).

(** ** Inputs of the scenarios *)

(** The power triangle of [[1, 1]] with one row. *)
Definition one_row : Block Z := mkBlock std_l 1 [SeqZ [1]].

(** Twice the identity of size [2]. *)
Definition two_I : Block Z := mkBlock std_l 2 [SeqZ [2; 0]; SeqZ [0; 2]].

(** The sequence [[1, 0.1]]; [0.1] is [7205759403792794 * 2 ** -56]. *)
Definition a01 : Seq pynum :=
  Seq_init [PInt 1; PFloat (S754_finite false 7205759403792794 (-56))].


(** ** Exactness of the integers *)

#[export] Instance PyNumExact_Z : PyNumExact Z.
Proof.
  split.
  - exact Zth.
  - intros a b. apply Z.eqb_eq.
  - reflexivity.
  - discriminate.
Qed.

(** ** Scenarios *)

Example Seq_f_fib : Seq_f (SeqZ [1; 1]) 5 = SeqZ [1; 1; 2; 3; 5].
Proof. reflexivity. Qed.

Example Seq_mul_scenario : Seq_mul (SeqZ [1; 1]) (SeqZ [1; 1]) = SeqZ [1; 2; 1].
Proof. reflexivity. Qed.

Example Seq_i_scenario :
  Seq_i (SeqZ [2; 1]) = Raise ValueError /\
  Seq_i (SeqZ [1; 2; 3]) = Ok (SeqZ [2; -1]) /\
  Seq_f (SeqZ [2; -1]) 5 = SeqZ [1; 2; 3; 4; 5].
Proof. repeat split. Qed.

(** ** Ranges and lists *)

Lemma range_nil (lo hi : Z) : hi <= lo -> range lo hi = [].
Proof.
  intro H. unfold range. replace (Z.to_nat (hi - lo)) with O by lia. reflexivity.
Qed.

Lemma range_snoc (lo hi : Z) : lo <= hi -> range lo (hi + 1) = range lo hi ++ [hi].
Proof.
  intro H. unfold range.
  replace (Z.to_nat (hi + 1 - lo)) with (S (Z.to_nat (hi - lo))) by lia.
  rewrite seq_S, map_app. cbn [map]. do 2 f_equal. lia.
Qed.

Lemma range_cons (lo hi : Z) : lo < hi -> range lo hi = lo :: range (lo + 1) hi.
Proof.
  intro H. unfold range.
  replace (Z.to_nat (hi - lo)) with (S (Z.to_nat (hi - (lo + 1)))) by lia.
  cbn [seq map]. f_equal; [lia|].
  rewrite <- seq_shift, map_map. apply map_ext. intro k. lia.
Qed.

Lemma range_length (lo hi : Z) : length (range lo hi) = Z.to_nat (hi - lo).
Proof. unfold range. now rewrite length_map, length_seq. Qed.

Lemma in_range (lo hi k : Z) : In k (range lo hi) <-> lo <= k < hi.
Proof.
  unfold range. rewrite in_map_iff. split.
  - intros [j [<- Hj]]. apply in_seq in Hj. lia.
  - intro H. exists (Z.to_nat (k - lo)). split; [lia|]. apply in_seq. lia.
Qed.

Lemma nth_map_range {A : Type} (F : Z -> A) (hi i : Z) (d : A) :
  0 <= i < hi -> nth (Z.to_nat i) (map F (range 0 hi)) d = F i.
Proof.
  intro H. unfold range. rewrite map_map.
  rewrite nth_indep with (d' := F (0 + Z.of_nat 0)).
  - rewrite (map_nth (fun k => F (0 + Z.of_nat k))), seq_nth by lia. f_equal. lia.
  - rewrite length_map, length_seq. lia.
Qed.

Lemma length_map_range {A : Type} (F : Z -> A) (lo hi : Z) :
  Z.of_nat (length (map F (range lo hi))) = Z.max 0 (hi - lo).
Proof. rewrite length_map, range_length. lia. Qed.

(** A loop over [range(lo, hi)] by its last iteration. *)
Lemma fold_range_snoc {S : Type} (body : S -> Z -> S) (lo hi : Z) (s : S) :
  lo <= hi ->
  fold_left body (range lo (hi + 1)) s = body (fold_left body (range lo hi) s) hi.
Proof.
  intro H. rewrite range_snoc by exact H. now rewrite fold_left_app.
Qed.

(** Induction on the upper bound of a loop. *)
Lemma range_bound_ind (lo : Z) (P : Z -> Prop) :
  P lo -> (forall hi, lo <= hi -> P hi -> P (hi + 1)) ->
  forall hi, lo <= hi -> P hi.
Proof.
  intros H0 HS hi Hhi.
  replace hi with (lo + Z.of_nat (Z.to_nat (hi - lo))) by lia.
  induction (Z.to_nat (hi - lo)) as [|n IH].
  - now replace (lo + Z.of_nat 0) with lo by lia.
  - replace (lo + Z.of_nat (S n)) with (lo + Z.of_nat n + 1) by lia.
    apply HS; [lia | exact IH].
Qed.

Lemma list_set_length {A : Type} (l : list A) (n : nat) (v : A) :
  length (list_set l n v) = length l.
Proof.
  revert n. induction l as [|h t IH]; intros [|n]; cbn; auto.
Qed.

Lemma list_set_nth {A : Type} (l : list A) (n m : nat) (v d : A) :
  (n < length l)%nat ->
  nth m (list_set l n v) d = if Nat.eqb m n then v else nth m l d.
Proof.
  revert n m. induction l as [|h t IH]; intros [|n] [|m] H; cbn in *; try lia; auto.
  apply IH. lia.
Qed.

(** ** Sequences over exact numbers *)

Section Exact.

Context {N : Type} {PN : PyNum N} {PE : PyNumExact N}.

Add Ring num_ring : exact_ring.

Lemma is_zero_iff (v : N) : is_zero v = true <-> v = zero.
Proof. apply exact_eq. Qed.

Lemma Seq_init_exact (l : list N) : Seq_init l = mkSeq l.
Proof.
  unfold Seq_init. f_equal. rewrite <- (map_id l) at 2.
  apply map_ext. apply exact_int.
Qed.

Lemma Seq_of_num_exact (v : N) : Seq_of_num v = mkSeq [v].
Proof. unfold Seq_of_num. now rewrite exact_int. Qed.

Lemma Seq_len_bounds (s : Seq N) : 0 <= Seq_len s <= Z.of_nat (length (Seq_val s)).
Proof.
  unfold Seq_len.
  destruct ((Z.of_nat (length (Seq_val s)) =? 1) && is_zero (nth 0 (Seq_val s) zero)); lia.
Qed.

(** Reading a coefficient is reading the stored list, with zeros outside
    it: the stored single zero that has length [0] reads as zero too. *)
Lemma Seq_getitem_nth (s : Seq N) (i : Z) :
  0 <= i -> Seq_getitem s i = nth (Z.to_nat i) (Seq_val s) zero.
Proof.
  intro Hi. unfold Seq_getitem, Seq_len.
  destruct ((Z.of_nat (length (Seq_val s)) =? 1) && is_zero (nth 0 (Seq_val s) zero)) eqn:E.
  - apply andb_prop in E as [E1 E2]. apply Z.eqb_eq in E1. apply is_zero_iff in E2.
    replace (i <? 0) with false by (symmetry; apply Z.ltb_ge; lia). cbn [andb].
    destruct (Z.to_nat i) as [|j] eqn:Ej.
    + now rewrite E2.
    + symmetry. apply nth_overflow. lia.
  - destruct (i <? Z.of_nat (length (Seq_val s))) eqn:E1.
    + replace (0 <=? i) with true by (symmetry; apply Z.leb_le; lia). reflexivity.
    + cbn [andb]. apply Z.ltb_ge in E1. symmetry. apply nth_overflow. lia.
Qed.

Lemma Seq_getitem_neg (s : Seq N) (i : Z) : i < 0 -> Seq_getitem s i = zero.
Proof.
  intro Hi. unfold Seq_getitem.
  replace (0 <=? i) with false by (symmetry; apply Z.leb_gt; lia).
  now rewrite andb_false_r.
Qed.

Lemma Seq_getitem_out (s : Seq N) (i : Z) : Seq_len s <= i -> Seq_getitem s i = zero.
Proof.
  intro Hi. unfold Seq_getitem.
  replace (i <? Seq_len s) with false by (symmetry; apply Z.ltb_ge; lia).
  reflexivity.
Qed.

Lemma Seq_getitem_beyond (s : Seq N) (i : Z) :
  Z.of_nat (length (Seq_val s)) <= i -> Seq_getitem s i = zero.
Proof.
  intro Hi. apply Seq_getitem_out. pose proof (Seq_len_bounds s). lia.
Qed.

Lemma Seq_getitem_map_range (F : Z -> N) (hi i : Z) :
  0 <= i < hi -> Seq_getitem (Seq_init (map F (range 0 hi))) i = F i.
Proof.
  intro H. rewrite Seq_init_exact, Seq_getitem_nth by lia. cbn [Seq_val].
  now apply nth_map_range.
Qed.

Lemma Seq_getitem_map_range_out (F : Z -> N) (hi i : Z) :
  hi <= i -> Seq_getitem (Seq_init (map F (range 0 hi))) i = zero.
Proof.
  intro H. destruct (Z.lt_ge_cases i 0) as [Hn|Hn].
  - now apply Seq_getitem_neg.
  - apply Seq_getitem_beyond. rewrite Seq_init_exact. cbn [Seq_val].
    rewrite length_map_range. lia.
Qed.

Lemma Seq_getitem_append_old (r : Seq N) (v : N) (i : Z) :
  i < Z.of_nat (length (Seq_val r)) ->
  Seq_getitem (Seq_append r v) i = Seq_getitem r i.
Proof.
  intro H. destruct (Z.lt_ge_cases i 0) as [Hn|Hn].
  - now rewrite !Seq_getitem_neg.
  - rewrite !Seq_getitem_nth by lia. cbn [Seq_append Seq_val].
    apply app_nth1. lia.
Qed.

Lemma Seq_getitem_append_new (r : Seq N) (v : N) (i : Z) :
  i = Z.of_nat (length (Seq_val r)) -> Seq_getitem (Seq_append r v) i = v.
Proof.
  intros ->. rewrite Seq_getitem_nth by lia. cbn [Seq_append Seq_val].
  rewrite Nat2Z.id, app_nth2, Nat.sub_diag by lia. reflexivity.
Qed.

(** *** Sums *)

Lemma zsum_nil (F : Z -> N) (n : Z) : n <= 0 -> zsum F n = zero.
Proof. intro H. unfold zsum. now rewrite range_nil. Qed.

Lemma zsum_succ (F : Z -> N) (n : Z) : 0 <= n -> zsum F (n + 1) = zsum F n +! F n.
Proof.
  intro H. unfold zsum, py_sum. rewrite range_snoc, map_app, fold_left_app by lia.
  reflexivity.
Qed.

Lemma zsum_ext (F G : Z -> N) (n : Z) :
  (forall k, 0 <= k < n -> F k = G k) -> zsum F n = zsum G n.
Proof.
  intro H. unfold zsum. f_equal. apply map_ext_in. intros k Hk.
  apply H. now apply in_range.
Qed.

Lemma zsum_zero (F : Z -> N) (n : Z) :
  (forall k, 0 <= k < n -> F k = zero) -> zsum F n = zero.
Proof.
  destruct (Z.le_gt_cases n 0) as [Hn|Hn]; [intros _; now apply zsum_nil|].
  pattern n. apply range_bound_ind with (lo := 0); [| |lia].
  - intros _. now apply zsum_nil.
  - intros hi Hhi IH H. rewrite zsum_succ by lia. rewrite IH, H by (try intros; try apply H; lia).
    ring.
Qed.

(** Terms that are zero above [n] do not count. *)
Lemma zsum_extend (F : Z -> N) (n m : Z) :
  0 <= n <= m -> (forall k, n <= k < m -> F k = zero) -> zsum F m = zsum F n.
Proof.
  intros [Hn Hm]. pattern m. apply range_bound_ind with (lo := n); [| |lia].
  - reflexivity.
  - intros hi Hhi IH H. rewrite zsum_succ by lia. rewrite IH, H by (try intros; try apply H; lia).
    ring.
Qed.

(** The only term that is not zero. *)
Lemma zsum_single (F : Z -> N) (n j : Z) :
  0 <= j < n -> (forall k, 0 <= k < n -> k <> j -> F k = zero) -> zsum F n = F j.
Proof.
  intros Hj H.
  rewrite (zsum_extend F (j + 1) n) by (try intros; try apply H; lia).
  rewrite zsum_succ by lia.
  rewrite zsum_zero by (intros; apply H; lia). ring.
Qed.

(** Accumulating loops are sums. *)
Lemma fold_add_sum (F : Z -> N) (l : list Z) (a : N) :
  fold_left (fun n k => n +! F k) l a = fold_left py_add (map F l) a.
Proof. revert a. induction l as [|h t IH]; intro a; cbn; auto. Qed.

Lemma fold_add_zsum (F : Z -> N) (n : Z) :
  fold_left (fun a k => a +! F k) (range 0 n) zero = zsum F n.
Proof. apply fold_add_sum. Qed.

Lemma fold_sub_sum (F : Z -> N) (l : list Z) (a : N) :
  fold_left (fun n k => n -! F k) l a = a -! fold_left py_add (map F l) zero.
Proof.
  revert a. induction l as [|h t IH] using rev_ind; intro a.
  - cbn. ring.
  - rewrite map_app, !fold_left_app, IH. cbn. ring.
Qed.

Lemma fold_sub_zsum (F : Z -> N) (n : Z) (a : N) :
  fold_left (fun a k => a -! F k) (range 1 n) a = a -! zsum (fun k => F (k + 1)) (n - 1).
Proof.
  rewrite fold_sub_sum. f_equal. unfold zsum, py_sum. f_equal.
  unfold range. rewrite !map_map. replace (n - 1 - 0) with (n - 1) by lia.
  apply map_ext. intro k. f_equal. lia.
Qed.

(** *** The signature function *)

Lemma Seq_f_base (self : Seq N) (l : Z) : l <= 1 -> Seq_f self l = mkSeq [one].
Proof.
  intro H. unfold Seq_f. rewrite (range_nil 1 l) by lia. cbn [fold_left].
  apply Seq_init_exact.
Qed.

(** One more round of the loop of [f]. *)
Lemma Seq_f_succ (self : Seq N) (l : Z) :
  1 <= l ->
  Seq_f self (l + 1) =
  Seq_append (Seq_f self l)
    (zsum (fun k => Seq_getitem self k *! Seq_getitem (Seq_f self l) (l - k - 1))
          (Seq_len self)).
Proof.
  intro H. unfold Seq_f at 1. rewrite fold_range_snoc by lia.
  fold (Seq_f self l). cbv zeta. f_equal.
  apply (fold_add_zsum
           (fun k => Seq_getitem self k *! Seq_getitem (Seq_f self l) (l - k - 1))).
Qed.

Lemma Seq_f_length (self : Seq N) (l : Z) :
  1 <= l -> Z.of_nat (length (Seq_val (Seq_f self l))) = l.
Proof.
  intro H. pattern l. apply range_bound_ind with (lo := 1); [| |lia].
  - now rewrite Seq_f_base by lia.
  - intros hi Hhi IH. rewrite Seq_f_succ by lia. cbn [Seq_append Seq_val].
    rewrite length_app. cbn [length]. lia.
Qed.

(** Later rounds leave the coefficients that are there. *)
Lemma Seq_f_prefix (self : Seq N) (m l i : Z) :
  1 <= m <= l -> i < m ->
  Seq_getitem (Seq_f self l) i = Seq_getitem (Seq_f self m) i.
Proof.
  intros [Hm Hl] Hi. pattern l. apply range_bound_ind with (lo := m); [| |lia].
  - reflexivity.
  - intros hi Hhi IH. rewrite Seq_f_succ by lia.
    rewrite Seq_getitem_append_old; [exact IH|].
    rewrite Seq_f_length by lia. lia.
Qed.

Lemma Seq_f_head (self : Seq N) (l : Z) : Seq_getitem (Seq_f self l) 0 = one.
Proof.
  destruct (Z.le_gt_cases l 1) as [H|H].
  - rewrite Seq_f_base by lia. now rewrite Seq_getitem_nth by lia.
  - rewrite (Seq_f_prefix self 1 l) by lia. rewrite Seq_f_base by lia.
    now rewrite Seq_getitem_nth by lia.
Qed.

(** The recurrence of [f], with the sum as the loop runs it. *)
Lemma Seq_f_rec (self : Seq N) (l k : Z) :
  1 <= k < l ->
  Seq_getitem (Seq_f self l) k =
  zsum (fun j => Seq_getitem self j *! Seq_getitem (Seq_f self l) (k - j - 1))
       (Seq_len self).
Proof.
  intro H. rewrite (Seq_f_prefix self (k + 1) l) by lia.
  rewrite Seq_f_succ by lia.
  rewrite Seq_getitem_append_new by (symmetry; apply Seq_f_length; lia).
  apply zsum_ext. intros j Hj. f_equal. symmetry.
  apply Seq_f_prefix; lia.
Qed.

(** The same sum over [j < k]: beyond the length of [self] the coefficient
    is zero, and beyond [k] the index into the result is negative. *)
Lemma Seq_f_conv (self : Seq N) (l k : Z) :
  1 <= k < l ->
  Seq_getitem (Seq_f self l) k =
  zsum (fun j => Seq_getitem self j *! Seq_getitem (Seq_f self l) (k - 1 - j)) k.
Proof.
  intro H. rewrite Seq_f_rec by lia.
  pose proof (Seq_len_bounds self) as Hlen.
  rewrite (zsum_ext _ (fun j => Seq_getitem self j *! Seq_getitem (Seq_f self l) (k - 1 - j)))
    by (intros j Hj; do 2 f_equal; lia).
  destruct (Z.le_gt_cases (Seq_len self) k) as [Hc|Hc].
  - symmetry. apply zsum_extend; [lia|]. intros j Hj.
    rewrite (Seq_getitem_out self) by lia. ring.
  - apply zsum_extend; [lia|]. intros j Hj.
    rewrite (Seq_getitem_neg (Seq_f self l)) by lia. ring.
Qed.

Lemma Seq_f_len (self : Seq N) (l : Z) : 1 <= l -> Seq_len (Seq_f self l) = l.
Proof.
  intro H. unfold Seq_len.
  pose proof (Seq_f_head self l) as Hh. rewrite Seq_getitem_nth in Hh by lia.
  cbn [Z.to_nat] in Hh. rewrite Hh.
  replace (is_zero one) with false.
  - rewrite andb_false_r. now apply Seq_f_length.
  - symmetry. apply not_true_is_false. intro E. apply is_zero_iff in E.
    now apply exact_one.
Qed.

(** *** The inverse signature function *)

Lemma Seq_i_ok (self : Seq N) :
  Seq_getitem self 0 = one -> Seq_i self = Ok (i_loop self (Seq_len self)).
Proof.
  intro H. unfold Seq_i. apply exact_eq in H. now rewrite H.
Qed.

Lemma Seq_i_raise (self : Seq N) :
  Seq_getitem self 0 <> one -> Seq_i self = Raise ValueError.
Proof.
  intro H. unfold Seq_i.
  destruct (py_eq (Seq_getitem self 0) one) eqn:E; [|reflexivity].
  apply exact_eq in E. contradiction.
Qed.

Lemma i_loop_base (self : Seq N) (n : Z) :
  n <= 2 -> i_loop self n = mkSeq [Seq_getitem self 1].
Proof.
  intro H. unfold i_loop. rewrite (range_nil 2 n) by lia. cbn [fold_left].
  apply Seq_init_exact.
Qed.

Lemma i_loop_succ (self : Seq N) (n : Z) :
  2 <= n ->
  i_loop self (n + 1) =
  Seq_append (i_loop self n)
    (Seq_getitem self n -!
     zsum (fun j => Seq_getitem (i_loop self n) j *! Seq_getitem self (n - 1 - j))
          (n - 1)).
Proof.
  intro H. unfold i_loop at 1. rewrite fold_range_snoc by lia.
  fold (i_loop self n). cbv zeta. f_equal.
  rewrite (fold_sub_zsum
             (fun k => Seq_getitem (i_loop self n) (k - 1) *! Seq_getitem self (n - k))).
  f_equal. apply zsum_ext. intros j Hj. f_equal; f_equal; lia.
Qed.

Lemma i_loop_length (self : Seq N) (n : Z) :
  2 <= n -> Z.of_nat (length (Seq_val (i_loop self n))) = n - 1.
Proof.
  intro H. pattern n. apply range_bound_ind with (lo := 2); [| |lia].
  - now rewrite i_loop_base by lia.
  - intros hi Hhi IH. rewrite i_loop_succ by lia. cbn [Seq_append Seq_val].
    rewrite length_app. cbn [length]. lia.
Qed.

Lemma i_loop_prefix (self : Seq N) (m n k : Z) :
  2 <= m <= n -> k < m - 1 ->
  Seq_getitem (i_loop self n) k = Seq_getitem (i_loop self m) k.
Proof.
  intros [Hm Hn] Hk. pattern n. apply range_bound_ind with (lo := m); [| |lia].
  - reflexivity.
  - intros hi Hhi IH. rewrite i_loop_succ by lia.
    rewrite Seq_getitem_append_old; [exact IH|].
    rewrite i_loop_length by lia. lia.
Qed.

Lemma i_loop_head (self : Seq N) (n : Z) :
  Seq_getitem (i_loop self n) 0 = Seq_getitem self 1.
Proof.
  destruct (Z.le_gt_cases n 2) as [H|H].
  - rewrite i_loop_base by lia. now rewrite Seq_getitem_nth by lia.
  - rewrite (i_loop_prefix self 2 n) by lia. rewrite i_loop_base by lia.
    now rewrite Seq_getitem_nth by lia.
Qed.

(** The recurrence of [i]. *)
Lemma i_loop_rec (self : Seq N) (n k : Z) :
  2 <= k < n ->
  Seq_getitem (i_loop self n) (k - 1) =
  Seq_getitem self k -!
  zsum (fun j => Seq_getitem (i_loop self n) j *! Seq_getitem self (k - 1 - j)) (k - 1).
Proof.
  intro H. rewrite (i_loop_prefix self (k + 1) n) by lia.
  rewrite i_loop_succ by lia.
  rewrite Seq_getitem_append_new by (symmetry; apply i_loop_length; lia).
  f_equal. apply zsum_ext. intros j Hj. f_equal. symmetry.
  apply i_loop_prefix; lia.
Qed.

(** *** [i] after [f], and [f] after [i] *)

(** [i(f(a))] gives back every coefficient of [a] that it has room for. *)
Lemma i_f_window (a : Seq N) (l : Z) :
  forall k, 0 <= k < l - 1 ->
  Seq_getitem (i_loop (Seq_f a l) l) k = Seq_getitem a k.
Proof.
  intros k Hk.
  assert (G : forall n : nat, forall j, 0 <= j < Z.of_nat n -> j < l - 1 ->
              Seq_getitem (i_loop (Seq_f a l) l) j = Seq_getitem a j).
  { induction n as [|n IH]; [intros; lia|].
    intros j Hj Hjl.
    destruct (Z.eq_dec j 0) as [->|Hj0].
    - rewrite i_loop_head, Seq_f_conv by lia.
      rewrite (zsum_succ _ 0), zsum_nil by lia.
      replace (1 - 1 - 0) with 0 by lia. rewrite Seq_f_head. ring.
    - replace j with (j + 1 - 1) at 1 by lia.
      rewrite i_loop_rec by lia. rewrite (Seq_f_conv a l (j + 1)) by lia.
      rewrite zsum_succ by lia.
      replace (j + 1 - 1 - j) with 0 by lia. rewrite Seq_f_head.
      rewrite (zsum_ext
                 (fun i => Seq_getitem (i_loop (Seq_f a l) l) i
                           *! Seq_getitem (Seq_f a l) (j + 1 - 1 - i))
                 (fun i => Seq_getitem a i *! Seq_getitem (Seq_f a l) (j + 1 - 1 - i)))
        by (intros i Hi; rewrite IH by lia; reflexivity).
      replace (j + 1 - 1) with j by lia. ring. }
  apply (G (Z.to_nat (k + 1))); lia.
Qed.

(** [f(i(a))] gives back the coefficients of [a], as far as [a] goes. *)
Lemma f_i_window (a : Seq N) (l : Z) :
  Seq_getitem a 0 = one ->
  forall k, 0 <= k < Seq_len a -> k < l ->
  Seq_getitem (Seq_f (i_loop a (Seq_len a)) l) k = Seq_getitem a k.
Proof.
  intros Ha k Hk Hkl.
  set (q := i_loop a (Seq_len a)).
  assert (G : forall n : nat, forall j, 0 <= j < Z.of_nat n -> j < Seq_len a -> j < l ->
              Seq_getitem (Seq_f q l) j = Seq_getitem a j).
  { induction n as [|n IH]; [intros; lia|].
    intros j Hj Hja Hjl.
    destruct (Z.eq_dec j 0) as [->|Hj0].
    - now rewrite Seq_f_head.
    - rewrite Seq_f_conv by lia.
      rewrite (zsum_ext _ (fun i => Seq_getitem q i *! Seq_getitem a (j - 1 - i)))
        by (intros i Hi; rewrite IH by lia; reflexivity).
      replace j with (j - 1 + 1) at 1 by lia. rewrite zsum_succ by lia.
      replace (j - 1 - (j - 1)) with 0 by lia. rewrite Ha.
      destruct (Z.eq_dec j 1) as [->|Hj1].
      + rewrite zsum_nil by lia. unfold q.
        replace (1 - 1) with 0 by lia. rewrite i_loop_head. ring.
      + unfold q. rewrite (i_loop_rec a (Seq_len a) j) by lia. ring. }
  apply (G (Z.to_nat (k + 1))); lia.
Qed.

(** *** Addition, product and equality, coefficient by coefficient *)

Lemma Seq_getitem_add (a b : Seq N) (i : Z) :
  Seq_getitem (Seq_add a b) i = Seq_getitem a i +! Seq_getitem b i.
Proof.
  unfold Seq_add. cbv zeta.
  destruct (Z.lt_ge_cases i 0) as [Hn|Hn].
  - rewrite !Seq_getitem_neg by lia. ring.
  - destruct (Z.lt_ge_cases i (Z.max (Seq_len a) (Seq_len b))) as [Hm|Hm].
    + now rewrite Seq_getitem_map_range by lia.
    + rewrite Seq_getitem_map_range_out by lia.
      rewrite (Seq_getitem_out a), (Seq_getitem_out b) by lia. ring.
Qed.

(** The Cauchy product: the truncation of [Seq.__mul__] drops only
    coefficients that are zero. *)
Lemma Seq_getitem_mul (a b : Seq N) (n : Z) :
  Seq_getitem (Seq_mul a b) n =
  zsum (fun k => Seq_getitem a k *! Seq_getitem b (n - k)) (n + 1).
Proof.
  unfold Seq_mul. cbv zeta.
  destruct (Z.lt_ge_cases n 0) as [Hn|Hn].
  - rewrite Seq_getitem_neg, zsum_nil by lia. reflexivity.
  - destruct (Z.lt_ge_cases n (Seq_len a + Seq_len b - 1)) as [Hm|Hm].
    + now rewrite Seq_getitem_map_range by lia.
    + rewrite Seq_getitem_map_range_out by lia. symmetry.
      apply zsum_zero. intros k Hk.
      destruct (Z.lt_ge_cases k (Seq_len a)) as [Hk'|Hk'].
      * rewrite (Seq_getitem_out b) by lia. ring.
      * rewrite (Seq_getitem_out a) by lia. ring.
Qed.

Lemma Seq_getitem_single (v : N) (i : Z) :
  Seq_getitem (mkSeq [v]) i = if i =? 0 then v else zero.
Proof.
  destruct (Z.eqb_spec i 0) as [->|Hi].
  - now rewrite Seq_getitem_nth by lia.
  - destruct (Z.lt_ge_cases i 0) as [Hn|Hn].
    + now apply Seq_getitem_neg.
    + apply Seq_getitem_beyond. cbn. lia.
Qed.

Lemma Seq_getitem_mul_single_l (v : N) (b : Seq N) (n : Z) :
  Seq_getitem (Seq_mul (mkSeq [v]) b) n = v *! Seq_getitem b n.
Proof.
  rewrite Seq_getitem_mul.
  destruct (Z.lt_ge_cases n 0) as [Hn|Hn].
  - rewrite zsum_nil, Seq_getitem_neg by lia. ring.
  - rewrite (zsum_single _ (n + 1) 0) by
      (first [lia | intros k Hk Hk0; rewrite Seq_getitem_single;
                    destruct (Z.eqb_spec k 0); [lia | ring]]).
    rewrite Seq_getitem_single. cbn. now rewrite Z.sub_0_r.
Qed.

Lemma Seq_getitem_mul_single_r (a : Seq N) (v : N) (n : Z) :
  Seq_getitem (Seq_mul a (mkSeq [v])) n = Seq_getitem a n *! v.
Proof.
  rewrite Seq_getitem_mul.
  destruct (Z.lt_ge_cases n 0) as [Hn|Hn].
  - rewrite zsum_nil, Seq_getitem_neg by lia. ring.
  - rewrite (zsum_single _ (n + 1) n) by
      (first [lia | intros k Hk Hkn; rewrite Seq_getitem_single;
                    destruct (Z.eqb_spec (n - k) 0); [lia | ring]]).
    rewrite Seq_getitem_single. now rewrite Z.sub_diag.
Qed.

(** [Seq.__eq__] holds exactly when all coefficients agree. *)
Lemma Seq_eq_true (a b : Seq N) :
  Seq_eq a b = true <-> forall k, Seq_getitem a k = Seq_getitem b k.
Proof.
  unfold Seq_eq. rewrite forallb_forall. split.
  - intros H k.
    destruct (Z.lt_ge_cases k 0) as [Hn|Hn]; [now rewrite !Seq_getitem_neg|].
    destruct (Z.lt_ge_cases k (Z.max (Seq_len a) (Seq_len b))) as [Hm|Hm].
    + apply exact_eq, H, in_range. lia.
    + now rewrite (Seq_getitem_out a), (Seq_getitem_out b) by lia.
  - intros H k _. apply exact_eq, H.
Qed.



Lemma x_getitem (i : Z) : Seq_getitem (x : Seq N) i = if i =? 1 then one else zero.
Proof.
  unfold x. rewrite Seq_init_exact.
  destruct (Z.lt_ge_cases i 0) as [Hn|Hn].
  - rewrite Seq_getitem_neg by lia. destruct (Z.eqb_spec i 1); [lia|reflexivity].
  - rewrite Seq_getitem_nth by lia. cbn [Seq_val].
    destruct (Z.eqb_spec i 1) as [->|Hi]; [reflexivity|].
    destruct (Z.to_nat i) as [|[|j]] eqn:E; cbn; try reflexivity; try lia.
    now destruct j.
Qed.

(** *** Signature convolution with [Sig(1)] *)

Lemma Sig_mul_loop (self o : Sig N) :
  Sig_mul self o = mkSig (Seq_mul (fst (mul_loop self o (Sig_len o))) (Sig_val self)).
Proof.
  unfold Sig_mul, mul_loop. cbv zeta.
  now destruct (fold_left _ _ _) as [out g].
Qed.






(** *** Index assignment *)

Lemma Seq_len_stored (s : Seq N) :
  length (Seq_val s) <> 1%nat -> Seq_len s = Z.of_nat (length (Seq_val s)).
Proof.
  intro H. unfold Seq_len.
  destruct (Z.eqb_spec (Z.of_nat (length (Seq_val s))) 1) as [E|E]; [lia|reflexivity].
Qed.

Lemma Seq_setitem_out (s : Seq N) (key : Z) (v : N) :
  key < 0 \/ Seq_len s <= key -> Seq_setitem s key v = s.
Proof.
  intro H. unfold Seq_setitem.
  destruct (Z.ltb_spec key (Seq_len s)), (Z.leb_spec 0 key); cbn; try reflexivity; lia.
Qed.

Lemma Seq_setitem_in (s : Seq N) (key : Z) (v : N) :
  0 <= key < Seq_len s ->
  Seq_setitem s key v = mkSeq (list_set (Seq_val s) (Z.to_nat key) v).
Proof.
  intro H. unfold Seq_setitem.
  destruct (Z.ltb_spec key (Seq_len s)), (Z.leb_spec 0 key); cbn; try reflexivity; lia.
Qed.

Lemma Seq_setitem_length (s : Seq N) (key : Z) (v : N) :
  length (Seq_val (Seq_setitem s key v)) = length (Seq_val s).
Proof.
  unfold Seq_setitem. destruct ((key <? Seq_len s) && (0 <=? key)); [|reflexivity].
  apply list_set_length.
Qed.

Lemma Seq_getitem_setitem (s : Seq N) (key i : Z) (v : N) :
  0 <= key < Seq_len s ->
  Seq_getitem (Seq_setitem s key v) i = if i =? key then v else Seq_getitem s i.
Proof.
  intro H. pose proof (Seq_len_bounds s) as Hb.
  destruct (Z.lt_ge_cases i 0) as [Hn|Hn].
  - rewrite !Seq_getitem_neg by lia. destruct (Z.eqb_spec i key); [lia|reflexivity].
  - rewrite Seq_setitem_in, !Seq_getitem_nth by lia. cbn [Seq_val].
    rewrite list_set_nth by lia.
    destruct (Z.eqb_spec i key) as [->|Hik].
    + now rewrite Nat.eqb_refl.
    + destruct (Nat.eqb_spec (Z.to_nat i) (Z.to_nat key)); [lia|reflexivity].
Qed.

(** *** Antidiagonal summation *)

Lemma f_loop_succ (self : Block N) (a : Z) (g : Seq N) (m : Z) :
  0 <= m ->
  f_loop self a g (m + 1) =
  Seq_setitem (f_loop self a g m) m (antidiagonal self a g m).
Proof.
  intro H. unfold f_loop at 1. rewrite fold_range_snoc by lia.
  fold (f_loop self a g m). cbv zeta. f_equal.
  apply (fold_add_zsum
           (fun k => Seq_getitem (Block_getitem self (m - a * k)) k
                     *! Seq_getitem (Seq_f g (Block_len self)) (m - a * k))).
Qed.

Lemma f_loop_length (self : Block N) (a : Z) (g : Seq N) (m : Z) :
  Z.of_nat (length (Seq_val (f_loop self a g m))) = Block_len self.
Proof.
  destruct (Z.le_gt_cases m 0) as [Hm|Hm].
  - unfold f_loop. rewrite (range_nil 0 m) by lia. cbn [fold_left].
    rewrite Seq_init_exact. cbn [Seq_val]. rewrite length_map_range.
    unfold Block_len. lia.
  - pattern m. apply range_bound_ind with (lo := 0); [| |lia].
    + unfold f_loop. rewrite (range_nil 0 0) by lia. cbn [fold_left].
      rewrite Seq_init_exact. cbn [Seq_val]. rewrite length_map_range.
      unfold Block_len. lia.
    + intros hi Hhi IH. rewrite f_loop_succ by lia. now rewrite Seq_setitem_length.
Qed.

(** Away from one row, every round of the loop stores its sum. *)
Lemma f_loop_getitem (self : Block N) (a : Z) (g : Seq N) (m : Z) :
  Block_len self <> 1 -> 0 <= m <= Block_len self ->
  forall n, 0 <= n < m ->
  Seq_getitem (f_loop self a g m) n = antidiagonal self a g n.
Proof.
  intros Hsz [Hm0 Hm]. revert Hm.
  pattern m. apply range_bound_ind with (lo := 0); [| |lia].
  - intros; lia.
  - intros hi Hhi IH Hm n Hn. rewrite f_loop_succ by lia.
    assert (Hlen : Seq_len (f_loop self a g hi) = Block_len self).
    { rewrite Seq_len_stored; [apply f_loop_length|].
      pose proof (f_loop_length self a g hi). lia. }
    rewrite Seq_getitem_setitem by lia.
    destruct (Z.eqb_spec n hi) as [->|Hne]; [reflexivity|].
    apply IH; lia.
Qed.

Lemma Block_f_getitem (self : Block N) (a : Z) (g : Seq N) :
  Block_len self <> 1 ->
  forall n, 0 <= n < Block_len self ->
  Seq_getitem (Block_f self a g) n = antidiagonal self a g n.
Proof.
  intros Hsz n Hn. change (Block_f self a g) with (f_loop self a g (Block_len self)).
  apply f_loop_getitem; lia.
Qed.

(** With one row the output is the stored single zero, whose length is
    [0], and the assignment to its index [0] is dropped. *)
Lemma Block_f_one_row (self : Block N) (a : Z) (g : Seq N) :
  Block_len self = 1 -> Block_f self a g = mkSeq [zero].
Proof.
  intro H. unfold Block_f. cbv zeta. rewrite H.
  change (range 0 1) with [0]. cbn [fold_left map].
  rewrite Seq_init_exact. apply Seq_setitem_out. right.
  unfold Seq_len. cbn [Seq_val length nth].
  replace (is_zero zero) with true by (symmetry; now apply is_zero_iff).
  cbn. lia.
Qed.

(** *** Division *)

Lemma foldM_ok {A S : Type} (body : S -> A -> result S) (step : S -> A -> S)
  (l : list A) (s : S) :
  (forall s a, In a l -> body s a = Ok (step s a)) ->
  foldM body l s = Ok (fold_left step l s).
Proof.
  revert s. induction l as [|h t IH]; intros s H; [reflexivity|].
  cbn [foldM fold_left]. rewrite H by now left. cbn [bind].
  apply IH. intros s' a Ha. apply H. now right.
Qed.

Section ExactDiv.

Context {PD : PyDiv N}.

Lemma pydiv_ok (a b : N) : b <> zero -> pydiv a b = Ok (py_truediv a b).
Proof.
  intro H. unfold pydiv. destruct (is_zero b) eqn:E; [|reflexivity].
  apply is_zero_iff in E. contradiction.
Qed.

Lemma Seq_truediv_ok (self o : Seq N) :
  Seq_getitem o 0 <> zero ->
  Seq_truediv self o = Ok (div_loop self o (Z.max (Seq_len self) (Seq_len o))).
Proof.
  intro H. unfold Seq_truediv. rewrite pydiv_ok by exact H. cbn [bind]. cbv zeta.
  erewrite foldM_ok.
  2:{ intros r k _. rewrite pydiv_ok by exact H. cbn [bind]. reflexivity. }
  cbn [bind]. f_equal. fold (div_loop self o (Z.max (Seq_len self) (Seq_len o))).
  rewrite Seq_init_exact.
  destruct (div_loop self o _) as [v]. cbn [Seq_val]. f_equal.
  rewrite <- (map_id v) at 2. apply map_ext. apply exact_int.
Qed.

Lemma div_loop_base (self o : Seq N) (m : Z) :
  m <= 1 ->
  div_loop self o m = mkSeq [py_truediv (Seq_getitem self 0) (Seq_getitem o 0)].
Proof.
  intro H. unfold div_loop. rewrite (range_nil 1 m) by lia. cbn [fold_left].
  apply Seq_of_num_exact.
Qed.

Lemma div_loop_succ (self o : Seq N) (m : Z) :
  1 <= m ->
  div_loop self o (m + 1) =
  Seq_append (div_loop self o m)
    (py_truediv
       (Seq_getitem self m -!
        zsum (fun k => Seq_getitem (div_loop self o m) k *! Seq_getitem o (m - k)) m)
       (Seq_getitem o 0)).
Proof.
  intro H. unfold div_loop at 1. now rewrite fold_range_snoc by lia.
Qed.

Lemma div_loop_length (self o : Seq N) (m : Z) :
  1 <= m -> Z.of_nat (length (Seq_val (div_loop self o m))) = m.
Proof.
  intro H. pattern m. apply range_bound_ind with (lo := 1); [| |lia].
  - now rewrite div_loop_base by lia.
  - intros hi Hhi IH. rewrite div_loop_succ by lia. cbn [Seq_append Seq_val].
    rewrite length_app. cbn [length]. lia.
Qed.

Lemma div_loop_prefix (self o : Seq N) (m n k : Z) :
  1 <= m <= n -> k < m ->
  Seq_getitem (div_loop self o n) k = Seq_getitem (div_loop self o m) k.
Proof.
  intros [Hm Hn] Hk. pattern n. apply range_bound_ind with (lo := m); [| |lia].
  - reflexivity.
  - intros hi Hhi IH. rewrite div_loop_succ by lia.
    rewrite Seq_getitem_append_old; [exact IH|].
    rewrite div_loop_length by lia. lia.
Qed.

(** *** The loop index in [Sig.__truediv__]

    In the first round the loop index is [0], so [x * a] is
    [Sig(0) * a], all of whose coefficients are zero; [bp] is zero from
    then on, and the second round divides by it. *)

Lemma Sig_rmul_zero (a : Sig N) (i : Z) :
  Seq_getitem (Sig_val (Sig_rmul a (ONum (of_int 0)))) i = zero.
Proof.
  unfold Sig_rmul. rewrite Sig_mul_loop. cbn [Sig_val check_sig].
  rewrite Seq_init_exact, Seq_getitem_mul_single_r. fold (zero : N). ring.
Qed.

Lemma Sig_truediv_second_round (self a : Sig N) :
  2 <= Z.max (Sig_len self) (Sig_len a) ->
  Sig_truediv self a = Raise ZeroDivisionError.
Proof.
  intro H. unfold Sig_truediv. cbv zeta.
  rewrite (range_cons 0) by lia. rewrite (range_cons (0 + 1)) by lia.
  cbn [foldM]. unfold pydiv at 1.
  destruct (is_zero (Seq_getitem (Sig_val a) 0)); [reflexivity|].
  cbn [bind app]. unfold py_nth at 1. cbn [Z.to_nat nth_error bind].
  unfold pydiv at 1.
  replace (is_zero _) with true; [reflexivity|].
  symmetry. apply is_zero_iff. rewrite Seq_getitem_mul.
  apply zsum_zero. intros k Hk. cbn [check_seq]. rewrite Sig_rmul_zero. ring.
Qed.

End ExactDiv.

End Exact.

(** ** Divisions by a leading zero, over any numbers *)

Section DivisionErrors.

Context {N : Type} {PN : PyNum N} {PD : PyDiv N}.

Lemma Seq_truediv_zero_divisor (self o : Seq N) :
  is_zero (Seq_getitem o 0) = true ->
  Seq_truediv self o = Raise ZeroDivisionError.
Proof.
  intro H. unfold Seq_truediv, pydiv. now rewrite H.
Qed.

Lemma Sig_floordiv_zero_divisor (self b : Sig N) :
  is_zero (Sig_getitem b 0) = true ->
  Sig_floordiv self b = Raise ZeroDivisionError.
Proof.
  intro H. unfold Sig_floordiv, pydiv. cbv zeta. now rewrite H.
Qed.

Lemma Sig_truediv_zero_divisor (self a : Sig N) :
  is_zero (Sig_getitem a 0) = true ->
  1 <= Z.max (Sig_len self) (Sig_len a) ->
  Sig_truediv self a = Raise ZeroDivisionError.
Proof.
  intros H Hl. unfold Sig_truediv. cbv zeta.
  rewrite (range_cons 0) by lia. cbn [foldM]. unfold pydiv at 1.
  unfold Sig_getitem in H. now rewrite H.
Qed.

(** With both operands of length [0] the loop does not run, no division
    takes place, and the loop that drops trailing zeros indexes [[]]. *)
Lemma Sig_truediv_no_round (self a : Sig N) :
  Z.max (Sig_len self) (Sig_len a) <= 0 ->
  Sig_truediv self a = Raise IndexError.
Proof.
  intro H. unfold Sig_truediv. cbv zeta. now rewrite range_nil by lia.
Qed.

End DivisionErrors.

(** ** Integer sequences among Python's numbers

    A map [h] between two kinds of numbers that keeps the literals, the
    operations, [==] and the normalisation of [Seq.__init__] commutes with
    the methods.  [PInt] is such a map, so on integer coefficients the
    [int]/[float] instance computes what the integer instance computes. *)

Section Transfer.

Context {N M : Type} {PN : PyNum N} {PM : PyNum M}.

Variable h : N -> M.

Hypothesis h_of_int : forall z, h (of_int z) = of_int z.
Hypothesis h_add : forall a b, h (a +! b) = h a +! h b.
Hypothesis h_mul : forall a b, h (a *! b) = h a *! h b.
Hypothesis h_sub : forall a b, h (a -! b) = h a -! h b.
Hypothesis h_eq : forall a b, py_eq (h a) (h b) = py_eq a b.
Hypothesis h_int : forall a, py_int (h a) = h (py_int a).

Lemma h_zero : h zero = zero.
Proof. apply h_of_int. Qed.

Lemma is_zero_map (a : N) : is_zero (h a) = is_zero a.
Proof. unfold is_zero. rewrite <- h_zero. apply h_eq. Qed.

Lemma Seq_len_map (s : Seq N) : Seq_len (Seq_map h s) = Seq_len s.
Proof.
  unfold Seq_len, Seq_map. cbn [Seq_val]. rewrite length_map.
  rewrite <- h_zero, map_nth. now rewrite is_zero_map.
Qed.

Lemma Seq_getitem_map (s : Seq N) (i : Z) :
  Seq_getitem (Seq_map h s) i = h (Seq_getitem s i).
Proof.
  unfold Seq_getitem. rewrite Seq_len_map.
  destruct ((i <? Seq_len s) && (0 <=? i)); [|now rewrite h_zero].
  unfold Seq_map. cbn [Seq_val]. rewrite <- h_zero. apply map_nth.
Qed.

Lemma Seq_init_map (l : list N) : Seq_init (map h l) = Seq_map h (Seq_init l).
Proof.
  unfold Seq_init, Seq_map. cbn [Seq_val]. f_equal. rewrite !map_map.
  apply map_ext. apply h_int.
Qed.

Lemma Seq_append_map (s : Seq N) (v : N) :
  Seq_append (Seq_map h s) (h v) = Seq_map h (Seq_append s v).
Proof. unfold Seq_append, Seq_map. cbn [Seq_val]. now rewrite map_app. Qed.

Lemma fold_add_map (l : list N) (a : N) :
  fold_left py_add (map h l) (h a) = h (fold_left py_add l a).
Proof.
  revert a. induction l as [|b t IH]; intro a; [reflexivity|].
  cbn [map fold_left]. rewrite <- h_add. apply IH.
Qed.

Lemma py_sum_map (l : list N) : py_sum (map h l) = h (py_sum l).
Proof. unfold py_sum. rewrite <- h_zero. apply fold_add_map. Qed.

Lemma fold_left_transfer {A S T : Type} (phi : S -> T)
  (f : S -> A -> S) (g : T -> A -> T) (l : list A) (s : S) :
  (forall s a, g (phi s) a = phi (f s a)) ->
  fold_left g l (phi s) = phi (fold_left f l s).
Proof.
  intro H. revert s. induction l as [|a t IH]; intro s; [reflexivity|].
  cbn [fold_left]. rewrite H. apply IH.
Qed.

Lemma Seq_add_map (a b : Seq N) :
  Seq_add (Seq_map h a) (Seq_map h b) = Seq_map h (Seq_add a b).
Proof.
  unfold Seq_add. cbv zeta. rewrite !Seq_len_map, <- Seq_init_map, map_map.
  f_equal. apply map_ext. intro k. now rewrite !Seq_getitem_map, h_add.
Qed.

Lemma Seq_mul_map (a b : Seq N) :
  Seq_mul (Seq_map h a) (Seq_map h b) = Seq_map h (Seq_mul a b).
Proof.
  unfold Seq_mul. cbv zeta. rewrite !Seq_len_map, <- Seq_init_map, map_map.
  f_equal. apply map_ext. intro n. rewrite <- py_sum_map, map_map.
  f_equal. apply map_ext. intro k. now rewrite !Seq_getitem_map, h_mul.
Qed.

Lemma Seq_eq_map (a b : Seq N) :
  Seq_eq (Seq_map h a) (Seq_map h b) = Seq_eq a b.
Proof.
  unfold Seq_eq. rewrite !Seq_len_map. induction (range 0 _) as [|k t IH];
    [reflexivity|].
  cbn [forallb]. now rewrite IH, !Seq_getitem_map, h_eq.
Qed.

Lemma Seq_f_map (s : Seq N) (l : Z) :
  Seq_f (Seq_map h s) l = Seq_map h (Seq_f s l).
Proof.
  unfold Seq_f. rewrite Seq_len_map.
  replace (Seq_init [one]) with (Seq_map h (Seq_init [one]))
    by (rewrite <- Seq_init_map; cbn [map]; unfold one; now rewrite h_of_int).
  apply fold_left_transfer. intros r k. cbv zeta.
  rewrite <- Seq_append_map. f_equal. rewrite <- h_zero.
  apply fold_left_transfer. intros n j.
  now rewrite h_add, h_mul, !Seq_getitem_map.
Qed.

Lemma Seq_i_map (s : Seq N) :
  Seq_i (Seq_map h s) = result_map (Seq_map h) (Seq_i s).
Proof.
  unfold Seq_i. rewrite Seq_len_map, !Seq_getitem_map.
  replace (one : M) with (h one) by apply h_of_int. rewrite h_eq.
  destruct (py_eq (Seq_getitem s 0) one); [|reflexivity].
  cbn [negb result_map]. f_equal.
  replace (Seq_init [h (Seq_getitem s 1)]) with (Seq_map h (Seq_init [Seq_getitem s 1]))
    by now rewrite <- Seq_init_map.
  apply fold_left_transfer. intros r k. cbv zeta.
  rewrite <- Seq_append_map. f_equal. rewrite !Seq_getitem_map.
  apply fold_left_transfer. intros n j.
  now rewrite h_sub, h_mul, !Seq_getitem_map.
Qed.

Lemma Sig_mul_map (a b : Sig N) :
  Sig_mul (Sig_map h a) (Sig_map h b) = Sig_map h (Sig_mul a b).
Proof.
  unfold Sig_mul. cbv zeta. unfold Sig_len, Sig_getitem. cbn [Sig_map Sig_val].
  rewrite Seq_len_map.
  assert (Hx : (x : Seq M) = Seq_map h x).
  { unfold x. rewrite <- Seq_init_map. cbn [map]. unfold zero, one.
    now rewrite !h_of_int. }
  pose (phi := fun p : Seq N * Seq N => (Seq_map h (fst p), Seq_map h (snd p))).
  assert (E0 : (Seq_of_num (zero : M), Seq_of_num (one : M)) =
               phi (Seq_of_num zero, Seq_of_num one)).
  { unfold phi, Seq_of_num, Seq_map, zero, one. cbn [fst snd Seq_val map].
    now rewrite <- !h_int, !h_of_int. }
  rewrite E0.
  rewrite (fold_left_transfer phi
             (fun '(out, g) k =>
                (Seq_add out (Seq_mul g (check_seq (ONum (Seq_getitem (Sig_val b) k)))),
                 Seq_mul g (Seq_mul (Sig_val a) (check_seq (OSeq x)))))).
  - destruct (fold_left _ _ _) as [out g]. cbn [phi fst snd Sig_map Sig_val].
    now rewrite Seq_mul_map.
  - intros [out g] k. cbn [phi fst snd check_seq].
    rewrite Hx, Seq_getitem_map.
    replace (Seq_init [h (Seq_getitem (Sig_val b) k)])
      with (Seq_map h (Seq_init [Seq_getitem (Sig_val b) k]))
      by now rewrite <- Seq_init_map.
    now rewrite !Seq_mul_map, Seq_add_map.
Qed.

End Transfer.

(** The methods on integer coefficients, inside Python's numbers. *)
Lemma methods_on_ints :
  (forall a l, Seq_f (Seq_map PInt a) l = Seq_map PInt (Seq_f a l)) /\
  (forall a, Seq_i (Seq_map PInt a) = result_map (Seq_map PInt) (Seq_i a)) /\
  (forall a b, Seq_add (Seq_map PInt a) (Seq_map PInt b) = Seq_map PInt (Seq_add a b)) /\
  (forall a b, Seq_mul (Seq_map PInt a) (Seq_map PInt b) = Seq_map PInt (Seq_mul a b)) /\
  (forall a b, Seq_eq (Seq_map PInt a) (Seq_map PInt b) = Seq_eq a b) /\
  (forall a b, Sig_mul (Sig_map PInt a) (Sig_map PInt b) = Sig_map PInt (Sig_mul a b)).
Proof.
  repeat split; intros.
  - now apply Seq_f_map.
  - now apply Seq_i_map.
  - now apply Seq_add_map.
  - now apply Seq_mul_map.
  - now apply Seq_eq_map.
  - now apply Sig_mul_map.
Qed.

(** ** The signature function and its inverse on integer sequences *)

(** C1.  For every sequence [a] and every length [l >= 1], [a.f(l)] has [l]
    coefficients, the first is [1], and for [1 <= k < l] coefficient [k] is
    the sum over [j < len(a)] of [a[j] * r[k-j-1]], where a negative index
    reads as [0]; [Seq([1,1]).f(5)] is [[1, 1, 2, 3, 5]]. *)
Theorem C1_signature_function (a : Seq Z) (l : Z) :
  1 <= l ->
  Z.of_nat (length (Seq_val (Seq_f a l))) = l /\
  Seq_getitem (Seq_f a l) 0 = 1 /\
  (forall k, 1 <= k < l ->
     Seq_getitem (Seq_f a l) k =
     zsum (fun j => Seq_getitem a j * Seq_getitem (Seq_f a l) (k - j - 1)) (Seq_len a)) /\
  (forall i, i < 0 -> Seq_getitem (Seq_f a l) i = 0) /\
  Seq_f (SeqZ [1; 1]) 5 = SeqZ [1; 1; 2; 3; 5].
Proof.
  intro Hl. split; [|split; [|split; [|split]]].
  - now apply Seq_f_length.
  - exact (Seq_f_head a l).
  - intros k Hk. exact (Seq_f_rec a l k Hk).
  - intros i Hi. exact (Seq_getitem_neg (Seq_f a l) i Hi).
  - reflexivity.
Qed.

(** The recurrence at [a = [1, 2, 3]], [l = 4], [k = 3]. *)
Lemma C1_signature_function_witness :
  Seq_getitem (Seq_f (SeqZ [1; 2; 3]) 4) 3 =
  zsum (fun j => Seq_getitem (SeqZ [1; 2; 3]) j
                 * Seq_getitem (Seq_f (SeqZ [1; 2; 3]) 4) (3 - j - 1))
       (Seq_len (SeqZ [1; 2; 3])).
Proof.
  assert (H : 1 <= 4) by lia.
  destruct (C1_signature_function (SeqZ [1; 2; 3]) 4 H) as (_ & _ & Hrec & _).
  apply Hrec. lia.
Defined.

(** C9.  For every sequence [a] and every length [l >= 1], [a.f(l)] stores
    exactly [l] coefficients and the first is [1]; so [i()] accepts it and
    returns a sequence. *)
Theorem C9_f_output_invertible (a : Seq Z) (l : Z) :
  1 <= l ->
  Z.of_nat (length (Seq_val (Seq_f a l))) = l /\
  nth 0 (Seq_val (Seq_f a l)) 0 = 1 /\
  Seq_getitem (Seq_f a l) 0 = 1 /\
  exists r, Seq_i (Seq_f a l) = Ok r.
Proof.
  intro Hl. pose proof (Seq_f_head a l) as Hh.
  split; [now apply Seq_f_length|]. split; [|split; [exact Hh|]].
  - rewrite Seq_getitem_nth in Hh by lia. exact Hh.
  - eexists. exact (Seq_i_ok (Seq_f a l) Hh).
Qed.

(** [i()] on [Seq([1, 1]).f(5)]. *)
Lemma C9_f_output_invertible_witness :
  exists r, Seq_i (Seq_f (SeqZ [1; 1]) 5) = Ok r.
Proof.
  assert (H : 1 <= 5) by lia.
  exact (proj2 (proj2 (proj2 (C9_f_output_invertible (SeqZ [1; 1]) 5 H)))).
Defined.

(** C3, amended.  For every sequence [a] of integers with [a[0] = 1], and
    [f] at its default length [std_l = 30]: [i(f(a))] returns a sequence
    that stores [29] coefficients, those of [a] at the indices [0..28];
    [i(a)] returns, [f(i(a))] stores [30] coefficients, and they are those
    of [a] at every index below [min(len(a), 30)]. *)
Theorem C3_inverse_law (a : Seq Z) :
  Seq_getitem a 0 = 1 ->
  (exists r, Seq_i (Seq_f a std_l) = Ok r /\
     Z.of_nat (length (Seq_val r)) = std_l - 1 /\
     forall k, 0 <= k < std_l - 1 -> Seq_getitem r k = Seq_getitem a k) /\
  (exists q, Seq_i a = Ok q /\
     Z.of_nat (length (Seq_val (Seq_f q std_l))) = std_l /\
     forall k, 0 <= k < Z.min (Seq_len a) std_l ->
       Seq_getitem (Seq_f q std_l) k = Seq_getitem a k).
Proof.
  intro Ha. split.
  - exists (i_loop (Seq_f a std_l) (Seq_len (Seq_f a std_l))). split.
    + exact (Seq_i_ok (Seq_f a std_l) (Seq_f_head a std_l)).
    + rewrite Seq_f_len by (unfold std_l; lia). split.
      * apply i_loop_length. unfold std_l. lia.
      * intros k Hk. now apply i_f_window.
  - exists (i_loop a (Seq_len a)). split.
    + exact (Seq_i_ok a Ha).
    + split.
      * apply Seq_f_length. unfold std_l. lia.
      * intros k Hk. apply f_i_window; [exact Ha | lia | lia].
Qed.

(** [i(f(a))] and [f(i(a))] at [a = [1, 2, 3]]. *)
Lemma C3_inverse_law_witness :
  (exists r, Seq_i (Seq_f (SeqZ [1; 2; 3]) std_l) = Ok r /\
     Z.of_nat (length (Seq_val r)) = std_l - 1 /\
     forall k, 0 <= k < std_l - 1 -> Seq_getitem r k = Seq_getitem (SeqZ [1; 2; 3]) k) /\
  (exists q, Seq_i (SeqZ [1; 2; 3]) = Ok q /\
     Z.of_nat (length (Seq_val (Seq_f q std_l))) = std_l /\
     forall k, 0 <= k < Z.min (Seq_len (SeqZ [1; 2; 3])) std_l ->
       Seq_getitem (Seq_f q std_l) k = Seq_getitem (SeqZ [1; 2; 3]) k).
Proof.
  assert (H : Seq_getitem (SeqZ [1; 2; 3]) 0 = 1) by reflexivity.
  exact (C3_inverse_law (SeqZ [1; 2; 3]) H).
Defined.

(** C3 as stated fails on floats: for [a = [1, 0.1]], a sequence the code
    accepts, [a.f()] is [[1, 1.0, 1.1, ...]], and [i] of it has
    [1.1 - 1.0 = 0.10000000000000009] at index [1], which is not [0.1]. *)
Lemma C3_counterexample :
  Seq_getitem a01 0 = PInt 1 /\
  exists r : Seq pynum,
    Seq_i (Seq_f a01 std_l) = Ok r /\
    Seq_getitem a01 1 = PFloat (S754_finite false 7205759403792794 (-56)) /\
    Seq_getitem r 1 = PFloat (S754_finite false 7205759403792800 (-56)) /\
    py_eq (Seq_getitem r 1) (Seq_getitem a01 1) = false /\
    Seq_eq r a01 = false.
Proof.
  split; [reflexivity|]. eexists. split; [vm_compute; reflexivity|].
  split; [reflexivity|]. split; [reflexivity|]. split; vm_compute; reflexivity.
Qed.

(** Under [Seq.__eq__], which pads both sides with zeros to the longer
    length: [i(f(a)) == a] holds as soon as [a] is shorter than [std_l];
    [f(i(a)) == a] need not, because [f] goes on past the end of [a]. *)
Lemma i_f_eq (a : Seq Z) :
  Seq_len a < std_l ->
  exists r, Seq_i (Seq_f a std_l) = Ok r /\ Seq_eq r a = true.
Proof.
  intro Ha. exists (i_loop (Seq_f a std_l) (Seq_len (Seq_f a std_l))). split.
  - exact (Seq_i_ok (Seq_f a std_l) (Seq_f_head a std_l)).
  - rewrite Seq_f_len by (unfold std_l; lia). apply Seq_eq_true. intro k.
    destruct (Z.lt_ge_cases k 0) as [Hn|Hn]; [now rewrite !Seq_getitem_neg|].
    destruct (Z.lt_ge_cases k (std_l - 1)) as [Hk|Hk].
    + now apply i_f_window.
    + rewrite Seq_getitem_beyond by (rewrite i_loop_length; unfold std_l in *; lia).
      rewrite Seq_getitem_out by lia. reflexivity.
Qed.

Example f_i_not_eq :
  Seq_i (SeqZ [1; 2; 3]) = Ok (SeqZ [2; -1]) /\
  Seq_eq (Seq_f (SeqZ [2; -1]) std_l) (SeqZ [1; 2; 3]) = false.
Proof. split; reflexivity. Qed.

(** ** Signature convolution *)


Example Sig_mul_scenario :
  Sig_mul (SigZ [1; 1]) (SigZ [1; 1]) = SigZ [1; 2; 2; 1].
Proof. reflexivity. Qed.

(** ** Index assignment and the identity block *)

(** C10.  Assigning [s[k] = v] with [k < 0] or [k >= len(s)] returns
    without an error and leaves [s] as it is; the stored single zero has
    length [0], so assigning index [0] of [Seq([0])] does nothing, and
    [Block.identity(1)] stays the zero matrix [[[0]]]. *)
Theorem C10_setitem_out_of_range :
  (forall (s : Seq Z) (k v : Z),
     k < 0 \/ Seq_len s <= k ->
     Seq_setitem s k v = s /\
     forall i, Seq_getitem (Seq_setitem s k v) i = Seq_getitem s i) /\
  Seq_len (SeqZ [0]) = 0 /\
  (forall v : Z, Seq_setitem (SeqZ [0]) 0 v = SeqZ [0]) /\
  Block_identity 1 = Ok (mkBlock std_l 0 [SeqZ [0]]).
Proof.
  split; [|split; [|split]].
  - intros s k v H. rewrite Seq_setitem_out by exact H. now split.
  - reflexivity.
  - reflexivity.
  - reflexivity.
Qed.

(** [s[2] = 7] on [s = [1, 2]]. *)
Lemma C10_setitem_out_of_range_witness :
  Seq_setitem (SeqZ [1; 2]) 2 7 = SeqZ [1; 2].
Proof.
  assert (H : 2 < 0 \/ Seq_len (SeqZ [1; 2]) <= 2) by (right; cbn; lia).
  exact (proj1 (proj1 C10_setitem_out_of_range (SeqZ [1; 2]) 2 7 H)).
Defined.

Example Block_identity_2 :
  Block_identity 2 = Ok (mkBlock std_l 2 [SeqZ [1; 0]; SeqZ [0; 1]]).
Proof. reflexivity. Qed.

(** ** Antidiagonal summation *)

Example one_row_power : Block_power (SeqZ [1; 1]) 1 false = Ok one_row.
Proof. reflexivity. Qed.

(** The sum does not hold for every block: on a block with one row the
    sum for [n = 0] is [1], and the output coefficient stays [0]. *)
Lemma Block_f_not_always_sum :
  ~ (forall (M : Block Z) (a : Z) (g : Seq Z) (n : Z),
       0 <= n < Block_len M ->
       Seq_getitem (Block_f M a g) n =
       zsum (fun k => Seq_getitem (Block_getitem M (n - a * k)) k
                      * Seq_getitem (Seq_f g (Block_len M)) (n - a * k))
            (n + 1)).
Proof.
  intro H.
  assert (H0 : 0 <= 0 < Block_len one_row) by (cbn; lia).
  specialize (H one_row 1 (SeqZ [1]) 0 H0). vm_compute in H. discriminate H.
Qed.

(** What [Block.f] does store: for a block whose number of rows is not
    [1], [Block.f(a, g)] with [g_f = g.f(size)] gives at every
    [0 <= n < size] the sum over [k = 0..n] of
    [row[n - a*k][k] * g_f[n - a*k]]; with one row the output is [[0]];
    the plain antidiagonal sum of the power triangle of [[1, 1]] of size
    [5] is [Seq([1,1]).f(5) = [1,1,2,3,5]]. *)
Lemma Block_f_antidiagonal_sum :
  (forall (M : Block Z) (a : Z) (g : Seq Z) (n : Z),
     Block_len M <> 1 -> 0 <= n < Block_len M ->
     Seq_getitem (Block_f M a g) n =
     zsum (fun k => Seq_getitem (Block_getitem M (n - a * k)) k
                    * Seq_getitem (Seq_f g (Block_len M)) (n - a * k))
          (n + 1)) /\
  (forall (M : Block Z) (a : Z) (g : Seq Z),
     Block_len M = 1 -> Block_f M a g = SeqZ [0]) /\
  exists T : Block Z,
    Block_power (SeqZ [1; 1]) 5 false = Ok T /\
    Block_f T 1 (SeqZ [1]) = Seq_f (SeqZ [1; 1]) 5 /\
    Block_f T 1 (SeqZ [1]) = SeqZ [1; 1; 2; 3; 5].
Proof.
  split; [|split].
  - intros M a g n Hsz Hn. exact (Block_f_getitem M a g Hsz n Hn).
  - intros M a g H. exact (Block_f_one_row M a g H).
  - eexists. split; [reflexivity|]. split; reflexivity.
Qed.

(** The second coefficient for the two rows [[1]] and [[1, 1]]. *)
Lemma Block_f_antidiagonal_sum_two_rows :
  Seq_getitem (Block_f (mkBlock std_l 2 [SeqZ [1]; SeqZ [1; 1]]) 1 (SeqZ [1])) 1 =
  zsum (fun k => Seq_getitem
                   (Block_getitem (mkBlock std_l 2 [SeqZ [1]; SeqZ [1; 1]]) (1 - 1 * k)) k
                 * Seq_getitem (Seq_f (SeqZ [1]) 2) (1 - 1 * k))
       (1 + 1).
Proof.
  assert (H1 : Block_len (mkBlock std_l 2 [SeqZ [1]; SeqZ [1; 1]]) <> 1)
    by (cbn; lia).
  assert (H2 : 0 <= 1 < Block_len (mkBlock std_l 2 [SeqZ [1]; SeqZ [1; 1]]))
    by (cbn; lia).
  exact (proj1 Block_f_antidiagonal_sum _ 1 (SeqZ [1]) 1 H1 H2).
Defined.

(** C2 on the power triangle of [[1, 1]] of size [1], the one-row block
    [[[1]]]: the sum that [Block.f] computes for [n = 0] is
    [row[0][0] * g_f[0] = 1], and the assignment [out[0] = _sum] is lost,
    because [out] is [Seq([0])], of length [0], and [Seq.__setitem__] is
    guarded by the length; the output is [[0]].  So it is for every block
    of one row, whose sum for [n = 0] is its entry [(0, 0)]; for every
    other block each sum is stored. *)
Theorem C2_one_row_drops_sum :
  Block_power (SeqZ [1; 1]) 1 false = Ok one_row /\
  antidiagonal one_row 1 (SeqZ [1]) 0 = 1 /\
  Block_f one_row 1 (SeqZ [1]) = SeqZ [0] /\
  Seq_getitem (Block_f one_row 1 (SeqZ [1])) 0 = 0 /\
  (forall (M : Block Z) (a : Z) (g : Seq Z),
     Block_len M = 1 ->
     antidiagonal M a g 0 = Block_entry M 0 0 /\ Block_f M a g = SeqZ [0]) /\
  (forall (M : Block Z) (a : Z) (g : Seq Z) (n : Z),
     Block_len M <> 1 -> 0 <= n < Block_len M ->
     Seq_getitem (Block_f M a g) n = antidiagonal M a g n).
Proof.
  split; [reflexivity|]. split; [reflexivity|]. split; [reflexivity|].
  split; [reflexivity|]. split.
  - intros M a g H. split; [|exact (Block_f_one_row M a g H)].
    unfold antidiagonal. rewrite (zsum_succ _ 0), zsum_nil by lia.
    replace (0 - a * 0) with 0 by lia.
    rewrite (Seq_f_head g (Block_len M)). unfold Block_entry.
    change (@py_add Z PyNum_Z) with Z.add. change (@py_mul Z PyNum_Z) with Z.mul.
    change (@zero Z PyNum_Z) with 0. change (@one Z PyNum_Z) with 1. lia.
  - intros M a g n Hsz Hn. exact (Block_f_getitem M a g Hsz n Hn).
Qed.

(** ** Block powers *)

Example two_I_init : Block_init [SeqZ [2; 0]; SeqZ [0; 2]] std_l = Ok two_I.
Proof. reflexivity. Qed.

(** C7 at [M = 2 I] and [n = 1]: the loop of [Block.__pow__] starts from a
    copy of [M] and multiplies [n] times, so [M ** 1] is [M * M], whose
    corner is [4], not [M], whose corner is [2].  [M ** 0] is
    [Block.identity(len(M))]. *)
Theorem C7_pow_one_is_square :
  (exists P : Block Z,
     Block_pow two_I 1 = Ok P /\
     Block_mul two_I two_I = Ok P /\
     Seq_getitem (Block_getitem P 0) 0 = 4 /\
     Seq_getitem (Block_getitem two_I 0) 0 = 2) /\
  Block_pow two_I 0 = Block_identity 2.
Proof.
  split; [|reflexivity].
  eexists. split; [reflexivity|]. split; [reflexivity|]. split; reflexivity.
Qed.

(** For every block, [M ** 1] is the product of the copy of [M] with [M],
    and each further unit of the exponent is one more product with [M]:
    [M ** n] has [n + 1] factors. *)
Lemma Block_pow_one (M : Block Z) :
  Block_pow M 1 = (out <- Block_init (Block_val M) std_l ;; Block_mul out M).
Proof.
  unfold Block_pow. cbn [Z.eqb]. change (range 0 1) with [0].
  destruct (Block_init (Block_val M) std_l) as [out|e]; [|reflexivity].
  cbn [bind foldM]. now destruct (Block_mul out M).
Qed.

Lemma foldM_app {A S : Type} (body : S -> A -> result S) (l1 l2 : list A) (s : S) :
  foldM body (l1 ++ l2) s = (s' <- foldM body l1 s ;; foldM body l2 s').
Proof.
  revert s. induction l1 as [|a t IH]; intro s; [reflexivity|].
  cbn [app foldM]. destruct (body s a) as [s'|e]; [|reflexivity].
  cbn [bind]. apply IH.
Qed.

Lemma Block_pow_succ (M : Block Z) (n : Z) :
  1 <= n -> Block_pow M (n + 1) = (P <- Block_pow M n ;; Block_mul P M).
Proof.
  intro H. unfold Block_pow.
  destruct (Z.eqb_spec (n + 1) 0) as [E|_]; [lia|].
  destruct (Z.eqb_spec n 0) as [E|_]; [lia|].
  destruct (Block_init (Block_val M) std_l) as [out|e]; [|reflexivity].
  cbn [bind]. rewrite range_snoc, foldM_app by lia.
  destruct (foldM _ (range 0 n) out) as [P|e]; [|reflexivity].
  cbn [bind foldM]. now destruct (Block_mul P M).
Qed.

(** [M ** 0] is the identity block of as many rows as [M]. *)
Lemma Block_pow_zero (M : Block Z) : Block_pow M 0 = Block_identity (Block_len M).
Proof. reflexivity. Qed.

(** [Seq.__pow__] and [Sig.__pow__] start from [1]: their first power is
    the operand. *)
Example Seq_pow_one : Seq_pow (SeqZ [2; 3]) 1 = SeqZ [2; 3].
Proof. reflexivity. Qed.

Example Sig_pow_one : Sig_pow (SigZ [2; 3]) 1 = SigZ [2; 3].
Proof. reflexivity. Qed.

(** ** Divisions *)

(** C4 at [A = B = Sig([1, 1])]: the divisor begins with [1], the first
    round divides [1 / 1], and the second round divides by [bp[1]], which
    [bp *= x * a] has set to zero because [x] is the loop index [0]:
    [A / B] raises [ZeroDivisionError] and there is no quotient to
    multiply back. *)
Theorem C4_truediv_second_round :
  is_zero (Sig_getitem (SigP [1; 1]) 0) = false /\
  Sig_truediv (SigP [1; 1]) (SigP [1; 1]) = Raise ZeroDivisionError.
Proof. split; reflexivity. Qed.


(** C8 at [Sig([0]) / Sig([0])]: the divisor begins with zero, both
    operands have length [0], the loop of [Sig.__truediv__] does not run,
    and the error is the [IndexError] of [out[-1]] on the empty list, not
    the error of a division. *)
Theorem C8_truediv_of_zeros :
  is_zero (Sig_getitem (SigP [0]) 0) = true /\
  Sig_truediv (SigP [0]) (SigP [0]) = Raise IndexError.
Proof. split; reflexivity. Qed.

(** Where a division is reached, a divisor that begins with zero raises
    the error of the division, in all three operators and for all
    operands: the first division of each operator is by that
    coefficient. *)
Lemma zero_divisor_raises (a b : Seq pynum) :
  is_zero (Seq_getitem b 0) = true ->
  Seq_truediv a b = Raise ZeroDivisionError /\
  Sig_floordiv (mkSig a) (mkSig b) = Raise ZeroDivisionError /\
  (1 <= Z.max (Seq_len a) (Seq_len b) ->
   Sig_truediv (mkSig a) (mkSig b) = Raise ZeroDivisionError).
Proof.
  intro H. split; [|split].
  - now apply Seq_truediv_zero_divisor.
  - now apply Sig_floordiv_zero_divisor.
  - intro Hl. now apply Sig_truediv_zero_divisor.
Qed.

(** * The rest of the code *)

(** ** Sums again *)

Section Series.

Context {N : Type} {PN : PyNum N} {PE : PyNumExact N}.

Add Ring num_ring_series : exact_ring.

Lemma zsum_add (F G : Z -> N) (n : Z) :
  zsum (fun k => F k +! G k) n = zsum F n +! zsum G n.
Proof.
  destruct (Z.le_gt_cases n 0) as [Hn|Hn].
  - rewrite !zsum_nil by lia. ring.
  - pattern n. apply range_bound_ind with (lo := 0); [| |lia].
    + rewrite !zsum_nil by lia. ring.
    + intros hi Hhi IH. rewrite !zsum_succ, IH by lia. ring.
Qed.

Lemma zsum_sub (F G : Z -> N) (n : Z) :
  zsum (fun k => F k -! G k) n = zsum F n -! zsum G n.
Proof.
  destruct (Z.le_gt_cases n 0) as [Hn|Hn].
  - rewrite !zsum_nil by lia. ring.
  - pattern n. apply range_bound_ind with (lo := 0); [| |lia].
    + rewrite !zsum_nil by lia. ring.
    + intros hi Hhi IH. rewrite !zsum_succ, IH by lia. ring.
Qed.

Lemma zsum_scale_l (c : N) (F : Z -> N) (n : Z) :
  zsum (fun k => c *! F k) n = c *! zsum F n.
Proof.
  destruct (Z.le_gt_cases n 0) as [Hn|Hn].
  - rewrite !zsum_nil by lia. ring.
  - pattern n. apply range_bound_ind with (lo := 0); [| |lia].
    + rewrite !zsum_nil by lia. ring.
    + intros hi Hhi IH. rewrite !zsum_succ, IH by lia. ring.
Qed.

Lemma zsum_scale_r (c : N) (F : Z -> N) (n : Z) :
  zsum (fun k => F k *! c) n = zsum F n *! c.
Proof.
  rewrite (zsum_ext _ (fun k => c *! F k)) by (intros; ring).
  rewrite zsum_scale_l. ring.
Qed.

Lemma zsum_head (F : Z -> N) (n : Z) :
  0 <= n -> zsum F (n + 1) = F 0 +! zsum (fun k => F (k + 1)) n.
Proof.
  intro Hn. pattern n. apply range_bound_ind with (lo := 0); [| |lia].
  - rewrite zsum_succ, !zsum_nil by lia. ring.
  - intros hi Hhi IH. rewrite zsum_succ, IH, zsum_succ by lia. ring.
Qed.

(** The same terms from the last to the first. *)
Lemma zsum_rev (F : Z -> N) (n : Z) :
  zsum F n = zsum (fun k => F (n - 1 - k)) n.
Proof.
  destruct (Z.le_gt_cases n 0) as [Hn|Hn].
  - now rewrite !zsum_nil by lia.
  - revert F. pattern n. apply range_bound_ind with (lo := 0); [| |lia].
    + intro F. now rewrite !zsum_nil by lia.
    + intros hi Hhi IH F. rewrite zsum_head by lia. rewrite zsum_succ by lia.
      rewrite (IH (fun k => F (k + 1))).
      replace (hi + 1 - 1 - hi) with 0 by lia.
      rewrite (zsum_ext (fun k => F (hi - 1 - k + 1)) (fun k => F (hi + 1 - 1 - k)))
        by (intros; f_equal; lia).
      ring.
Qed.

(** A sum over a triangle, by rows and by columns. *)
Lemma zsum_triangle (G : Z -> Z -> N) (m : Z) :
  0 <= m ->
  zsum (fun k => zsum (fun j => G k j) (k + 1)) m =
  zsum (fun j => zsum (fun i => G (i + j) j) (m - j)) m.
Proof.
  intro Hm. pattern m. apply range_bound_ind with (lo := 0); [| |lia].
  - now rewrite !zsum_nil by lia.
  - intros hi Hhi IH. rewrite !zsum_succ by lia. rewrite IH.
    replace (hi + 1 - hi) with (0 + 1) by lia. rewrite (zsum_succ _ 0) by lia.
    rewrite (zsum_nil _ 0) by lia.
    rewrite (zsum_ext (fun j => zsum (fun i => G (i + j) j) (hi + 1 - j))
                      (fun j => zsum (fun i => G (i + j) j) (hi - j) +! G hi j)).
    + rewrite zsum_add. replace (0 + hi) with hi by lia.
      change (zsum (fun j => G hi j) hi) with (zsum (G hi) hi). ring.
    + intros j Hj. replace (hi + 1 - j) with (hi - j + 1) by lia.
      rewrite zsum_succ by lia. do 2 f_equal. lia.
Qed.

(** ** The algebra of the Cauchy product *)

Lemma conv_neg (F G : Z -> N) (n : Z) : n < 0 -> conv F G n = zero.
Proof. intro H. unfold conv. now rewrite zsum_nil by lia. Qed.

Lemma conv_ext (F F' G G' : Z -> N) (n : Z) :
  (forall k, 0 <= k <= n -> F k = F' k) ->
  (forall k, 0 <= k <= n -> G k = G' k) ->
  conv F G n = conv F' G' n.
Proof.
  intros HF HG. unfold conv. apply zsum_ext. intros k Hk.
  rewrite HF, HG by lia. reflexivity.
Qed.

Lemma conv_comm (F G : Z -> N) (n : Z) : conv F G n = conv G F n.
Proof.
  unfold conv. rewrite zsum_rev. apply zsum_ext. intros k Hk.
  replace (n + 1 - 1 - k) with (n - k) by lia.
  replace (n - (n - k)) with k by lia. ring.
Qed.

Lemma conv_add_l (F G H : Z -> N) (n : Z) :
  conv (fun k => F k +! G k) H n = conv F H n +! conv G H n.
Proof.
  unfold conv. rewrite <- zsum_add. apply zsum_ext. intros. ring.
Qed.

Lemma conv_sub_l (F G H : Z -> N) (n : Z) :
  conv (fun k => F k -! G k) H n = conv F H n -! conv G H n.
Proof.
  unfold conv. rewrite <- zsum_sub. apply zsum_ext. intros. ring.
Qed.

Lemma conv_add_r (F G H : Z -> N) (n : Z) :
  conv F (fun k => G k +! H k) n = conv F G n +! conv F H n.
Proof.
  unfold conv. rewrite <- zsum_add. apply zsum_ext. intros. ring.
Qed.

Lemma conv_sub_r (F G H : Z -> N) (n : Z) :
  conv F (fun k => G k -! H k) n = conv F G n -! conv F H n.
Proof.
  unfold conv. rewrite <- zsum_sub. apply zsum_ext. intros. ring.
Qed.

Lemma conv_assoc (F G H : Z -> N) (n : Z) :
  conv (conv F G) H n = conv F (conv G H) n.
Proof.
  destruct (Z.lt_ge_cases n 0) as [Hn|Hn]; [now rewrite !conv_neg by lia|].
  unfold conv at 1.
  rewrite (zsum_ext _ (fun k => zsum (fun j => F j *! G (k - j) *! H (n - k)) (k + 1)))
    by (intros k Hk; unfold conv; now rewrite zsum_scale_r).
  rewrite (zsum_triangle (fun k j => F j *! G (k - j) *! H (n - k))) by lia.
  unfold conv at 1. apply zsum_ext. intros j Hj.
  unfold conv. rewrite <- zsum_scale_l.
  replace (n + 1 - j) with (n - j + 1) by lia.
  apply zsum_ext. intros i Hi.
  replace (i + j - j) with i by lia. replace (n - (i + j)) with (n - j - i) by lia.
  ring.
Qed.

Lemma conv_delta_l (F : Z -> N) (n : Z) : 0 <= n -> conv delta F n = F n.
Proof.
  intro Hn. unfold conv. rewrite (zsum_single _ (n + 1) 0).
  - unfold delta. cbn. rewrite Z.sub_0_r. ring.
  - lia.
  - intros k Hk Hk0. unfold delta. destruct (Z.eqb_spec k 0); [lia | ring].
Qed.

Lemma conv_delta_r (F : Z -> N) (n : Z) : 0 <= n -> conv F delta n = F n.
Proof. intro Hn. rewrite conv_comm. now apply conv_delta_l. Qed.

(** Shifting a factor by one index shifts the product. *)
Lemma conv_shift_l (F G : Z -> N) (n : Z) :
  F (-1) = zero -> conv (fun k => F (k - 1)) G n = conv F G (n - 1).
Proof.
  intro HF. destruct (Z.lt_ge_cases n 0) as [Hn|Hn]; [now rewrite !conv_neg by lia|].
  unfold conv. rewrite zsum_head by lia. replace (0 - 1) with (-1) by lia.
  rewrite HF. replace (n - 1 + 1) with n by lia.
  rewrite (zsum_ext (fun k => F (k + 1 - 1) *! G (n - (k + 1)))
                    (fun k => F k *! G (n - 1 - k)))
    by (intros; f_equal; f_equal; lia).
  ring.
Qed.

Lemma conv_shift_r (F G : Z -> N) (n : Z) :
  G (-1) = zero -> conv F (fun k => G (k - 1)) n = conv F G (n - 1).
Proof.
  intro HG. rewrite conv_comm, conv_shift_l by exact HG. apply conv_comm.
Qed.

End Series.

(** ** The ring of sequences *)

Section SeqRing.

Context {N : Type} {PN : PyNum N} {PE : PyNumExact N}.

Add Ring num_ring_seq : exact_ring.

Lemma Seq_getitem_mul_conv (a b : Seq N) (n : Z) :
  Seq_getitem (Seq_mul a b) n = conv (Seq_getitem a) (Seq_getitem b) n.
Proof. apply Seq_getitem_mul. Qed.

Lemma Seq_getitem_opp (a : Seq N) (n : Z) :
  Seq_getitem (Seq_neg a) n = py_neg (Seq_getitem a n).
Proof.
  unfold Seq_neg. rewrite Seq_init_exact.
  destruct (Z.lt_ge_cases n 0) as [Hn|Hn].
  - rewrite !Seq_getitem_neg by lia. ring.
  - rewrite !Seq_getitem_nth by lia. cbn [Seq_val].
    replace (zero : N) with (py_neg zero) at 1 by ring. apply map_nth.
Qed.

Lemma Seq_getitem_sub (a b : Seq N) (n : Z) :
  Seq_getitem (Seq_sub a b) n = Seq_getitem a n -! Seq_getitem b n.
Proof. unfold Seq_sub. rewrite Seq_getitem_add, Seq_getitem_opp. ring. Qed.

Lemma Seq_add_comm (a b : Seq N) : Seq_add a b = Seq_add b a.
Proof.
  unfold Seq_add. cbv zeta. rewrite (Z.max_comm (Seq_len b)).
  f_equal. apply map_ext. intro k. ring.
Qed.

Lemma Seq_mul_comm (a b : Seq N) : Seq_mul a b = Seq_mul b a.
Proof.
  unfold Seq_mul. cbv zeta.
  replace (Seq_len b + Seq_len a - 1) with (Seq_len a + Seq_len b - 1) by lia.
  f_equal. apply map_ext. intro n.
  exact (conv_comm (Seq_getitem a) (Seq_getitem b) n).
Qed.

Lemma Seq_add_assoc_eq (a b c : Seq N) :
  Seq_eq (Seq_add (Seq_add a b) c) (Seq_add a (Seq_add b c)) = true.
Proof. apply Seq_eq_true. intro k. rewrite !Seq_getitem_add. ring. Qed.

Lemma Seq_mul_assoc_eq (a b c : Seq N) :
  Seq_eq (Seq_mul (Seq_mul a b) c) (Seq_mul a (Seq_mul b c)) = true.
Proof.
  apply Seq_eq_true. intro n. rewrite !Seq_getitem_mul_conv.
  rewrite (conv_ext (Seq_getitem (Seq_mul a b)) (conv (Seq_getitem a) (Seq_getitem b))
                    (Seq_getitem c) (Seq_getitem c) n)
    by (intros; try apply Seq_getitem_mul_conv; reflexivity).
  rewrite conv_assoc. apply conv_ext; [reflexivity|].
  intros k Hk. symmetry. apply Seq_getitem_mul_conv.
Qed.

Lemma Seq_mul_add_distr_eq (a b c : Seq N) :
  Seq_eq (Seq_mul a (Seq_add b c)) (Seq_add (Seq_mul a b) (Seq_mul a c)) = true.
Proof.
  apply Seq_eq_true. intro n. rewrite Seq_getitem_add, !Seq_getitem_mul_conv.
  rewrite <- conv_add_r. apply conv_ext; [reflexivity|].
  intros k Hk. apply Seq_getitem_add.
Qed.

Lemma Seq_mul_one_eq (a : Seq N) :
  Seq_eq (Seq_mul a (Seq_of_num one)) a = true /\
  Seq_eq (Seq_mul (Seq_of_num one) a) a = true.
Proof.
  rewrite Seq_of_num_exact. split; apply Seq_eq_true; intro n.
  - rewrite Seq_getitem_mul_single_r. ring.
  - rewrite Seq_getitem_mul_single_l. ring.
Qed.

Lemma Seq_mul_zero_eq (a z : Seq N) (n : Z) :
  Seq_len z = 0 -> Seq_getitem (Seq_mul a z) n = zero.
Proof.
  intro Hz. rewrite Seq_getitem_mul. apply zsum_zero. intros k Hk.
  pose proof (Seq_len_bounds z).
  destruct (Z.lt_ge_cases (n - k) 0).
  - rewrite (Seq_getitem_neg z) by lia. ring.
  - rewrite (Seq_getitem_out z) by lia. ring.
Qed.

End SeqRing.

(** ** Trimming, subtraction, containment, slices and powers *)

Section SeqMore.

Context {N : Type} {PN : PyNum N} {PE : PyNumExact N}.

Add Ring num_ring_more : exact_ring.

(** The loop of [trim] cuts a block of zeros off the end. *)
Lemma trim_loop_rev_split (r : list N) :
  exists zs rest,
    r = zs ++ rest /\ Forall (fun v => v = zero) zs /\
    trim_loop_rev r = rev rest /\
    (rest = [] \/ exists v t, rest = v :: t /\ v <> zero).
Proof.
  induction r as [|v t IH].
  - exists [], []. repeat split; auto.
  - cbn [trim_loop_rev]. destruct (is_zero v) eqn:E.
    + apply is_zero_iff in E. destruct IH as (zs & rest & -> & Hz & Ht & Hr).
      exists (v :: zs), rest. repeat split; auto.
    + exists [], (v :: t). repeat split; auto. right. exists v, t. split; auto.
      intro Hv. apply is_zero_iff in Hv. congruence.
Qed.

Lemma nth_zeros (zs : list N) (k : nat) :
  Forall (fun v => v = zero) zs -> nth k zs zero = zero.
Proof.
  intro H. revert k. induction H as [|v t Hv Ht IH]; intros [|k]; cbn; auto.
Qed.

Lemma Seq_trim_spec (s : Seq N) :
  Seq_val s <> [] ->
  exists t, Seq_trim s = Ok t /\
    (forall k, Seq_getitem t k = Seq_getitem s k) /\
    (length (Seq_val t) <= length (Seq_val s))%nat /\
    (Seq_val t = [] \/ last (Seq_val t) zero <> zero).
Proof.
  intro Hs. unfold Seq_trim. destruct (Seq_val s) as [|h l] eqn:Ev; [congruence|].
  rewrite <- Ev. clear Hs.
  destruct (trim_loop_rev_split (rev (Seq_val s))) as (zs & rest & Hr & Hz & Ht & Hn).
  eexists. split; [reflexivity|]. rewrite Ht, Seq_init_exact. cbn [Seq_val].
  assert (Hv : Seq_val s = rev rest ++ rev zs).
  { rewrite <- rev_app_distr, <- Hr. now rewrite rev_involutive. }
  split; [|split].
  - intro k. destruct (Z.lt_ge_cases k 0) as [Hk|Hk]; [now rewrite !Seq_getitem_neg|].
    rewrite !Seq_getitem_nth by lia. cbn [Seq_val]. rewrite Hv.
    destruct (Nat.lt_ge_cases (Z.to_nat k) (length (rev rest))) as [Hl|Hl].
    + now rewrite app_nth1.
    + rewrite app_nth2, nth_overflow by lia. symmetry. apply nth_zeros.
      apply Forall_rev. exact Hz.
  - rewrite Hv, length_app. lia.
  - destruct Hn as [->|(v & t & -> & Hv')]; [now left|right].
    cbn [rev]. now rewrite last_last.
Qed.

Lemma Seq_trim_empty (s : Seq N) : Seq_val s = [] -> Seq_trim s = Raise IndexError.
Proof. intro H. unfold Seq_trim. now rewrite H. Qed.

Lemma trim_loop_rev_zeros (r : list N) :
  Forall (fun v => v = zero) r -> trim_loop_rev r = [].
Proof.
  induction 1 as [|v t Hv Ht IH]; [reflexivity|].
  cbn [trim_loop_rev]. replace (is_zero v) with true; [exact IH|].
  symmetry. now apply is_zero_iff.
Qed.

Lemma is_zero_opp (v : N) : is_zero (py_neg v) = is_zero v.
Proof.
  destruct (is_zero v) eqn:E.
  - apply is_zero_iff in E. apply is_zero_iff. subst. ring.
  - apply not_true_is_false. intro E'. apply is_zero_iff in E'.
    assert (v = zero) by (replace v with (py_neg (py_neg v)) by ring; rewrite E'; ring).
    apply is_zero_iff in H. congruence.
Qed.

Lemma Seq_len_opp (a : Seq N) : Seq_len (Seq_neg a) = Seq_len a.
Proof.
  unfold Seq_neg. rewrite Seq_init_exact. unfold Seq_len. cbn [Seq_val].
  rewrite length_map.
  replace (zero : N) with (py_neg zero) at 1 by ring. rewrite map_nth.
  now rewrite is_zero_opp.
Qed.

(** [a - a] stores [len(a)] zeros. *)
Lemma Seq_sub_self_val (a : Seq N) :
  Seq_val (Seq_sub a a) = map (fun _ => zero) (range 0 (Seq_len a)).
Proof.
  unfold Seq_sub, Seq_add. cbv zeta. rewrite Seq_len_opp, Z.max_id, Seq_init_exact.
  cbn [Seq_val]. apply map_ext. intro k. rewrite Seq_getitem_opp. ring.
Qed.

Lemma Seq_sub_self_trim (a : Seq N) :
  (Seq_len a <= 0 -> Seq_trim (Seq_sub a a) = Raise IndexError) /\
  (1 <= Seq_len a -> Seq_trim (Seq_sub a a) = Ok (mkSeq [])) /\
  (forall k, Seq_getitem (Seq_sub a a) k = zero).
Proof.
  split; [|split].
  - intro H. apply Seq_trim_empty. rewrite Seq_sub_self_val. now rewrite range_nil.
  - intro H. unfold Seq_trim. rewrite Seq_sub_self_val.
    rewrite (range_cons 0) by lia. cbn [map].
    rewrite trim_loop_rev_zeros, Seq_init_exact; [reflexivity|].
    apply Forall_rev. constructor; [reflexivity|].
    apply Forall_forall. intros v Hv. apply in_map_iff in Hv. now destruct Hv as (? & <- & _).
  - intro k. rewrite Seq_getitem_sub. ring.
Qed.

(** [i in self] compares the coefficients below [len(i)]. *)
Lemma Seq_contains_true (s i : Seq N) :
  Seq_contains s i = true <->
  forall k, 0 <= k < Seq_len i -> Seq_getitem i k = Seq_getitem s k.
Proof.
  unfold Seq_contains. rewrite forallb_forall. split.
  - intros H k Hk. apply exact_eq, H, in_range. lia.
  - intros H k Hk. apply exact_eq, H. apply in_range in Hk. lia.
Qed.

(** *** Slices *)

Lemma range_step_one (lo hi : Z) : range_step lo hi 1 = range lo hi.
Proof.
  unfold range_step, range. cbn [Z.ltb Z.compare].
  replace ((hi - lo + 1 - 1) / 1) with (hi - lo) by (rewrite Z.div_1_r; lia).
  apply map_ext. intro k. lia.
Qed.

Lemma Seq_slice_stop (s : Seq N) (stop : Z) :
  stop <> 0 ->
  Seq_getitem_slice s None (Some stop) None = Seq_slice_to s stop.
Proof.
  intro H. unfold Seq_getitem_slice, Seq_slice_to.
  destruct (Z.eqb_spec stop 0) as [E|_]; [contradiction|].
  now rewrite range_step_one.
Qed.

Lemma Seq_slice_to_getitem (s : Seq N) (stop k : Z) :
  Seq_getitem (Seq_slice_to s stop) k =
  if (0 <=? k) && (k <? stop) then Seq_getitem s k else zero.
Proof.
  unfold Seq_slice_to.
  destruct (Z.leb_spec 0 k) as [H0|H0]; cbn [andb].
  - destruct (Z.ltb_spec k stop) as [H1|H1].
    + now rewrite Seq_getitem_map_range by lia.
    + now rewrite Seq_getitem_map_range_out by lia.
  - now rewrite Seq_getitem_neg by lia.
Qed.

Lemma Seq_slice_whole (s : Seq N) :
  Seq_getitem_slice s None (Some 0) None = Seq_getitem_slice s None None None /\
  Seq_eq (Seq_getitem_slice s None None None) s = true.
Proof.
  split; [reflexivity|]. apply Seq_eq_true. intro k.
  unfold Seq_getitem_slice. rewrite range_step_one.
  change (Seq_getitem (Seq_slice_to s (Seq_len s)) k = Seq_getitem s k).
  rewrite Seq_slice_to_getitem.
  destruct (Z.leb_spec 0 k) as [H0|H0]; cbn [andb].
  - destruct (Z.ltb_spec k (Seq_len s)) as [H1|H1]; [reflexivity|].
    now rewrite Seq_getitem_out.
  - now rewrite Seq_getitem_neg by lia.
Qed.

(** *** Powers *)

Lemma Seq_pow_base (a : Seq N) (n : Z) : n <= 0 -> Seq_pow a n = mkSeq [one].
Proof.
  intro H. unfold Seq_pow. rewrite range_nil by lia. cbn [fold_left].
  apply Seq_of_num_exact.
Qed.

Lemma Seq_pow_succ (a : Seq N) (n : Z) :
  0 <= n -> Seq_pow a (n + 1) = Seq_mul (Seq_pow a n) a.
Proof. intro H. unfold Seq_pow. now rewrite fold_range_snoc by lia. Qed.

Lemma Seq_pow_add_eq (a : Seq N) (m n : Z) :
  0 <= m -> 0 <= n ->
  Seq_eq (Seq_pow a (m + n)) (Seq_mul (Seq_pow a m) (Seq_pow a n)) = true.
Proof.
  intros Hm Hn. apply Seq_eq_true.
  pattern n. apply range_bound_ind with (lo := 0); [| |lia].
  - intro k. rewrite Z.add_0_r, (Seq_pow_base a 0) by lia.
    rewrite Seq_getitem_mul_single_r. ring.
  - intros hi Hhi IH k. replace (m + (hi + 1)) with (m + hi + 1) by lia.
    rewrite !Seq_pow_succ by lia.
    pose proof (proj1 (Seq_eq_true _ _) (Seq_mul_assoc_eq (Seq_pow a m) (Seq_pow a hi) a)) as A.
    rewrite <- A. rewrite !Seq_getitem_mul_conv. apply conv_ext; [|reflexivity].
    intros j Hj. apply IH.
Qed.

End SeqMore.

(** ** The signature function as a reciprocal, and signature addition *)

Section SigAlgebra.

Context {N : Type} {PN : PyNum N} {PE : PyNumExact N}.

Add Ring num_ring_sig : exact_ring.

Lemma f_coeff_eq (a : Seq N) (l n : Z) :
  0 <= n < l -> Seq_getitem (Seq_f a l) n = f_coeff a n.
Proof. intro H. unfold f_coeff. apply Seq_f_prefix; lia. Qed.

Lemma f_coeff_neg (a : Seq N) (n : Z) : n < 0 -> f_coeff a n = zero.
Proof. intro H. unfold f_coeff. now apply Seq_getitem_neg. Qed.

Lemma f_coeff_rec (a : Seq N) (n : Z) :
  f_coeff a n = delta n +! conv (Seq_getitem a) (f_coeff a) (n - 1).
Proof.
  destruct (Z.lt_ge_cases n 0) as [Hn|Hn].
  - rewrite f_coeff_neg, conv_neg by lia. unfold delta.
    destruct (Z.eqb_spec n 0); [lia | ring].
  - destruct (Z.eq_dec n 0) as [->|Hn0].
    + rewrite conv_neg by lia. unfold f_coeff, delta. cbn [Z.eqb Z.add].
      rewrite Seq_f_head. ring.
    + unfold delta. destruct (Z.eqb_spec n 0) as [E|_]; [lia|].
      unfold f_coeff at 1. rewrite Seq_f_conv by lia. unfold conv.
      replace (n - 1 + 1) with n by lia.
      rewrite (zsum_ext _ (fun k => Seq_getitem a k *! f_coeff a (n - 1 - k)))
        by (intros k Hk; f_equal; apply f_coeff_eq; lia).
      ring.
Qed.

(** [a.f()] is the reciprocal of [1 - x * a], coefficient by coefficient. *)
Lemma denom_f_coeff (a : Seq N) (n : Z) :
  conv (denom a) (f_coeff a) n = delta n.
Proof.
  destruct (Z.lt_ge_cases n 0) as [Hn|Hn].
  - rewrite conv_neg by lia. unfold delta. destruct (Z.eqb_spec n 0); [lia | reflexivity].
  - unfold denom. rewrite conv_sub_l, conv_delta_l by lia.
    rewrite (conv_shift_l (Seq_getitem a)) by (apply Seq_getitem_neg; lia).
    rewrite (f_coeff_rec a n). ring.
Qed.

(** The reciprocal is unique. *)
Lemma f_coeff_unique (s : Seq N) (U : Z -> N) :
  (forall n, n < 0 -> U n = zero) ->
  (forall n, 0 <= n -> conv (denom s) U n = delta n) ->
  forall n, U n = f_coeff s n.
Proof.
  intros Hneg HU.
  assert (G : forall m : nat, forall n, n < Z.of_nat m -> U n = f_coeff s n).
  { induction m as [|m IH]; intros n Hn.
    - rewrite Hneg, f_coeff_neg by lia. reflexivity.
    - destruct (Z.lt_ge_cases n 0) as [Hn0|Hn0].
      + rewrite Hneg, f_coeff_neg by lia. reflexivity.
      + pose proof (HU n Hn0) as E. unfold denom in E.
        rewrite conv_sub_l, conv_delta_l in E by lia.
        rewrite (conv_shift_l (Seq_getitem s)) in E by (apply Seq_getitem_neg; lia).
        rewrite (conv_ext (Seq_getitem s) (Seq_getitem s) U (f_coeff s) (n - 1)) in E
          by (intros; try apply IH; try reflexivity; lia).
        rewrite (f_coeff_rec s n). rewrite <- E. ring. }
  intro n. apply (G (Z.to_nat (n + 1))). lia.
Qed.

Lemma x_mul_getitem (a : Seq N) (k : Z) :
  Seq_getitem (Seq_mul x a) k = Seq_getitem a (k - 1).
Proof.
  rewrite Seq_getitem_mul_conv.
  rewrite (conv_ext (Seq_getitem x) (fun j => delta (j - 1)) (Seq_getitem a) (Seq_getitem a))
    by (intros; try reflexivity; rewrite x_getitem; unfold delta;
        destruct (Z.eqb_spec k0 1), (Z.eqb_spec (k0 - 1) 0); try lia; reflexivity).
  rewrite (conv_shift_l delta) by reflexivity.
  destruct (Z.lt_ge_cases (k - 1) 0) as [Hk|Hk].
  - rewrite conv_neg, Seq_getitem_neg by lia. reflexivity.
  - now apply conv_delta_l.
Qed.

(** [Seq.f], multiplied by [Seq([1]) - x * a], is [1] followed by zeros
    as far as [l] goes. *)
Lemma Seq_f_reciprocal (a : Seq N) (l n : Z) :
  0 <= n < l ->
  Seq_getitem (Seq_mul (Seq_f a l) (Seq_sub (Seq_init [one]) (Seq_mul x a))) n = delta n.
Proof.
  intro H. rewrite Seq_getitem_mul_conv, conv_comm.
  rewrite (conv_ext _ (denom a) _ (f_coeff a)).
  - apply denom_f_coeff.
  - intros k Hk. rewrite Seq_getitem_sub, x_mul_getitem, Seq_init_exact, Seq_getitem_single.
    reflexivity.
  - intros k Hk. apply f_coeff_eq. lia.
Qed.

(** *** Signature addition *)

Lemma Sig_add_getitem (A B : Sig N) (n : Z) :
  Sig_getitem (Sig_add A B) n =
  Sig_getitem A n +! Sig_getitem B n
  -! conv (Sig_getitem A) (Sig_getitem B) (n - 1).
Proof.
  unfold Sig_add, Sig_getitem. cbn [Sig_val].
  rewrite Seq_getitem_sub, Seq_getitem_add, Seq_getitem_mul_conv.
  rewrite (conv_ext _ (fun k => Seq_getitem (Sig_val A) (k - 1)) _ (Seq_getitem (Sig_val B)))
    by (intros; try apply x_mul_getitem; reflexivity).
  rewrite (conv_shift_l (Seq_getitem (Sig_val A))) by (apply Seq_getitem_neg; lia).
  reflexivity.
Qed.

(** [1 - x * (A + B)] is the product of [1 - x * A] and [1 - x * B]. *)
Lemma denom_Sig_add (A B : Sig N) (n : Z) :
  denom (Sig_val (Sig_add A B)) n = conv (denom (Sig_val A)) (denom (Sig_val B)) n.
Proof.
  destruct (Z.lt_ge_cases n 0) as [Hn|Hn].
  - rewrite conv_neg by lia. unfold denom, delta.
    destruct (Z.eqb_spec n 0); [lia|]. rewrite Seq_getitem_neg by lia. ring.
  - unfold denom at 2 3.
    rewrite conv_sub_l, !conv_sub_r, !conv_delta_l, conv_delta_r by lia.
    rewrite (conv_shift_l (Seq_getitem (Sig_val A))) by (apply Seq_getitem_neg; lia).
    rewrite (conv_shift_r (Seq_getitem (Sig_val A)) (Seq_getitem (Sig_val B)))
      by (apply Seq_getitem_neg; lia).
    unfold denom. fold (Sig_getitem (Sig_add A B) (n - 1)). rewrite Sig_add_getitem.
    change (Sig_getitem A) with (Seq_getitem (Sig_val A)).
    change (Sig_getitem B) with (Seq_getitem (Sig_val B)).
    ring.
Qed.

Lemma Sig_add_comm_eq (A B : Sig N) : Sig_eq (Sig_add A B) (Sig_add B A) = true.
Proof.
  apply Seq_eq_true. intro k.
  change (Sig_getitem (Sig_add A B) k = Sig_getitem (Sig_add B A) k).
  rewrite !Sig_add_getitem, (conv_comm (Sig_getitem A)). ring.
Qed.

Lemma denom_inj (a b : Seq N) :
  (forall n, denom a n = denom b n) -> forall k, Seq_getitem a k = Seq_getitem b k.
Proof.
  intros H k. specialize (H (k + 1)). unfold denom in H.
  replace (k + 1 - 1) with k in H by lia.
  replace (Seq_getitem a k) with (delta (k + 1) -! (delta (k + 1) -! Seq_getitem a k)) by ring.
  rewrite H. ring.
Qed.

Lemma Sig_add_assoc_eq (A B C : Sig N) :
  Sig_eq (Sig_add (Sig_add A B) C) (Sig_add A (Sig_add B C)) = true.
Proof.
  apply Seq_eq_true. apply denom_inj. intro n.
  rewrite !denom_Sig_add.
  rewrite (conv_ext _ (conv (denom (Sig_val A)) (denom (Sig_val B))) _ (denom (Sig_val C)))
    by (intros; try apply denom_Sig_add; reflexivity).
  rewrite conv_assoc. apply conv_ext; [reflexivity|].
  intros k Hk. symmetry. apply denom_Sig_add.
Qed.

Lemma Sig_add_zero_eq (A O : Sig N) :
  Sig_len O = 0 -> Sig_eq (Sig_add A O) A = true /\ Sig_eq (Sig_add O A) A = true.
Proof.
  intro HO.
  assert (HO' : forall k, Sig_getitem O k = zero).
  { intro k. unfold Sig_getitem. destruct (Z.lt_ge_cases k 0).
    - now apply Seq_getitem_neg.
    - apply Seq_getitem_out. unfold Sig_len in HO. lia. }
  split; apply Seq_eq_true; intro k;
    [change (Sig_getitem (Sig_add A O) k = Sig_getitem A k)
    |change (Sig_getitem (Sig_add O A) k = Sig_getitem A k)];
    rewrite Sig_add_getitem, HO'.
  - rewrite (conv_comm (Sig_getitem A)).
    unfold conv. rewrite zsum_zero by (intros; rewrite HO'; ring). ring.
  - unfold conv. rewrite zsum_zero by (intros; rewrite HO'; ring). ring.
Qed.

(** The signature function takes signature addition to the Cauchy
    product. *)
Lemma f_coeff_Sig_add (A B : Sig N) (n : Z) :
  f_coeff (Sig_val (Sig_add A B)) n =
  conv (f_coeff (Sig_val A)) (f_coeff (Sig_val B)) n.
Proof.
  symmetry. revert n. apply f_coeff_unique.
  - intros n Hn. now apply conv_neg.
  - intros n Hn.
    rewrite (conv_ext _ (conv (denom (Sig_val A)) (denom (Sig_val B)))
                      _ (conv (f_coeff (Sig_val A)) (f_coeff (Sig_val B))))
      by (intros; try apply denom_Sig_add; reflexivity).
    rewrite conv_assoc.
    rewrite (conv_ext (denom (Sig_val A)) (denom (Sig_val A)) _
                      (conv (f_coeff (Sig_val A)) (delta))).
    + rewrite <- conv_assoc.
      rewrite (conv_ext _ delta delta delta)
        by (intros; try apply denom_f_coeff; reflexivity).
      now apply conv_delta_l.
    + reflexivity.
    + intros k Hk. rewrite <- conv_assoc.
      rewrite (conv_ext _ (conv (f_coeff (Sig_val A)) (denom (Sig_val B)))
                        _ (f_coeff (Sig_val B)))
        by (intros; try apply conv_comm; reflexivity).
      rewrite conv_assoc. apply conv_ext; [reflexivity|].
      intros j Hj. apply denom_f_coeff.
Qed.

End SigAlgebra.

(** ** Signature subtraction *)

Section SigSub.

Context {N : Type} {PN : PyNum N} {PE : PyNumExact N}.

Add Ring num_ring_sigsub : exact_ring.

Lemma Sig_sub_getitem (A B : Sig N) (n : Z) :
  Sig_getitem (Sig_sub A B) n =
  conv (fun k => Sig_getitem A k -! Sig_getitem B k)
       (Seq_getitem (Seq_f (Sig_val B) std_l)) n.
Proof.
  unfold Sig_sub, Sig_getitem. cbn [Sig_val check_seq Sig_f].
  rewrite Seq_getitem_mul_conv. apply conv_ext; [|reflexivity].
  intros k Hk. apply Seq_getitem_sub.
Qed.

Lemma conv_denom_r (F : Z -> N) (b : Seq N) (n : Z) :
  0 <= n -> conv F (denom b) n = F n -! conv F (Seq_getitem b) (n - 1).
Proof.
  intro Hn. unfold denom. rewrite conv_sub_r, conv_delta_r by lia.
  rewrite (conv_shift_r F (Seq_getitem b)) by (apply Seq_getitem_neg; lia).
  reflexivity.
Qed.

Lemma f_coeff_denom (b : Seq N) (n : Z) :
  conv (f_coeff b) (denom b) n = delta n.
Proof. rewrite conv_comm. apply denom_f_coeff. Qed.

(** [(A + B) - B] gives back [A] below [std_l]. *)
Lemma Sig_add_sub (A B : Sig N) (n : Z) :
  0 <= n < std_l ->
  Sig_getitem (Sig_sub (Sig_add A B) B) n = Sig_getitem A n.
Proof.
  intro Hn. rewrite Sig_sub_getitem.
  rewrite (conv_ext _ (conv (Sig_getitem A) (denom (Sig_val B)))
                    _ (f_coeff (Sig_val B))).
  - rewrite conv_assoc.
    rewrite (conv_ext (Sig_getitem A) (Sig_getitem A) _ delta)
      by (intros; try apply denom_f_coeff; reflexivity).
    apply conv_delta_r. lia.
  - intros k Hk. rewrite conv_denom_r, Sig_add_getitem by lia.
    change (Sig_getitem B) with (Seq_getitem (Sig_val B)). ring.
  - intros k Hk. apply f_coeff_eq. lia.
Qed.

(** [(A - B) + B] gives back [A] below [std_l]. *)
Lemma Sig_sub_add (A B : Sig N) (n : Z) :
  0 <= n < std_l ->
  Sig_getitem (Sig_add (Sig_sub A B) B) n = Sig_getitem A n.
Proof.
  intro Hn. rewrite Sig_add_getitem.
  assert (E : Sig_getitem (Sig_sub A B) n
              -! conv (Sig_getitem (Sig_sub A B)) (Sig_getitem B) (n - 1)
              = Sig_getitem A n -! Sig_getitem B n).
  { change (conv (Sig_getitem (Sig_sub A B)) (Sig_getitem B) (n - 1))
      with (conv (Sig_getitem (Sig_sub A B)) (Seq_getitem (Sig_val B)) (n - 1)).
    rewrite <- conv_denom_r by lia.
    rewrite (conv_ext _ (conv (fun k => Sig_getitem A k -! Sig_getitem B k)
                              (f_coeff (Sig_val B)))
                      _ (denom (Sig_val B))).
    - rewrite conv_assoc.
      rewrite (conv_ext (fun k => Sig_getitem A k -! Sig_getitem B k)
                        (fun k => Sig_getitem A k -! Sig_getitem B k) _ delta)
        by (intros; try apply f_coeff_denom; reflexivity).
      exact (conv_delta_r (fun k => Sig_getitem A k -! Sig_getitem B k) n (proj1 Hn)).
    - intros k Hk. rewrite Sig_sub_getitem. apply conv_ext; [reflexivity|].
      intros j Hj. apply f_coeff_eq. lia.
    - reflexivity. }
  replace (Sig_getitem (Sig_sub A B) n +! Sig_getitem B n
           -! conv (Sig_getitem (Sig_sub A B)) (Sig_getitem B) (n - 1))
    with (Sig_getitem (Sig_sub A B) n
          -! conv (Sig_getitem (Sig_sub A B)) (Sig_getitem B) (n - 1)
          +! Sig_getitem B n) by ring.
  rewrite E. ring.
Qed.

Lemma Sig_sub_self (A : Sig N) (n : Z) : Sig_getitem (Sig_sub A A) n = zero.
Proof.
  rewrite Sig_sub_getitem. unfold conv. apply zsum_zero. intros k Hk. ring.
Qed.

End SigSub.

(** ** Blocks as grids of cells *)

Section Grids.

Context {N : Type} {PN : PyNum N} {PE : PyNumExact N}.

Add Ring num_ring_grid : exact_ring.

Lemma Seq_getitem_zero_seq (i : Z) : Seq_getitem (Seq_of_num (zero : N)) i = zero.
Proof.
  rewrite Seq_of_num_exact, Seq_getitem_single. now destruct (i =? 0).
Qed.

Lemma Block_entry_out (B : Block N) (i j : Z) :
  i < 0 \/ Block_len B <= i -> Block_entry B i j = zero.
Proof.
  intro H. unfold Block_entry, Block_getitem.
  destruct (Z.ltb_spec i (Block_len B)), (Z.leb_spec 0 i); cbn [andb];
    try apply Seq_getitem_zero_seq; lia.
Qed.

Lemma Block_getitem_in (B : Block N) (i : Z) :
  0 <= i < Block_len B ->
  Block_getitem B i = nth (Z.to_nat i) (Block_val B) (Seq_of_num zero).
Proof.
  intro H. unfold Block_getitem.
  destruct (Z.ltb_spec i (Block_len B)), (Z.leb_spec 0 i); cbn [andb];
    try reflexivity; lia.
Qed.

Lemma grid_row (B : Block N) (R W i : Z) :
  grid B R W -> 0 <= i < R ->
  Z.of_nat (length (Seq_val (Block_getitem B i))) = W.
Proof.
  intros [HR HW] Hi. rewrite Block_getitem_in by lia. apply HW, nth_In.
  unfold Block_len in HR. lia.
Qed.

Lemma Block_setcell_grid (B : Block N) (R W i j : Z) (v : N) :
  grid B R W -> grid (Block_setcell B i j v) R W.
Proof.
  intros G. pose proof G as [HR HW]. unfold Block_setcell.
  destruct ((i <? Block_len B) && (0 <=? i)) eqn:E; [|exact G].
  apply andb_prop in E as [E1 E2]. apply Z.ltb_lt in E1. apply Z.leb_le in E2.
  split.
  - unfold Block_len. cbn [Block_val]. rewrite list_set_length. exact HR.
  - cbn [Block_val]. intros r Hr.
    apply In_nth with (d := r) in Hr. destruct Hr as (n & Hn & <-).
    rewrite list_set_length in Hn.
    rewrite list_set_nth by (unfold Block_len in E1; lia).
    destruct (Nat.eqb n (Z.to_nat i)).
    + rewrite Seq_setitem_length. apply (grid_row B R W i G). lia.
    + apply HW, nth_In, Hn.
Qed.

(** On a grid of width at least [2] an assignment inside the grid sets
    its cell and no other; outside the grid it sets none. *)
Lemma Block_setcell_entry (B : Block N) (R W i j i' j' : Z) (v : N) :
  grid B R W -> 2 <= W ->
  Block_entry (Block_setcell B i j v) i' j' =
  if (i' =? i) && (j' =? j) && ((0 <=? i) && (i <? R)) && ((0 <=? j) && (j <? W))
  then v else Block_entry B i' j'.
Proof.
  intros G HW2. pose proof G as [HR HW].
  destruct (Z.leb_spec 0 i) as [Hi0|Hi0]; destruct (Z.ltb_spec i R) as [HiR|HiR];
    cbn [andb]; rewrite ?andb_false_r;
    try (unfold Block_setcell;
         destruct (Z.ltb_spec i (Block_len B)), (Z.leb_spec 0 i); cbn [andb];
         try reflexivity; lia).
  assert (Hset : Block_setcell B i j v =
                 mkBlock (Block_l B) (Block_L B)
                   (list_set (Block_val B) (Z.to_nat i)
                             (Seq_setitem (Block_getitem B i) j v))).
  { unfold Block_setcell.
    destruct (Z.ltb_spec i (Block_len B)), (Z.leb_spec 0 i); cbn [andb];
      try reflexivity; lia. }
  assert (Hlen : Seq_len (Block_getitem B i) = W).
  { pose proof (grid_row B R W i G (conj Hi0 HiR)) as Hr.
    rewrite Seq_len_stored; [exact Hr | lia]. }
  unfold Block_entry at 1.
  destruct (Z.lt_ge_cases i' 0) as [Hn|Hn].
  { destruct (Z.eqb_spec i' i); [lia|]. cbn [andb].
    rewrite !Block_entry_out by (left; lia).
    fold (Block_entry (Block_setcell B i j v) i' j').
    apply Block_entry_out. left. lia. }
  destruct (Z.lt_ge_cases i' R) as [Hr|Hr].
  2:{ destruct (Z.eqb_spec i' i); [lia|]. cbn [andb].
      rewrite (Block_entry_out B) by (right; lia).
      fold (Block_entry (Block_setcell B i j v) i' j').
      apply Block_entry_out. right.
      pose proof (Block_setcell_grid B R W i j v G) as [HR' _]. lia. }
  rewrite Block_getitem_in
    by (pose proof (Block_setcell_grid B R W i j v G) as [HR' _]; lia).
  rewrite Hset. cbn [Block_val].
  rewrite list_set_nth by (unfold Block_len in HR; lia).
  destruct (Z.eqb_spec i' i) as [->|Hne].
  - rewrite Nat.eqb_refl. cbn [andb].
    destruct (Z.leb_spec 0 j) as [Hj0|Hj0]; destruct (Z.ltb_spec j W) as [HjW|HjW];
      cbn [andb]; rewrite ?andb_false_r.
    + rewrite Seq_getitem_setitem by lia.
      destruct (Z.eqb_spec j' j); reflexivity.
    + rewrite Seq_setitem_out by lia. reflexivity.
    + rewrite Seq_setitem_out by lia. reflexivity.
    + rewrite Seq_setitem_out by lia. reflexivity.
  - destruct (Nat.eqb_spec (Z.to_nat i') (Z.to_nat i)); [lia|]. cbn [andb].
    unfold Block_entry. now rewrite Block_getitem_in by lia.
Qed.

Lemma cell_eq_dec (p q : Z * Z) : {p = q} + {p <> q}.
Proof. decide equality; apply Z.eq_dec. Qed.

(** A loop of assignments whose values depend on the cell only. *)
Lemma fold_setcell (F : Z -> Z -> N) (cells : list (Z * Z)) (B : Block N) (R W : Z) :
  grid B R W -> 2 <= W ->
  let B' := fold_left (fun out c => Block_setcell out (fst c) (snd c) (F (fst c) (snd c)))
                      cells B in
  grid B' R W /\
  Block_l B' = Block_l B /\ Block_L B' = Block_L B /\
  (forall i j, In (i, j) cells -> 0 <= i < R -> 0 <= j < W ->
               Block_entry B' i j = F i j) /\
  (forall i j, ~ In (i, j) cells -> Block_entry B' i j = Block_entry B i j).
Proof.
  intros G HW. revert B G. induction cells as [|[ci cj] t IH]; intros B G; cbn zeta.
  - cbn [fold_left]. split; [exact G|]. split; [reflexivity|]. split; [reflexivity|].
    split; [intros i j []|reflexivity].
  - cbn [fold_left fst snd].
    pose proof (Block_setcell_grid B R W ci cj (F ci cj) G) as G1.
    destruct (IH _ G1) as (G' & Hl & HL & Hin & Hout). cbn zeta in *.
    split; [exact G'|]. split; [|split; [|split]].
    + rewrite Hl. unfold Block_setcell. now destruct ((ci <? Block_len B) && (0 <=? ci)).
    + rewrite HL. unfold Block_setcell. now destruct ((ci <? Block_len B) && (0 <=? ci)).
    + intros i j Hij Hi Hj.
      destruct (in_dec cell_eq_dec (i, j) t) as [Ht|Ht].
      * now apply Hin.
      * rewrite Hout by exact Ht. destruct Hij as [E|E]; [|contradiction].
        inversion E; subst. rewrite (Block_setcell_entry B R W) by assumption.
        rewrite !Z.eqb_refl.
        destruct (Z.leb_spec 0 i), (Z.ltb_spec i R), (Z.leb_spec 0 j), (Z.ltb_spec j W);
          cbn [andb]; try reflexivity; lia.
    + intros i j Hij. rewrite Hout by (intro; apply Hij; now right).
      rewrite (Block_setcell_entry B R W) by assumption.
      destruct (Z.eqb_spec i ci) as [->|]; [|reflexivity].
      destruct (Z.eqb_spec j cj) as [->|]; [|reflexivity].
      exfalso. apply Hij. now left.
Qed.

(** The two nested loops over cells are one loop over their pairs. *)
Lemma fold_nested (g : Block N -> Z -> Z -> Block N) (js : Z -> list Z)
  (is_ : list Z) (B : Block N) :
  fold_left (fun out i => fold_left (fun out j => g out i j) (js i) out) is_ B =
  fold_left (fun out c => g out (fst c) (snd c))
            (flat_map (fun i => map (pair i) (js i)) is_) B.
Proof.
  revert B. induction is_ as [|i t IH]; intro B; [reflexivity|].
  cbn [fold_left flat_map]. rewrite fold_left_app, <- IH. f_equal.
  generalize (js i). intro l. revert B. induction l as [|j l IHl]; intro B;
    [reflexivity|].
  cbn [map fold_left fst snd]. apply IHl.
Qed.

Lemma in_pairs (js : Z -> list Z) (is_ : list Z) (i j : Z) :
  In (i, j) (flat_map (fun i => map (pair i) (js i)) is_) <-> In i is_ /\ In j (js i).
Proof.
  rewrite in_flat_map. split.
  - intros (k & Hk & H). apply in_map_iff in H. destruct H as (j' & E & Hj).
    inversion E; subst. now split.
  - intros [Hi Hj]. exists i. split; [exact Hi|]. apply in_map_iff. now exists j.
Qed.

(** The block of [R] rows of [W] zeros that the constructors start from. *)
Lemma zeros_init (R W l : Z) :
  1 <= R -> 0 <= W ->
  exists B : Block N,
    Block_init (map (fun _ => Seq_init (map (fun _ => zero) (range 0 W))) (range 0 R)) l
    = Ok B /\
    grid B R W /\ Block_l B = l /\
    Block_L B = (if W =? 1 then 0 else W) /\
    forall i j, Block_entry B i j = zero.
Proof.
  intros HR HW.
  set (row := Seq_init (map (fun _ => (zero : N)) (range 0 W))).
  assert (Hrow : Z.of_nat (length (Seq_val row)) = W).
  { unfold row. rewrite Seq_init_exact. cbn [Seq_val]. rewrite length_map_range. lia. }
  assert (Hz : forall j, Seq_getitem row j = zero).
  { intro j. unfold row. destruct (Z.lt_ge_cases j 0); [now apply Seq_getitem_neg|].
    destruct (Z.lt_ge_cases j W).
    - now rewrite Seq_getitem_map_range by lia.
    - now apply Seq_getitem_map_range_out. }
  assert (Hlen : Seq_len row = if W =? 1 then 0 else W).
  { destruct (Z.eqb_spec W 1) as [->|HW1].
    - unfold row. change (range 0 1) with [0]. rewrite Seq_init_exact.
      unfold Seq_len. cbn [map Seq_val length nth].
      replace (is_zero zero) with true by (symmetry; now apply is_zero_iff). reflexivity.
    - rewrite Seq_len_stored; [exact Hrow | lia]. }
  unfold Block_init.
  assert (Hmax : py_max (map Seq_len (map (fun _ : Z => row) (range 0 R)))
                 = Ok (if W =? 1 then 0 else W)).
  { rewrite (range_cons 0) by lia. cbn [map py_max]. f_equal.
    rewrite Hlen. generalize (range (0 + 1) R). intro t.
    induction t as [|h t IH]; [reflexivity|].
    cbn [map fold_left]. rewrite Hlen, Z.max_id. exact IH. }
  rewrite Hmax. cbn [bind]. eexists. split; [reflexivity|].
  split; [|split; [reflexivity|split; [reflexivity|]]].
  - split.
    + unfold Block_len. cbn [Block_val]. rewrite length_map_range. lia.
    + cbn [Block_val]. intros r Hr. apply in_map_iff in Hr.
      destruct Hr as (? & <- & _). exact Hrow.
  - intros i j. unfold Block_entry, Block_getitem.
    destruct ((i <? _) && (0 <=? i)); [|apply Seq_getitem_zero_seq].
    cbn [Block_val].
    destruct (nth_in_or_default (Z.to_nat i) (map (fun _ : Z => row) (range 0 R))
                                (Seq_of_num zero)) as [Hin|Hd].
    + apply in_map_iff in Hin. destruct Hin as (? & <- & _). apply Hz.
    + rewrite Hd. apply Seq_getitem_zero_seq.
Qed.

Lemma zeros_init_none (W l R : Z) :
  R <= 0 ->
  Block_init (map (fun _ => Seq_init (map (fun _ => (zero : N)) (range 0 W))) (range 0 R)) l
  = Raise ValueError.
Proof. intro H. now rewrite (range_nil 0 R) by lia. Qed.

End Grids.

(** ** The constructors and the arithmetic of blocks *)

Section BlockOps.

Context {N : Type} {PN : PyNum N} {PE : PyNumExact N}.

Add Ring num_ring_block : exact_ring.

Lemma Block_blank_ok (l : Z) :
  1 <= l ->
  exists B : Block N,
    Block_blank l = Ok B /\ grid B l l /\ Block_l B = std_l /\
    Block_L B = (if l =? 1 then 0 else l) /\
    forall i j, Block_entry B i j = zero.
Proof. intro H. unfold Block_blank. apply zeros_init; lia. Qed.

Lemma Block_blank_none (l : Z) : l <= 0 -> @Block_blank N PN l = Raise ValueError.
Proof. intro H. unfold Block_blank. now apply zeros_init_none. Qed.

Lemma fold_left_cells {S A : Type} (f : S -> Z * Z -> S) (c : A -> Z * Z)
  (l : list A) (s : S) :
  fold_left (fun out a => f out (c a)) l s = fold_left f (map c l) s.
Proof. revert s. induction l as [|a t IH]; intro s; cbn; auto. Qed.

(** [Block.identity(l)] for [l >= 2]: ones on the diagonal, zeros elsewhere. *)
Lemma Block_identity_entries (l : Z) :
  2 <= l ->
  exists B : Block N,
    Block_identity l = Ok B /\ grid B l l /\
    Block_l B = std_l /\ Block_L B = l /\
    forall i j, Block_entry B i j =
                if (i =? j) && (0 <=? i) && (i <? l) then one else zero.
Proof.
  intro Hl. unfold Block_identity.
  destruct (Block_blank_ok l) as (B0 & -> & G0 & Hl0 & HL0 & Hz); [lia|].
  cbn [bind]. eexists. split; [reflexivity|].
  rewrite (fold_left_cells
             (fun out c => Block_setcell out (fst c) (snd c) ((fun _ _ => one) (fst c) (snd c)))
             (fun n => (n, n))).
  destruct (fold_setcell (fun _ _ => one) (map (fun n => (n, n)) (range 0 l)) B0 l l G0)
    as (G & Hl' & HL' & Hin & Hout); [lia|]. cbn zeta in *.
  split; [exact G|]. split; [congruence|]. split.
  - rewrite HL', HL0. destruct (Z.eqb_spec l 1); [lia|reflexivity].
  - intros i j.
    assert (Hno : ~ (i = j /\ 0 <= i < l) -> Block_entry
              (fold_left
                 (fun out c => Block_setcell out (fst c) (snd c) one)
                 (map (fun n => (n, n)) (range 0 l)) B0) i j = zero).
    { intro Hn. rewrite Hout, Hz; [reflexivity|]. intro H'. apply in_map_iff in H'.
      destruct H' as (n & E & Hr). inversion E; subst. apply in_range in Hr. lia. }
    destruct (Z.eqb_spec i j) as [<-|Hij]; cbn [andb]; [|apply Hno; lia].
    destruct (Z.leb_spec 0 i), (Z.ltb_spec i l); cbn [andb]; try (apply Hno; lia).
    apply Hin; try lia. apply in_map_iff. exists i. split; [reflexivity|].
    apply in_range. lia.
Qed.

(** The loop that fills the cells [(i, j)] with [j] in [js i] of a grid of
    zeros. *)
Lemma fill_entries (F : Z -> Z -> N) (js : Z -> list Z) (is_ : list Z)
  (B0 : Block N) (R W : Z) :
  grid B0 R W -> 2 <= W -> (forall i j, Block_entry B0 i j = zero) ->
  let B := fold_left
             (fun out i => fold_left (fun out j => Block_setcell out i j (F i j)) (js i) out)
             is_ B0 in
  grid B R W /\ Block_l B = Block_l B0 /\ Block_L B = Block_L B0 /\
  (forall i j, In i is_ -> In j (js i) -> 0 <= i < R -> 0 <= j < W ->
               Block_entry B i j = F i j) /\
  (forall i j, ~ (In i is_ /\ In j (js i)) -> Block_entry B i j = zero).
Proof.
  intros G HW Hz. cbn zeta.
  rewrite (fold_nested (fun out i j => Block_setcell out i j (F i j))).
  destruct (fold_setcell F (flat_map (fun i => map (pair i) (js i)) is_) B0 R W G HW)
    as (G' & Hl & HL & Hin & Hout). cbn zeta in *.
  split; [exact G'|]. split; [exact Hl|]. split; [exact HL|]. split.
  - intros i j Hi Hj HiR HjW. apply Hin; try assumption. apply in_pairs. now split.
  - intros i j H. rewrite Hout, Hz; [reflexivity|]. intro H'. apply H.
    now apply in_pairs.
Qed.

(** [Block.__add__] and [Block.__sub__] work on the square window of side
    [self.L]. *)
Lemma Block_cellwise_entries (op : N -> N -> N) (A B : Block N) :
  2 <= Block_L A ->
  exists C : Block N,
    Block_cellwise op A B = Ok C /\ grid C (Block_L A) (Block_L A) /\
    (forall i j, 0 <= i < Block_L A -> 0 <= j < Block_L A ->
                 Block_entry C i j = op (Block_entry A i j) (Block_entry B i j)) /\
    (forall i j, ~ (0 <= i < Block_L A /\ 0 <= j < Block_L A) ->
                 Block_entry C i j = zero).
Proof.
  intro HL. unfold Block_cellwise.
  destruct (zeros_init (Block_L A) (Block_L A) std_l) as (B0 & -> & G0 & _ & _ & Hz);
    [lia | lia |].
  cbn [bind]. eexists. split; [reflexivity|].
  destruct (fill_entries
              (fun i j => op (Seq_getitem (Block_getitem A i) j)
                             (Seq_getitem (Block_getitem B i) j))
              (fun _ => range 0 (Block_L A)) (range 0 (Block_L A)) B0 _ _ G0 HL Hz)
    as (G & _ & _ & Hin & Hout). cbn zeta in *.
  split; [exact G|]. split.
  - intros i j Hi Hj. apply Hin; rewrite ?in_range; lia.
  - intros i j H. apply Hout. intros [Hi Hj]. apply in_range in Hi, Hj. apply H. lia.
Qed.

Lemma Block_cellwise_none (op : N -> N -> N) (A B : Block N) :
  Block_L A <= 0 -> Block_cellwise op A B = Raise ValueError.
Proof.
  intro H. unfold Block_cellwise. now rewrite zeros_init_none by lia.
Qed.

(** [Block.__mul__] of two blocks: the matrix product over the window of
    side [self.L], inside the rows and columns that the result has. *)
Lemma Block_mul_entries (A B : Block N) :
  1 <= Z.max (Block_l A) (Block_l B) -> 2 <= Z.max (Block_L A) (Block_L B) ->
  exists C : Block N,
    Block_mul A B = Ok C /\
    grid C (Z.max (Block_l A) (Block_l B)) (Z.max (Block_L A) (Block_L B)) /\
    Block_l C = std_l /\ Block_L C = Z.max (Block_L A) (Block_L B) /\
    (forall i j, 0 <= i < Block_L A -> i < Z.max (Block_l A) (Block_l B) ->
                 0 <= j < Block_L A ->
                 Block_entry C i j =
                 zsum (fun k => Block_entry A i k *! Block_entry B k j) (Block_L A)) /\
    (forall i j, ~ (0 <= i < Block_L A /\ 0 <= j < Block_L A) ->
                 Block_entry C i j = zero).
Proof.
  intros HR HW. unfold Block_mul.
  destruct (zeros_init (Z.max (Block_l A) (Block_l B)) (Z.max (Block_L A) (Block_L B)) std_l)
    as (B0 & -> & G0 & Hl0 & HL0 & Hz); [lia | lia |].
  cbn [bind]. eexists. split; [reflexivity|].
  destruct (fill_entries
              (fun i j => py_sum (map (fun k => Seq_getitem (Block_getitem A i) k
                                                *! Seq_getitem (Block_getitem B k) j)
                                      (range 0 (Block_L A))))
              (fun _ => range 0 (Block_L A)) (range 0 (Block_L A)) B0 _ _ G0 HW Hz)
    as (G & Hl & HL' & Hin & Hout). cbn zeta in *.
  split; [exact G|]. split; [congruence|]. split.
  - rewrite HL', HL0. destruct (Z.eqb_spec (Z.max (Block_L A) (Block_L B)) 1); [lia|reflexivity].
  - split.
    + intros i j Hi HiR Hj. apply Hin; rewrite ?in_range; lia.
    + intros i j H. apply Hout. intros [Hi Hj]. apply in_range in Hi, Hj. apply H. lia.
Qed.

(** [generate_next_matrix]: a lower triangle of sums over the columns of
    [s_prev]. *)
Lemma generate_next_matrix_entries (S : Block N) (g : Seq N) :
  exists C : Block N,
    generate_next_matrix S g = Ok C /\ grid C std_l std_l /\
    (forall n y, 0 <= y <= n -> n < std_l ->
                 Block_entry C n y =
                 zsum (fun k => Block_entry S k y *! f_coeff g (n - k)) (n + 1)) /\
    (forall n y, ~ (0 <= y <= n /\ n < std_l) -> Block_entry C n y = zero).
Proof.
  unfold generate_next_matrix.
  destruct (Block_blank_ok std_l) as (B0 & -> & G0 & _ & _ & Hz); [unfold std_l; lia|].
  cbn [bind]. cbv zeta. eexists. split; [reflexivity|].
  destruct (fill_entries
              (fun n y => fold_left
                            (fun _sum k => _sum +! Seq_getitem (Block_getitem S k) y
                                                   *! Seq_getitem (Seq_f g std_l) (n - k))
                            (range 0 (n + 1)) zero)
              (fun n => range 0 (n + 1)) (range 0 std_l) B0 _ _ G0
              ltac:(unfold std_l; lia) Hz)
    as (G & _ & _ & Hin & Hout). cbn zeta in *.
  split; [exact G|]. split.
  - intros n y Hy Hn. rewrite Hin by (rewrite ?in_range; lia).
    rewrite (fold_add_zsum (fun k => Seq_getitem (Block_getitem S k) y
                                     *! Seq_getitem (Seq_f g std_l) (n - k))).
    apply zsum_ext. intros k Hk. unfold Block_entry. f_equal.
    apply f_coeff_eq. lia.
  - intros n y H. apply Hout. intros [Hi Hj]. apply in_range in Hi, Hj. apply H. lia.
Qed.

Lemma Block_g_matrix_nil (S : Block N) : Block_g_matrix S [] = Ok None.
Proof. reflexivity. Qed.

Lemma Block_g_matrix_one (S : Block N) (g : Seq N) :
  Block_g_matrix S [g] = result_map Some (generate_next_matrix S g).
Proof.
  unfold Block_g_matrix. cbn [foldM].
  now destruct (generate_next_matrix S g).
Qed.

(** [Block.power] without taper: one row for each power of [d]. *)
Lemma Block_power_rows (d : Seq N) (l : Z) :
  exists B : Block N,
    Block_power d l false = Ok B /\ Block_len B = Z.max 1 l /\
    Block_l B = std_l /\
    forall n, 0 <= n < Z.max 1 l -> Block_getitem B n = Seq_pow d n.
Proof.
  unfold Block_power.
  set (rows := fun m => fold_left
                          (fun out (_ : Z) => out ++ [Seq_mul (last out (Seq_of_num zero)) d])
                          (range 1 m) [Seq_init [one]]).
  assert (H : forall m, 1 <= m ->
                rows m = map (fun n => Seq_pow d n) (range 0 m)).
  { intros m Hm. pattern m. apply range_bound_ind with (lo := 1); [| |lia].
    - unfold rows. rewrite (range_nil 1 1) by lia. change (range 0 1) with [0].
      cbn [fold_left map]. rewrite Seq_pow_base by lia. now rewrite Seq_init_exact.
    - intros hi Hhi IH. unfold rows in *. rewrite fold_range_snoc by lia.
      rewrite IH. rewrite (range_snoc 0 hi) by lia. rewrite !map_app. cbn [map].
      f_equal. f_equal.
      replace (range 0 hi) with (range 0 (hi - 1) ++ [hi - 1])
        by (rewrite <- range_snoc by lia; f_equal; lia).
      rewrite map_app. cbn [map]. rewrite last_last.
      rewrite <- Seq_pow_succ by lia. f_equal. lia. }
  assert (H' : rows l = map (fun n => Seq_pow d n) (range 0 (Z.max 1 l))).
  { destruct (Z.le_gt_cases 1 l) as [Hl|Hl].
    - rewrite H by lia. now rewrite Z.max_r by lia.
    - rewrite Z.max_l by lia. rewrite <- (H 1) by lia. unfold rows.
      now rewrite (range_nil 1 l), (range_nil 1 1) by lia. }
  fold (rows l). rewrite H'. cbn [bind]. unfold Block_init.
  destruct (py_max (map Seq_len (map (fun n => Seq_pow d n) (range 0 (Z.max 1 l)))))
    as [L|e] eqn:E.
  2: { rewrite (range_cons 0) in E by lia. discriminate E. }
  cbn [bind]. eexists. split; [reflexivity|]. split; [|split; [reflexivity|]].
  - unfold Block_len. cbn [Block_val]. rewrite length_map, range_length. lia.
  - intros n Hn. rewrite Block_getitem_in.
    + cbn [Block_val]. now apply nth_map_range.
    + unfold Block_len. cbn [Block_val]. rewrite length_map, range_length. lia.
Qed.

(** [Block.i] raises exactly when the corner of the block is not [1]. *)
Lemma Block_i_corner (M : Block N) (a : Z) (g : Seq N) :
  2 <= Block_len M ->
  (Block_entry M 0 0 = one -> exists r, Block_i M a g = Ok r) /\
  (Block_entry M 0 0 <> one -> Block_i M a g = Raise ValueError).
Proof.
  intro H.
  assert (E : Seq_getitem (Block_f M a g) 0 = Block_entry M 0 0).
  { rewrite Block_f_getitem by lia. unfold antidiagonal.
    rewrite (zsum_succ _ 0), zsum_nil by lia.
    replace (0 - a * 0) with 0 by lia. rewrite Seq_f_head. unfold Block_entry. ring. }
  unfold Block_i. split; intro Hc.
  - eexists. apply Seq_i_ok. now rewrite E.
  - apply Seq_i_raise. now rewrite E.
Qed.

End BlockOps.

(** ** The identity block as a unit, and aeration *)

Section BlockUnit.

Context {N : Type} {PN : PyNum N} {PE : PyNumExact N}.

Add Ring num_ring_unit : exact_ring.



(** A product of blocks has [max(self.l, other.l)] rows, whatever the
    window of the loop is. *)
Lemma Block_mul_rows (A B : Block N) (i j : Z) :
  1 <= Z.max (Block_l A) (Block_l B) -> 2 <= Z.max (Block_L A) (Block_L B) ->
  Z.max (Block_l A) (Block_l B) <= i ->
  exists C : Block N, Block_mul A B = Ok C /\ Block_entry C i j = zero.
Proof.
  intros HR HW Hi.
  destruct (Block_mul_entries A B HR HW) as (C & EC & [GC _] & _).
  exists C. split; [exact EC|]. apply Block_entry_out. lia.
Qed.

(** *** [range] with a step *)

Lemma in_range_step (start stop step j : Z) :
  0 < step ->
  In j (range_step start stop step) <->
  start <= j < stop /\ (j - start) mod step = 0.
Proof.
  intro Hs. unfold range_step.
  destruct (Z.ltb_spec 0 step) as [_|]; [|lia].
  rewrite in_map_iff. split.
  - intros (k & <- & Hk). apply in_seq in Hk.
    assert (Hq : Z.of_nat k < (stop - start + step - 1) / step) by lia.
    assert (Hm : (Z.of_nat k + 1) * step <= stop - start + step - 1).
    { pose proof (Z.mul_div_le (stop - start + step - 1) step Hs). nia. }
    split; [nia|].
    replace (start + Z.of_nat k * step - start) with (Z.of_nat k * step) by ring.
    apply Z.mod_mul. lia.
  - intros [Hj Hm].
    apply Z.mod_divide in Hm; [|lia]. destruct Hm as [q Hq].
    assert (Hq0 : 0 <= q) by nia.
    exists (Z.to_nat q). split; [rewrite Z2Nat.id by lia; lia|].
    apply in_seq. split; [lia|]. cbn.
    assert (q + 1 <= (stop - start + step - 1) / step); [|lia].
    apply Z.div_le_lower_bound; [lia|]. nia.
Qed.

(** A loop of assignments into one sequence. *)
Lemma fold_setitem (F : Z -> N) (ks : list Z) (out : Seq N) (W : Z) :
  Z.of_nat (length (Seq_val out)) = W -> 2 <= W ->
  let out' := fold_left (fun out k => Seq_setitem out k (F k)) ks out in
  Z.of_nat (length (Seq_val out')) = W /\
  (forall k, In k ks -> 0 <= k < W -> Seq_getitem out' k = F k) /\
  (forall k, ~ In k ks -> Seq_getitem out' k = Seq_getitem out k).
Proof.
  intros HW H2. revert out HW. induction ks as [|c t IH]; intros out HW; cbn zeta.
  - cbn [fold_left]. split; [exact HW|]. split; [intros k []|reflexivity].
  - cbn [fold_left].
    assert (HW1 : Z.of_nat (length (Seq_val (Seq_setitem out c (F c)))) = W)
      by now rewrite Seq_setitem_length.
    destruct (IH _ HW1) as (HW' & Hin & Hout). cbn zeta in *.
    assert (Hlen : Seq_len out = W) by (rewrite Seq_len_stored; lia).
    split; [exact HW'|]. split.
    + intros k Hk Hr. destruct (in_dec Z.eq_dec k t) as [Ht|Ht]; [now apply Hin|].
      rewrite Hout by exact Ht. destruct Hk as [->|]; [|contradiction].
      rewrite Seq_getitem_setitem by lia. now rewrite Z.eqb_refl.
    + intros k Hk. rewrite Hout by (intro; apply Hk; now right).
      destruct (Z.lt_ge_cases c 0) as [Hc|Hc]; [now rewrite Seq_setitem_out by lia|].
      destruct (Z.lt_ge_cases c W) as [Hc'|Hc']; [|now rewrite Seq_setitem_out by lia].
      rewrite Seq_getitem_setitem by lia.
      destruct (Z.eqb_spec k c) as [->|]; [|reflexivity].
      exfalso. apply Hk. now left.
Qed.

Lemma fold_setitem_short (F : Z -> N) (ks : list Z) (out : Seq N) :
  Seq_len out = 0 ->
  fold_left (fun out k => Seq_setitem out k (F k)) ks out = out.
Proof.
  intro H. induction ks as [|c t IH]; [reflexivity|]. cbn [fold_left].
  rewrite Seq_setitem_out by lia. exact IH.
Qed.

(** [aerate(a)] for [a >= 1]: coefficient [j] of the result is coefficient
    [j // a] of the sequence where [a] divides [j], and zero elsewhere. *)
Lemma Seq_aerate_getitem (s : Seq N) (a : Z) :
  1 <= a -> 2 <= Seq_len s * a ->
  exists out : Seq N,
    Seq_aerate s a = Ok out /\
    Z.of_nat (length (Seq_val out)) = Seq_len s * a /\
    forall j, Seq_getitem out j =
              if j mod a =? 0 then Seq_getitem s (j / a) else zero.
Proof.
  intros Ha Hl. unfold Seq_aerate, range3.
  destruct (Z.eqb_spec a 0) as [|_]; [lia|]. cbn [bind].
  eexists. split; [reflexivity|].
  set (out0 := Seq_init (map (fun _ => zero) (range 0 (Seq_len s * a)))).
  assert (H0 : Z.of_nat (length (Seq_val out0)) = Seq_len s * a).
  { unfold out0. rewrite Seq_init_exact. cbn [Seq_val].
    rewrite length_map, range_length. lia. }
  destruct (fold_setitem (fun k => Seq_getitem s (k / a))
                         (range_step 0 (Seq_len s * a) a) out0 _ H0 Hl)
    as (HW & Hin & Hout). cbn zeta in *.
  split; [exact HW|]. intro j.
  assert (Hz : Seq_getitem out0 j = zero).
  { unfold out0. destruct (Z.lt_ge_cases j 0); [now apply Seq_getitem_neg|].
    destruct (Z.lt_ge_cases j (Seq_len s * a)).
    - rewrite (Seq_getitem_map_range (fun _ => zero)) by lia. reflexivity.
    - rewrite Seq_getitem_map_range_out by lia. reflexivity. }
  destruct (Z.eqb_spec (j mod a) 0) as [Hm|Hm].
  - destruct (Z.lt_ge_cases j 0) as [Hj|Hj].
    { rewrite Hout, Hz.
      - symmetry. apply Seq_getitem_neg. apply Z.div_lt_upper_bound; lia.
      - intro H. apply in_range_step in H; lia. }
    destruct (Z.lt_ge_cases j (Seq_len s * a)) as [Hj'|Hj'].
    + apply Hin; [|lia]. apply in_range_step; [lia|]. split; [lia|].
      now rewrite Z.sub_0_r.
    + rewrite Hout, Hz.
      * symmetry. apply Seq_getitem_out. apply Z.div_le_lower_bound; lia.
      * intro H. apply in_range_step in H; lia.
  - rewrite Hout, Hz; [reflexivity|]. intro H. apply in_range_step in H; [|lia].
    rewrite Z.sub_0_r in H. lia.
Qed.

(** [aerate(0)] raises the [ValueError] of [range]; outside the case above
    no assignment of the loop lands. *)
Lemma Seq_aerate_zero (s : Seq N) : Seq_aerate s 0 = Raise ValueError.
Proof. reflexivity. Qed.

Lemma Seq_aerate_short (s : Seq N) (a : Z) :
  a <> 0 -> Seq_len s * a <= 1 ->
  Seq_aerate s a =
  Ok (mkSeq (if Seq_len s * a =? 1 then [zero] else [])).
Proof.
  intros Ha Hl. unfold Seq_aerate, range3.
  destruct (Z.eqb_spec a 0) as [|_]; [lia|]. cbn [bind].
  rewrite Seq_init_exact. rewrite fold_setitem_short.
  - destruct (Z.eqb_spec (Seq_len s * a) 1) as [->|Hn]; [reflexivity|].
    now rewrite range_nil by lia.
  - destruct (Z.eqb_spec (Seq_len s * a) 1) as [->|Hn].
    + change (range 0 1) with [0]. unfold Seq_len. cbn [map Seq_val length nth].
      replace (is_zero zero) with true by (symmetry; now apply is_zero_iff). reflexivity.
    + now rewrite range_nil by lia.
Qed.

End BlockUnit.

(** ** Slices with bounds and a step *)

Section Slices.

Context {N : Type} {PN : PyNum N} {PE : PyNumExact N}.

Lemma range_step_length (start stop step : Z) (k : nat) :
  0 < step ->
  (k < length (range_step start stop step))%nat <-> start + Z.of_nat k * step < stop.
Proof.
  intro Hs. unfold range_step.
  destruct (Z.ltb_spec 0 step) as [_|]; [|lia].
  rewrite length_map, length_seq. split.
  - intro Hk.
    assert (Hq : Z.of_nat k + 1 <= (stop - start + step - 1) / step) by lia.
    pose proof (Z.mul_div_le (stop - start + step - 1) step Hs). nia.
  - intro Hk.
    assert (Z.of_nat k + 1 <= (stop - start + step - 1) / step); [|lia].
    apply Z.div_le_lower_bound; [lia|]. nia.
Qed.

Lemma nth_range_step (start stop step : Z) (k : nat) :
  0 < step -> (k < length (range_step start stop step))%nat ->
  nth k (range_step start stop step) 0 = start + Z.of_nat k * step.
Proof.
  intros Hs Hk. unfold range_step in *.
  rewrite length_map, length_seq in Hk.
  rewrite (nth_indep _ 0 ((fun k => start + Z.of_nat k * step) 0%nat))
    by (rewrite length_map, length_seq; exact Hk).
  rewrite (map_nth (fun k => start + Z.of_nat k * step)), seq_nth by exact Hk.
  reflexivity.
Qed.

(** [s[start:stop:step]] for a positive step: the coefficients of [s] at
    [start], [start + step], ... below [stop]; an index outside the
    sequence, a negative one too, reads zero. *)
Lemma Seq_slice_getitem (s : Seq N) (start stop step k : Z) :
  0 < step -> stop <> 0 ->
  Seq_getitem (Seq_getitem_slice s (Some start) (Some stop) (Some step)) k =
  if (0 <=? k) && (start + k * step <? stop)
  then Seq_getitem s (start + k * step) else zero.
Proof.
  intros Hs Hstop. unfold Seq_getitem_slice.
  replace (if start =? 0 then 0 else start) with start
    by (destruct (Z.eqb_spec start 0); lia).
  destruct (Z.eqb_spec stop 0) as [|_]; [contradiction|].
  destruct (Z.eqb_spec step 0) as [|_]; [lia|].
  destruct (Z.leb_spec 0 k) as [H0|H0]; cbn [andb];
    [|now rewrite Seq_getitem_neg by lia].
  rewrite Seq_getitem_nth by lia. rewrite Seq_init_exact. cbn [Seq_val].
  change (fun k0 : Z => if (k0 <? Seq_len s) && (0 <=? k0)
                        then nth (Z.to_nat k0) (Seq_val s) zero else zero)
    with (Seq_getitem s).
  pose proof (range_step_length start stop step (Z.to_nat k) Hs) as Hlen.
  rewrite Z2Nat.id in Hlen by lia.
  destruct (Z.ltb_spec (start + k * step) stop) as [H1|H1].
  - assert (Hk : (Z.to_nat k < length (range_step start stop step))%nat) by (apply Hlen; lia).
    rewrite (nth_indep _ zero (Seq_getitem s 0)) by (now rewrite length_map).
    rewrite map_nth, nth_range_step by assumption. f_equal. lia.
  - apply nth_overflow. rewrite length_map.
    destruct (Nat.lt_ge_cases (Z.to_nat k) (length (range_step start stop step))) as [Hk|Hk];
      [apply Hlen in Hk; lia | exact Hk].
Qed.

End Slices.

(** ** Remainders and the order, on integer coefficients *)

Lemma Seq_mod_zero (s : Seq Z) :
  Seq_val s <> [] -> Seq_mod s 0 = Raise ZeroDivisionError.
Proof.
  intro H. unfold Seq_mod. destruct (Seq_val s); [congruence|reflexivity].
Qed.

Lemma Seq_mod_ok (s : Seq Z) (o : Z) :
  o <> 0 -> Seq_mod s o = Ok (mkSeq (map (fun k => k mod o) (Seq_val s))).
Proof.
  intro H. unfold Seq_mod. destruct (Z.eqb_spec o 0); [contradiction|].
  cbn [andb]. now rewrite Seq_init_exact.
Qed.

Lemma Seq_mod_getitem (s : Seq Z) (o k : Z) :
  Seq_getitem (mkSeq (map (fun v => v mod o) (Seq_val s))) k = (Seq_getitem s k) mod o.
Proof.
  destruct (Z.lt_ge_cases k 0) as [Hk|Hk].
  - rewrite !Seq_getitem_neg by lia. symmetry. apply Zmod_0_l.
  - rewrite !Seq_getitem_nth by lia. cbn [Seq_val].
    change (zero : Z) with ((fun v => v mod o) 0) at 1. apply map_nth.
Qed.

Lemma zsum_mod (F : Z -> Z) (o n : Z) :
  (zsum F n) mod o = (zsum (fun k => F k mod o) n) mod o.
Proof.
  destruct (Z.le_gt_cases n 0) as [Hn|Hn]; [now rewrite !zsum_nil by lia|].
  pattern n. apply range_bound_ind with (lo := 0); [| |lia].
  - now rewrite !zsum_nil by lia.
  - intros hi Hhi IH. rewrite !zsum_succ by lia.
    change (@py_add Z PyNum_Z) with Z.add.
    rewrite Zplus_mod, IH.
    rewrite (Zplus_mod (zsum (fun k => F k mod o) hi) (F hi mod o)).
    now rewrite Zmod_mod.
Qed.


Lemma list_lt_le (l m : list Z) : list_lt l m = negb (list_le m l).
Proof.
  revert m. induction l as [|a t IH]; intros [|b u]; try reflexivity.
  cbn. rewrite (Z.eqb_sym b a). destruct (Z.eqb_spec a b) as [->|H]; [apply IH|].
  destruct (Z.ltb_spec a b), (Z.ltb_spec b a); cbn; try reflexivity; lia.
Qed.



Lemma list_lt_snoc (l : list Z) (v : Z) : list_lt l (l ++ [v]) = true.
Proof. induction l as [|a t IH]; [reflexivity|]. cbn. now rewrite Z.eqb_refl. Qed.

(** ** Further edge cases *)

Section Edges.

Context {N : Type} {PN : PyNum N} {PE : PyNumExact N}.

Add Ring num_ring_edges : exact_ring.

(** Trimming zeros alone leaves the empty sequence. *)
Lemma Seq_trim_zeros (s : Seq N) :
  Seq_val s <> [] -> Forall (fun v => v = zero) (Seq_val s) ->
  Seq_trim s = Ok (mkSeq []).
Proof.
  intros Hs Hz. unfold Seq_trim. destruct (Seq_val s) as [|h t] eqn:E; [congruence|].
  rewrite trim_loop_rev_zeros by (apply Forall_rev; exact Hz).
  now rewrite Seq_init_exact.
Qed.

Lemma Seq_len_zero_seq : Seq_len (mkSeq [(zero : N)]) = 0.
Proof.
  unfold Seq_len. cbn [Seq_val length nth Z.of_nat Pos.of_succ_nat Z.eqb Pos.eqb andb].
  replace (is_zero zero) with true by (symmetry; now apply is_zero_iff). reflexivity.
Qed.

(** The loops of [Block.__add__] and [Block.__sub__] on a window of side
    [1]: the one row is [Seq([0])], of length [0], and keeps its zero. *)
Lemma Block_cellwise_one (op : N -> N -> N) (A B : Block N) :
  Block_L A = 1 ->
  Block_cellwise op A B = Ok (mkBlock std_l 0 [mkSeq [zero]]).
Proof.
  intro H. unfold Block_cellwise. rewrite H. change (range 0 1) with [0].
  cbn [map]. rewrite Seq_init_exact. unfold Block_init. cbn [map py_max fold_left bind].
  rewrite Seq_len_zero_seq. cbn [fold_left]. f_equal.
  unfold Block_setcell, Block_len, Block_getitem, Block_len.
  cbn [Block_val length Z.of_nat Pos.of_succ_nat Z.ltb Z.leb Z.compare andb Z.to_nat nth].
  rewrite Seq_setitem_out by (rewrite Seq_len_zero_seq; lia). reflexivity.
Qed.

(** [f] of a signature sum against the product of the two [f]. *)
Lemma Sig_f_add (A B : Sig N) (l n : Z) :
  0 <= n < l ->
  Sig_getitem (Sig_f (Sig_add A B) l) n =
  Seq_getitem (Seq_mul (Sig_val (Sig_f A l)) (Sig_val (Sig_f B l))) n.
Proof.
  intro Hn. unfold Sig_getitem, Sig_f. cbn [Sig_val].
  rewrite f_coeff_eq by lia. rewrite f_coeff_Sig_add, Seq_getitem_mul_conv.
  apply conv_ext; intros k Hk; symmetry; apply f_coeff_eq; lia.
Qed.

(** [a * Seq(0)] has no coefficient that is not zero. *)
Lemma Seq_mul_zero_r (a : Seq N) :
  Seq_eq (Seq_mul a (Seq_of_num zero)) (Seq_of_num zero) = true.
Proof.
  apply Seq_eq_true. intro k. rewrite Seq_getitem_zero_seq.
  apply Seq_mul_zero_eq. rewrite Seq_of_num_exact. apply Seq_len_zero_seq.
Qed.

End Edges.

(** * Further properties of the methods

    Integer coefficients throughout (Python's [int]). *)

(** ** Sequences *)

(** [Seq.__add__]: coefficient [n] of [a + b] is [a[n] + b[n]] at every
    index, [a + b] and [b + a] are the same stored list, and
    [(a + b) + c == a + (b + c)]. *)
Theorem Seq_add_laws (a b c : Seq Z) :
  (forall n, Seq_getitem (Seq_add a b) n = Seq_getitem a n + Seq_getitem b n) /\
  Seq_add a b = Seq_add b a /\
  Seq_eq (Seq_add (Seq_add a b) c) (Seq_add a (Seq_add b c)) = true.
Proof.
  split; [|split].
  - intro n. exact (Seq_getitem_add a b n).
  - apply Seq_add_comm.
  - apply Seq_add_assoc_eq.
Qed.

(** [Seq.__mul__] is the Cauchy product: coefficient [n] of [a * b] is the
    sum of [a[k] * b[n - k]] for [k = 0..n]; [a * b] and [b * a] are the
    same stored list, and [(a * b) * c == a * (b * c)]. *)
Theorem Seq_mul_laws (a b c : Seq Z) :
  (forall n, Seq_getitem (Seq_mul a b) n =
             zsum (fun k => Seq_getitem a k * Seq_getitem b (n - k)) (n + 1)) /\
  Seq_mul a b = Seq_mul b a /\
  Seq_eq (Seq_mul (Seq_mul a b) c) (Seq_mul a (Seq_mul b c)) = true.
Proof.
  split; [|split].
  - intro n. exact (Seq_getitem_mul a b n).
  - apply Seq_mul_comm.
  - apply Seq_mul_assoc_eq.
Qed.

(** The product distributes over the sum, [Seq(1)] is its unit on both
    sides, and a product with [Seq(0)] is [== Seq(0)]. *)
Theorem Seq_mul_distributes (a b c : Seq Z) :
  Seq_eq (Seq_mul a (Seq_add b c)) (Seq_add (Seq_mul a b) (Seq_mul a c)) = true /\
  Seq_eq (Seq_mul a (Seq_of_num 1)) a = true /\
  Seq_eq (Seq_mul (Seq_of_num 1) a) a = true /\
  Seq_eq (Seq_mul a (Seq_of_num 0)) (Seq_of_num 0) = true.
Proof.
  split; [apply Seq_mul_add_distr_eq|].
  split; [exact (proj1 (Seq_mul_one_eq a))|].
  split; [exact (proj2 (Seq_mul_one_eq a))|].
  exact (Seq_mul_zero_r a).
Qed.

(** [Seq.__sub__] and [Seq.neg]: coefficient [n] of [a - b] is
    [a[n] - b[n]]; [a - a] stores [len(a)] zeros, so [(a - a).trim()] is
    the empty sequence when [len(a) >= 1], and raises [IndexError] when
    [len(a)] is [0], where [a - a] is already empty. *)
Theorem Seq_sub_self_is_zero (a b : Seq Z) :
  (forall n, Seq_getitem (Seq_sub a b) n = Seq_getitem a n - Seq_getitem b n) /\
  Seq_val (Seq_sub a a) = map (fun _ => 0) (range 0 (Seq_len a)) /\
  Seq_trim (Seq_sub a a) =
  (if 1 <=? Seq_len a then Ok (mkSeq []) else Raise IndexError).
Proof.
  split; [|split].
  - intro n. exact (Seq_getitem_sub a b n).
  - exact (Seq_sub_self_val a).
  - destruct (Seq_sub_self_trim a) as (H0 & H1 & _).
    destruct (Z.leb_spec 1 (Seq_len a)); [apply H1 | apply H0]; lia.
Qed.

(** [Seq.trim] on a sequence that stores something: the result has the
    same coefficient at every index and stores no more of them, it is
    empty or ends in a coefficient that is not zero, and it is empty when
    the sequence stores zeros only; trimming the empty result raises
    [IndexError], so [trim] cannot always be applied twice. *)
Theorem Seq_trim_cuts_zeros (s : Seq Z) :
  Seq_val s <> [] ->
  exists t : Seq Z,
    Seq_trim s = Ok t /\
    (forall k, Seq_getitem t k = Seq_getitem s k) /\
    (length (Seq_val t) <= length (Seq_val s))%nat /\
    (Seq_val t = [] \/ last (Seq_val t) 0 <> 0) /\
    (Forall (fun v => v = 0) (Seq_val s) -> Seq_val t = []) /\
    (Seq_val t = [] -> Seq_trim t = Raise IndexError).
Proof.
  intro Hs. destruct (Seq_trim_spec s Hs) as (t & Et & Hc & Hl & Hlast).
  exists t. split; [exact Et|]. split; [exact Hc|]. split; [exact Hl|].
  split; [exact Hlast|]. split.
  - intro Hz. pose proof (Seq_trim_zeros (PE := PyNumExact_Z) s Hs Hz) as E.
    rewrite E in Et. now inversion Et.
  - apply Seq_trim_empty.
Qed.

(** [[1, 0, 2, 0, 0].trim()]. *)
Lemma Seq_trim_cuts_zeros_witness :
  exists t : Seq Z,
    Seq_trim (SeqZ [1; 0; 2; 0; 0]) = Ok t /\
    (forall k, Seq_getitem t k = Seq_getitem (SeqZ [1; 0; 2; 0; 0]) k) /\
    (length (Seq_val t) <= length (Seq_val (SeqZ [1; 0; 2; 0; 0]%Z)))%nat /\
    (Seq_val t = [] \/ last (Seq_val t) 0 <> 0) /\
    (Forall (fun v => v = 0) (Seq_val (SeqZ [1; 0; 2; 0; 0])) -> Seq_val t = []) /\
    (Seq_val t = [] -> Seq_trim t = Raise IndexError).
Proof.
  apply (Seq_trim_cuts_zeros (SeqZ [1; 0; 2; 0; 0])). simpl. discriminate.
Defined.

(** On integer coefficients [Seq.__pow__] adds exponents:
    [a ** (m + n) == a ** m * a ** n] for exponents that are not
    negative. *)
Theorem Seq_pow_adds_exponents (a : Seq Z) (m n : Z) :
  0 <= m -> 0 <= n ->
  Seq_eq (Seq_pow a (m + n)) (Seq_mul (Seq_pow a m) (Seq_pow a n)) = true.
Proof. intros Hm Hn. now apply Seq_pow_add_eq. Qed.

(** [[1, 1] ** (2 + 1)]. *)
Lemma Seq_pow_adds_exponents_witness :
  Seq_eq (Seq_pow (SeqZ [1; 1]) (2 + 1))
         (Seq_mul (Seq_pow (SeqZ [1; 1]) 2) (Seq_pow (SeqZ [1; 1]) 1)) = true.
Proof. apply (Seq_pow_adds_exponents (SeqZ [1; 1]) 2 1); lia. Defined.

(** [Seq.__pow__] with an exponent that is zero or negative: the loop does
    not run and the power is [Seq(1)], whatever the base is. *)
Theorem Seq_pow_nonpositive (a : Seq Z) (n : Z) :
  n <= 0 -> Seq_pow a n = SeqZ [1].
Proof. intro H. exact (Seq_pow_base a n H). Qed.

(** [[2, 3] ** -2]. *)
Lemma Seq_pow_nonpositive_witness : Seq_pow (SeqZ [2; 3]) (-2) = SeqZ [1].
Proof. apply (Seq_pow_nonpositive (SeqZ [2; 3]) (-2)). lia. Defined.

(** [Seq.__getitem__] at a slice: a bound or a step that is [0] takes its
    default as [None] does, so [s[:0]] and [s[0:0:0]] are [s[:]], the
    whole sequence, and [s[:] == s]. *)
Theorem Seq_slice_defaults (s : Seq Z) :
  Seq_getitem_slice s None (Some 0) None = Seq_getitem_slice s None None None /\
  Seq_getitem_slice s (Some 0) (Some 0) (Some 0) = Seq_getitem_slice s None None None /\
  Seq_eq (Seq_getitem_slice s None None None) s = true.
Proof.
  split; [reflexivity|]. split; [reflexivity|]. exact (proj2 (Seq_slice_whole s)).
Qed.

(** [s[start:stop:step]] with a positive step and a [stop] that is not
    [0]: coefficient [k] of the slice is [s[start + k * step]] while that
    index is below [stop], and [0] from there on; a negative [start] is
    not counted from the end, it reads zeros in front of the sequence. *)
Theorem Seq_slice_coefficients (s : Seq Z) (start stop step k : Z) :
  0 < step -> stop <> 0 ->
  Seq_getitem (Seq_getitem_slice s (Some start) (Some stop) (Some step)) k =
  if (0 <=? k) && (start + k * step <? stop)
  then Seq_getitem s (start + k * step) else 0.
Proof. intros Hs Hstop. exact (Seq_slice_getitem s start stop step k Hs Hstop). Qed.

(** [[1, 2, 3, 4, 5][-1:4:2]] is [[0, 2, 4]]; its coefficient [1]. *)
Lemma Seq_slice_coefficients_witness :
  Seq_getitem (Seq_getitem_slice (SeqZ [1; 2; 3; 4; 5]) (Some (-1)) (Some 4) (Some 2)) 1 =
  if (0 <=? 1) && (-1 + 1 * 2 <? 4)
  then Seq_getitem (SeqZ [1; 2; 3; 4; 5]) (-1 + 1 * 2) else 0.
Proof.
  apply (Seq_slice_coefficients (SeqZ [1; 2; 3; 4; 5]) (-1) 4 2 1); lia.
Defined.

(** [Seq.f] inverts [1 - x * a]: the product of [a.f(l)] with
    [Seq([1]) - x * a], for the module's [x = Seq([0, 1])], has coefficient
    [1] at index [0] and [0] at every other index below [l]. *)
Theorem Seq_f_is_reciprocal (a : Seq Z) (l n : Z) :
  0 <= n < l ->
  Seq_getitem (Seq_mul (Seq_f a l) (Seq_sub (Seq_init [1]) (Seq_mul x a))) n =
  if n =? 0 then 1 else 0.
Proof. intro Hn. exact (Seq_f_reciprocal a l n Hn). Qed.

(** [[1, 1].f(5) * (Seq([1]) - x * [1, 1])] at index [3]. *)
Lemma Seq_f_is_reciprocal_witness :
  Seq_getitem (Seq_mul (Seq_f (SeqZ [1; 1]) 5)
                       (Seq_sub (Seq_init [1]) (Seq_mul x (SeqZ [1; 1])))) 3 =
  if 3 =? 0 then 1 else 0.
Proof. apply (Seq_f_is_reciprocal (SeqZ [1; 1]) 5 3). lia. Defined.

(** [Seq.aerate(a)] for [a >= 1] on a sequence with [len(s) * a >= 2]:
    the result stores [len(s) * a] coefficients; coefficient [j] is
    [s[j // a]] where [a] divides [j], and [0] elsewhere. *)
Theorem Seq_aerate_coefficients (s : Seq Z) (a : Z) :
  1 <= a -> 2 <= Seq_len s * a ->
  exists out : Seq Z,
    Seq_aerate s a = Ok out /\
    Z.of_nat (length (Seq_val out)) = Seq_len s * a /\
    forall j, Seq_getitem out j = if j mod a =? 0 then Seq_getitem s (j / a) else 0.
Proof. intros Ha Hl. exact (Seq_aerate_getitem s a Ha Hl). Qed.

(** [[1, 1].aerate(2)], which stores [[1, 0, 1, 0]]. *)
Lemma Seq_aerate_coefficients_witness :
  exists out : Seq Z,
    Seq_aerate (SeqZ [1; 1]) 2 = Ok out /\
    Z.of_nat (length (Seq_val out)) = Seq_len (SeqZ [1; 1]) * 2 /\
    forall j, Seq_getitem out j =
              if j mod 2 =? 0 then Seq_getitem (SeqZ [1; 1]) (j / 2) else 0.
Proof.
  apply (Seq_aerate_coefficients (SeqZ [1; 1]) 2); [lia | vm_compute; discriminate].
Defined.

(** [Seq.aerate(a)] where [len(s) * a <= 1]: [a = 0] raises the
    [ValueError] of [range]; a sequence of one coefficient aerated by [1]
    comes back as the single stored zero, its coefficient lost, because
    the assignment into [Seq([0])], of length [0], is dropped; in every
    other case (a negative [a], a sequence of length [0]) the result is
    the empty sequence. *)
Theorem Seq_aerate_edges (s : Seq Z) (a : Z) :
  Seq_len s * a <= 1 ->
  Seq_aerate s a =
  if a =? 0 then Raise ValueError
  else Ok (mkSeq (if Seq_len s * a =? 1 then [0] else [])).
Proof.
  intro Hl. destruct (Z.eqb_spec a 0) as [->|Ha]; [reflexivity|].
  exact (Seq_aerate_short s a Ha Hl).
Qed.

(** [[5].aerate(1)] is [[0]]. *)
Lemma Seq_aerate_edges_witness : Seq_aerate (SeqZ [5]) 1 = Ok (SeqZ [0]).
Proof. apply (Seq_aerate_edges (SeqZ [5]) 1). vm_compute. discriminate. Defined.

(** [Seq.__mod__] by an integer that is not zero: the result stores as
    many coefficients, coefficient [k] is [s[k] % o], which lies in
    [0 .. o - 1] for a positive [o] and in [o + 1 .. 0] for a negative one. *)
Theorem Seq_mod_coefficients (s : Seq Z) (o : Z) :
  o <> 0 ->
  exists r : Seq Z,
    Seq_mod s o = Ok r /\
    length (Seq_val r) = length (Seq_val s) /\
    (forall k, Seq_getitem r k = Seq_getitem s k mod o) /\
    (0 < o -> forall k, 0 <= Seq_getitem r k < o) /\
    (o < 0 -> forall k, o < Seq_getitem r k <= 0).
Proof.
  intro Ho. eexists. split; [exact (Seq_mod_ok s o Ho)|].
  split; [cbn [Seq_val]; apply length_map|].
  split; [intro k; apply Seq_mod_getitem|]. split.
  - intros H k. rewrite Seq_mod_getitem. apply Z.mod_pos_bound. exact H.
  - intros H k. rewrite Seq_mod_getitem. apply Z.mod_neg_bound. exact H.
Qed.

(** [[5, -3, 7] % 4] is [[1, 1, 3]]. *)
Lemma Seq_mod_coefficients_witness :
  exists r : Seq Z,
    Seq_mod (SeqZ [5; -3; 7]) 4 = Ok r /\
    length (Seq_val r) = length (Seq_val (SeqZ [5; -3; 7])) /\
    (forall k, Seq_getitem r k = Seq_getitem (SeqZ [5; -3; 7]) k mod 4) /\
    (0 < 4 -> forall k, 0 <= Seq_getitem r k < 4) /\
    (4 < 0 -> forall k, 4 < Seq_getitem r k <= 0).
Proof. apply (Seq_mod_coefficients (SeqZ [5; -3; 7]) 4). lia. Defined.

(** On integer coefficients [%] goes through the sum and the Cauchy
    product: reducing [a] and [b] first, then their sum or product, gives
    a sequence [==] to the reduced sum or product of [a] and [b]. *)
Theorem Seq_mod_of_sum_and_product (a b : Seq Z) (o : Z) :
  o <> 0 ->
  exists ra rb : Seq Z,
    Seq_mod a o = Ok ra /\ Seq_mod b o = Ok rb /\
    (exists u v : Seq Z,
        Seq_mod (Seq_add a b) o = Ok u /\ Seq_mod (Seq_add ra rb) o = Ok v /\
        Seq_eq u v = true) /\
    (exists u v : Seq Z,
        Seq_mod (Seq_mul a b) o = Ok u /\ Seq_mod (Seq_mul ra rb) o = Ok v /\
        Seq_eq u v = true).
Proof.
  intro Ho. eexists. eexists.
  split; [exact (Seq_mod_ok a o Ho)|]. split; [exact (Seq_mod_ok b o Ho)|]. split.
  - eexists. eexists. split; [exact (Seq_mod_ok _ o Ho)|].
    split; [exact (Seq_mod_ok _ o Ho)|].
    apply Seq_eq_true. intro k. rewrite !Seq_mod_getitem.
    rewrite (Seq_getitem_add a b k), (Seq_getitem_add (mkSeq _) (mkSeq _) k).
    rewrite !Seq_mod_getitem. apply Zplus_mod.
  - eexists. eexists. split; [exact (Seq_mod_ok _ o Ho)|].
    split; [exact (Seq_mod_ok _ o Ho)|].
    apply Seq_eq_true. intro k. rewrite !Seq_mod_getitem.
    rewrite (Seq_getitem_mul a b k), (Seq_getitem_mul (mkSeq _) (mkSeq _) k).
    rewrite zsum_mod. symmetry. rewrite zsum_mod. f_equal.
    apply zsum_ext. intros j Hj. cbv beta. rewrite !Seq_mod_getitem.
    symmetry. apply Zmult_mod.
Qed.

(** [[1, 2] * [3, 4]] and [[1, 2] + [3, 4]] modulo [3]. *)
Lemma Seq_mod_of_sum_and_product_witness :
  exists ra rb : Seq Z,
    Seq_mod (SeqZ [1; 2]) 3 = Ok ra /\ Seq_mod (SeqZ [3; 4]) 3 = Ok rb /\
    (exists u v : Seq Z,
        Seq_mod (Seq_add (SeqZ [1; 2]) (SeqZ [3; 4])) 3 = Ok u /\
        Seq_mod (Seq_add ra rb) 3 = Ok v /\ Seq_eq u v = true) /\
    (exists u v : Seq Z,
        Seq_mod (Seq_mul (SeqZ [1; 2]) (SeqZ [3; 4])) 3 = Ok u /\
        Seq_mod (Seq_mul ra rb) 3 = Ok v /\ Seq_eq u v = true).
Proof. apply (Seq_mod_of_sum_and_product (SeqZ [1; 2]) (SeqZ [3; 4]) 3). lia. Defined.


(** The order reads stored zeros that [==] does not: for the sequence [t]
    that stores one more zero than [s], [s == t] and yet [s < t], and
    [t <= s] fails. *)
Theorem Seq_order_sees_stored_zeros (s : Seq Z) :
  Seq_eq s (Seq_append s 0) = true /\
  Seq_lt s (Seq_append s 0) = true /\
  Seq_le (Seq_append s 0) s = false.
Proof.
  assert (Hlt : Seq_lt s (Seq_append s 0) = true) by apply list_lt_snoc.
  split; [|split; [exact Hlt|]].
  - apply Seq_eq_true. intro k.
    destruct (Z.lt_ge_cases k (Z.of_nat (length (Seq_val s)))) as [Hk|Hk].
    + symmetry. now apply Seq_getitem_append_old.
    + rewrite (Seq_getitem_beyond s k Hk).
      destruct (Z.eq_dec k (Z.of_nat (length (Seq_val s)))) as [E|E].
      * symmetry. now apply Seq_getitem_append_new.
      * symmetry. apply Seq_getitem_beyond. unfold Seq_append. cbn [Seq_val].
        rewrite length_app. cbn [length]. lia.
  - unfold Seq_lt in Hlt. unfold Seq_le. rewrite list_lt_le in Hlt.
    now apply negb_true_iff in Hlt.
Qed.

(** [Seq.__contains__]: [i in s] says that [i] and [s] have the same
    coefficients below [len(i)]; so [s] contains each of its slices
    [s[:n]], and every sequence that is [==] to it. *)
Theorem Seq_contains_prefix (s i : Seq Z) (n : Z) :
  (Seq_contains s i = true <->
   forall k, 0 <= k < Seq_len i -> Seq_getitem i k = Seq_getitem s k) /\
  Seq_contains s (Seq_getitem_slice s None (Some n) None) = true /\
  (Seq_eq s i = true -> Seq_contains s i = true).
Proof.
  split; [apply Seq_contains_true|]. split.
  - apply Seq_contains_true. intros k Hk.
    destruct (Z.eq_dec n 0) as [->|Hn].
    + destruct (Seq_slice_whole s) as [E H]. rewrite E in *.
      now apply Seq_eq_true.
    + rewrite Seq_slice_stop in * by exact Hn. rewrite Seq_slice_to_getitem.
      assert (Hb : Z.of_nat (length (Seq_val (Seq_slice_to s n))) = Z.max 0 (n - 0)).
      { unfold Seq_slice_to, Seq_init. cbn [Seq_val]. rewrite length_map.
        apply length_map_range. }
      pose proof (Seq_len_bounds (Seq_slice_to s n)) as Hb'.
      destruct (Z.leb_spec 0 k), (Z.ltb_spec k n); cbn [andb]; try reflexivity; lia.
  - intro H. apply Seq_contains_true. intros k _. symmetry. revert k.
    now apply Seq_eq_true.
Qed.

(** ** Signatures *)

(** [Sig.__add__], signature addition [A + B - x * A * B]: commutative and
    associative under [==], with [Sig(0)] as identity on both sides; and
    [A - A == Sig(0)] for [Sig.__sub__]. *)
Theorem Sig_add_laws (A B C : Sig Z) :
  Sig_eq (Sig_add A B) (Sig_add B A) = true /\
  Sig_eq (Sig_add (Sig_add A B) C) (Sig_add A (Sig_add B C)) = true /\
  Sig_eq (Sig_add A (Sig_of_num 0)) A = true /\
  Sig_eq (Sig_add (Sig_of_num 0) A) A = true /\
  Sig_eq (Sig_sub A A) (Sig_of_num 0) = true.
Proof.
  split; [apply Sig_add_comm_eq|]. split; [apply Sig_add_assoc_eq|].
  assert (H0 : Sig_len (Sig_of_num 0) = 0) by reflexivity.
  split; [exact (proj1 (Sig_add_zero_eq A (Sig_of_num 0) H0))|].
  split; [exact (proj2 (Sig_add_zero_eq A (Sig_of_num 0) H0))|].
  apply Seq_eq_true. intro k.
  change (Seq_getitem (Sig_val (Sig_sub A A)) k) with (Sig_getitem (Sig_sub A A) k).
  rewrite (Sig_sub_self A k). symmetry.
  exact (Seq_getitem_zero_seq (PE := PyNumExact_Z) k).
Qed.

(** On integer coefficients [f] takes signature addition to the Cauchy
    product: below [l], [(A + B).f(l)] has the coefficients of the product
    of the sequences of [A.f(l)] and [B.f(l)]. *)
Theorem Sig_f_of_sum (A B : Sig Z) (l n : Z) :
  0 <= n < l ->
  Sig_getitem (Sig_f (Sig_add A B) l) n =
  Seq_getitem (Seq_mul (Sig_val (Sig_f A l)) (Sig_val (Sig_f B l))) n.
Proof. intro Hn. exact (Sig_f_add A B l n Hn). Qed.

(** [(Sig([1, 1]) + Sig([2])).f(6)] at index [4]. *)
Lemma Sig_f_of_sum_witness :
  Sig_getitem (Sig_f (Sig_add (SigZ [1; 1]) (SigZ [2])) 6) 4 =
  Seq_getitem (Seq_mul (Sig_val (Sig_f (SigZ [1; 1]) 6)) (Sig_val (Sig_f (SigZ [2]) 6))) 4.
Proof. apply (Sig_f_of_sum (SigZ [1; 1]) (SigZ [2]) 6 4). lia. Defined.

(** On integer coefficients [Sig.__sub__] undoes [Sig.__add__] on the
    window of [o.f()]: below [std_l = 30], [(A + B) - B] and [(A - B) + B]
    have the coefficients of [A]. *)
Theorem Sig_sub_undoes_add (A B : Sig Z) (n : Z) :
  0 <= n < std_l ->
  Sig_getitem (Sig_sub (Sig_add A B) B) n = Sig_getitem A n /\
  Sig_getitem (Sig_add (Sig_sub A B) B) n = Sig_getitem A n.
Proof.
  intro Hn. split; [exact (Sig_add_sub A B n Hn) | exact (Sig_sub_add A B n Hn)].
Qed.

(** [(Sig([1, 2]) + Sig([3])) - Sig([3])] at index [1]. *)
Lemma Sig_sub_undoes_add_witness :
  Sig_getitem (Sig_sub (Sig_add (SigZ [1; 2]) (SigZ [3])) (SigZ [3])) 1 =
    Sig_getitem (SigZ [1; 2]) 1 /\
  Sig_getitem (Sig_add (Sig_sub (SigZ [1; 2]) (SigZ [3])) (SigZ [3])) 1 =
    Sig_getitem (SigZ [1; 2]) 1.
Proof.
  apply (Sig_sub_undoes_add (SigZ [1; 2]) (SigZ [3]) 1). unfold std_l. lia.
Defined.

(** The window is sharp: [(Sig([1]) + Sig([1])) - Sig([1])] has
    coefficient [-1] at index [30], and is not [== Sig([1])]. *)
Example Sig_sub_beyond_std_l :
  Sig_getitem (Sig_sub (Sig_add (SigZ [1]) (SigZ [1])) (SigZ [1])) 30 = -1 /\
  Sig_eq (Sig_sub (Sig_add (SigZ [1]) (SigZ [1])) (SigZ [1])) (SigZ [1]) = false.
Proof. split; vm_compute; reflexivity. Qed.

(** ** Blocks *)

(** [Block.blank(l)]: for [l <= 0] the [ValueError] of [max([])]; for
    [l >= 1] a block of [l] rows that store [l] coefficients each, every
    entry zero; its [L] is [l], except for [l = 1], where the one row is
    [Seq([0])], of length [0]. *)
Theorem Block_blank_cases (l : Z) :
  (l <= 0 -> Block_blank (N := Z) l = Raise ValueError) /\
  (1 <= l ->
   exists B : Block Z,
     Block_blank l = Ok B /\ grid B l l /\ Block_l B = std_l /\
     Block_L B = (if l =? 1 then 0 else l) /\
     forall i j, Block_entry B i j = 0).
Proof.
  split.
  - apply Block_blank_none.
  - intro H. exact (Block_blank_ok (PE := PyNumExact_Z) l H).
Qed.

(** [Block.blank(3)]. *)
Lemma Block_blank_cases_witness :
  exists B : Block Z,
    Block_blank 3 = Ok B /\ grid B 3 3 /\ Block_l B = std_l /\
    Block_L B = (if 3 =? 1 then 0 else 3) /\
    forall i j, Block_entry B i j = 0.
Proof. apply (proj2 (Block_blank_cases 3)). lia. Defined.

(** [Block.identity(l)] for [l >= 2]: [l] rows of [l] coefficients, [1]
    on the diagonal and [0] at every other entry. *)
Theorem Block_identity_diagonal (l : Z) :
  2 <= l ->
  exists B : Block Z,
    Block_identity l = Ok B /\ grid B l l /\ Block_l B = std_l /\ Block_L B = l /\
    forall i j, Block_entry B i j =
                if (i =? j) && (0 <=? i) && (i <? l) then 1 else 0.
Proof. intro H. exact (Block_identity_entries (PE := PyNumExact_Z) l H). Qed.

(** [Block.identity(3)]. *)
Lemma Block_identity_diagonal_witness :
  exists B : Block Z,
    Block_identity 3 = Ok B /\ grid B 3 3 /\ Block_l B = std_l /\ Block_L B = 3 /\
    forall i j, Block_entry B i j =
                if (i =? j) && (0 <=? i) && (i <? 3) then 1 else 0.
Proof. apply (Block_identity_diagonal 3). lia. Defined.

(** [Block.__add__] and [Block.__sub__] for [self.L >= 2]: the result is
    a square of side [self.L]; inside it entry [(i, j)] is the sum, or the
    difference, of the two entries, and what [other] has outside it is
    dropped. *)
Theorem Block_add_sub_entries (A B : Block Z) :
  2 <= Block_L A ->
  exists C D : Block Z,
    Block_add A B = Ok C /\ Block_sub A B = Ok D /\
    grid C (Block_L A) (Block_L A) /\ grid D (Block_L A) (Block_L A) /\
    (forall i j, 0 <= i < Block_L A -> 0 <= j < Block_L A ->
                 Block_entry C i j = Block_entry A i j + Block_entry B i j /\
                 Block_entry D i j = Block_entry A i j - Block_entry B i j) /\
    (forall i j, ~ (0 <= i < Block_L A /\ 0 <= j < Block_L A) ->
                 Block_entry C i j = 0 /\ Block_entry D i j = 0).
Proof.
  intro HL.
  destruct (Block_cellwise_entries (PE := PyNumExact_Z) Z.add A B HL)
    as (C & EC & GC & HC & HC0).
  destruct (Block_cellwise_entries (PE := PyNumExact_Z) Z.sub A B HL)
    as (D & ED & GD & HD & HD0).
  exists C, D. split; [exact EC|]. split; [exact ED|].
  split; [exact GC|]. split; [exact GD|]. split.
  - intros i j Hi Hj. split; [now apply HC | now apply HD].
  - intros i j H. split; [now apply HC0 | now apply HD0].
Qed.

(** [2 I + 2 I] and [2 I - 2 I]. *)
Lemma Block_add_sub_entries_witness :
  exists C D : Block Z,
    Block_add two_I two_I = Ok C /\ Block_sub two_I two_I = Ok D /\
    grid C (Block_L two_I) (Block_L two_I) /\ grid D (Block_L two_I) (Block_L two_I) /\
    (forall i j, 0 <= i < Block_L two_I -> 0 <= j < Block_L two_I ->
                 Block_entry C i j = Block_entry two_I i j + Block_entry two_I i j /\
                 Block_entry D i j = Block_entry two_I i j - Block_entry two_I i j) /\
    (forall i j, ~ (0 <= i < Block_L two_I /\ 0 <= j < Block_L two_I) ->
                 Block_entry C i j = 0 /\ Block_entry D i j = 0).
Proof. apply (Block_add_sub_entries two_I two_I). simpl. lia. Defined.

(** [Block.__add__] and [Block.__sub__] for [self.L <= 1]: with
    [self.L = 1] the result is the block [[0]] whatever the operands hold,
    since its one row [Seq([0])] has length [0] and drops the assignment;
    with [self.L <= 0] the [ValueError] of [max([])]. *)
Theorem Block_add_sub_narrow (A B : Block Z) :
  Block_L A <= 1 ->
  Block_add A B =
    (if Block_L A =? 1 then Ok (mkBlock std_l 0 [SeqZ [0]]) else Raise ValueError) /\
  Block_sub A B =
    (if Block_L A =? 1 then Ok (mkBlock std_l 0 [SeqZ [0]]) else Raise ValueError).
Proof.
  intro HL. destruct (Z.eqb_spec (Block_L A) 1) as [E|E].
  - split; exact (Block_cellwise_one (PE := PyNumExact_Z) _ A B E).
  - split; apply Block_cellwise_none; lia.
Qed.

(** [[[1]] + [[1]]] is [[[0]]]. *)
Lemma Block_add_sub_narrow_witness :
  Block_add one_row one_row = Ok (mkBlock std_l 0 [SeqZ [0]]) /\
  Block_sub one_row one_row = Ok (mkBlock std_l 0 [SeqZ [0]]).
Proof. apply (Block_add_sub_narrow one_row one_row). simpl. lia. Defined.

(** [Block.__mul__] of two blocks: the result has [max(self.l, other.l)]
    rows of [max(self.L, other.L)] coefficients; on the rows it has,
    entry [(i, j)] inside the square of side [self.L] is the sum of
    [self[i][k] * other[k][j]] for [k < self.L]; every other entry, and
    every row from [max(self.l, other.l)] on, is zero. *)
Theorem Block_mul_is_matrix_product (A B : Block Z) :
  1 <= Z.max (Block_l A) (Block_l B) -> 2 <= Z.max (Block_L A) (Block_L B) ->
  exists C : Block Z,
    Block_mul A B = Ok C /\
    grid C (Z.max (Block_l A) (Block_l B)) (Z.max (Block_L A) (Block_L B)) /\
    Block_l C = std_l /\ Block_L C = Z.max (Block_L A) (Block_L B) /\
    (forall i j, 0 <= i < Block_L A -> i < Z.max (Block_l A) (Block_l B) ->
                 0 <= j < Block_L A ->
                 Block_entry C i j =
                 zsum (fun k => Block_entry A i k * Block_entry B k j) (Block_L A)) /\
    (forall i j, ~ (0 <= i < Block_L A /\ 0 <= j < Block_L A) ->
                 Block_entry C i j = 0) /\
    (forall i j, Z.max (Block_l A) (Block_l B) <= i -> Block_entry C i j = 0).
Proof.
  intros HR HW.
  destruct (Block_mul_entries (PE := PyNumExact_Z) A B HR HW)
    as (C & EC & GC & Hl & HL & HC & HC0).
  exists C. split; [exact EC|]. split; [exact GC|]. split; [exact Hl|].
  split; [exact HL|]. split; [exact HC|]. split; [exact HC0|].
  intros i j Hi. apply (Block_entry_out (PE := PyNumExact_Z)).
  destruct GC as [GR _]. lia.
Qed.

(** [2 I * 2 I]. *)
Lemma Block_mul_is_matrix_product_witness :
  exists C : Block Z,
    Block_mul two_I two_I = Ok C /\
    grid C (Z.max (Block_l two_I) (Block_l two_I)) (Z.max (Block_L two_I) (Block_L two_I)) /\
    Block_l C = std_l /\ Block_L C = Z.max (Block_L two_I) (Block_L two_I) /\
    (forall i j, 0 <= i < Block_L two_I -> i < Z.max (Block_l two_I) (Block_l two_I) ->
                 0 <= j < Block_L two_I ->
                 Block_entry C i j =
                 zsum (fun k => Block_entry two_I i k * Block_entry two_I k j)
                      (Block_L two_I)) /\
    (forall i j, ~ (0 <= i < Block_L two_I /\ 0 <= j < Block_L two_I) ->
                 Block_entry C i j = 0) /\
    (forall i j, Z.max (Block_l two_I) (Block_l two_I) <= i -> Block_entry C i j = 0).
Proof.
  apply (Block_mul_is_matrix_product two_I two_I); vm_compute; discriminate.
Defined.



(** [Block.g_matrix(s, g)]: [None] for an empty [g]; for one signature
    [g_p] a block of [std_l] rows of [std_l] coefficients whose entry
    [(n, y)], for [y <= n], is the sum of [s[k][y] * g_p.f(std_l)[n - k]]
    for [k = 0..n], and zero above the diagonal. *)
Theorem Block_g_matrix_entries (S : Block Z) (g : Seq Z) :
  Block_g_matrix S [] = Ok None /\
  exists C : Block Z,
    Block_g_matrix S [g] = Ok (Some C) /\ grid C std_l std_l /\
    (forall n y, 0 <= y <= n -> n < std_l ->
                 Block_entry C n y =
                 zsum (fun k => Block_entry S k y * Seq_getitem (Seq_f g std_l) (n - k))
                      (n + 1)) /\
    (forall n y, ~ (0 <= y <= n /\ n < std_l) -> Block_entry C n y = 0).
Proof.
  split; [reflexivity|].
  destruct (generate_next_matrix_entries (PE := PyNumExact_Z) S g) as (C & EC & GC & HC & HC0).
  exists C. split; [|split; [exact GC|split; [|exact HC0]]].
  - rewrite Block_g_matrix_one, EC. reflexivity.
  - intros n y Hy Hn. rewrite (HC n y Hy Hn). apply zsum_ext. intros k Hk.
    cbv beta. rewrite <- (f_coeff_eq (PE := PyNumExact_Z) g std_l (n - k)) by lia.
    reflexivity.
Qed.

(** [Block.power(d, l)] without taper: [max(1, l)] rows, row [n] is
    [d ** n]; so [l <= 0] still gives the one row [Seq([1])]. *)
Theorem Block_power_rows_are_powers (d : Seq Z) (l : Z) :
  exists B : Block Z,
    Block_power d l false = Ok B /\ Block_len B = Z.max 1 l /\
    Block_l B = std_l /\
    forall n, 0 <= n < Z.max 1 l -> Block_getitem B n = Seq_pow d n.
Proof. exact (Block_power_rows (PE := PyNumExact_Z) d l). Qed.

(** [Block.i] raises its [ValueError] when the block has fewer than two
    rows or its entry [(0, 0)] is not [1], and returns a sequence in every
    other case. *)
Theorem Block_i_needs_corner_one (M : Block Z) (a : Z) (g : Seq Z) :
  (Block_len M <= 1 \/ Block_entry M 0 0 <> 1 -> Block_i M a g = Raise ValueError) /\
  (2 <= Block_len M -> Block_entry M 0 0 = 1 -> exists r, Block_i M a g = Ok r).
Proof.
  split.
  - intro H. destruct (Z.le_gt_cases 2 (Block_len M)) as [H2|H2].
    + destruct H as [H|H]; [lia|].
      exact (proj2 (Block_i_corner (PE := PyNumExact_Z) M a g H2) H).
    + unfold Block_i. apply (Seq_i_raise (PE := PyNumExact_Z)).
      destruct (Z.eq_dec (Block_len M) 1) as [E|E].
      * rewrite (Block_f_one_row (PE := PyNumExact_Z) M a g E). discriminate.
      * assert (E0 : Block_len M = 0) by (unfold Block_len in *; lia).
        unfold Block_f. rewrite E0. discriminate.
  - intros H2 H1. exact (proj1 (Block_i_corner (PE := PyNumExact_Z) M a g H2) H1).
Qed.

(** [2 I] has corner [2]: its [i()] raises. *)
Lemma Block_i_needs_corner_one_witness :
  Block_i two_I 1 (SeqZ [1]) = Raise ValueError.
Proof.
  apply (proj1 (Block_i_needs_corner_one two_I 1 (SeqZ [1]))).
  right. vm_compute. discriminate.
Defined.

(** * Division on integers that binary64 holds

    [/] returns a float, and the loop of [Seq.__truediv__] goes on with
    floats.  While every number it meets is an integer below [2 ** 53],
    no operation rounds: the lemmas below follow the standard library's
    binary64 operations on such floats. *)

(** ** Digits and shifts *)

Lemma digits2_pos_bounds (m : positive) :
  2 ^ (Zpos (digits2_pos m) - 1) <= Zpos m < 2 ^ Zpos (digits2_pos m).
Proof.
  induction m as [m IH|m IH|]; cbn [digits2_pos].
  - rewrite Pos2Z.inj_succ. unfold Z.succ.
    replace (Z.pos (digits2_pos m) + 1 - 1) with ((Z.pos (digits2_pos m) - 1) + 1) by lia.
    rewrite !Z.pow_add_r by lia. change (2 ^ 1) with 2. lia.
  - rewrite Pos2Z.inj_succ. unfold Z.succ.
    replace (Z.pos (digits2_pos m) + 1 - 1) with ((Z.pos (digits2_pos m) - 1) + 1) by lia.
    rewrite !Z.pow_add_r by lia. change (2 ^ 1) with 2. lia.
  - cbn. lia.
Qed.

Lemma digits2_pos_unique (m : positive) (d : Z) :
  2 ^ (d - 1) <= Zpos m < 2 ^ d -> Zpos (digits2_pos m) = d.
Proof.
  intros [H1 H2]. pose proof (digits2_pos_bounds m) as [H3 H4].
  assert (Hd : 0 < d).
  { destruct (Z.lt_ge_cases 0 d) as [H|H]; [exact H|].
    assert (2 ^ d <= 1); [|lia].
    destruct (Z.eq_dec d 0) as [->|Hne]; [cbn; lia|].
    rewrite Z.pow_neg_r by lia. lia. }
  destruct (Z.lt_trichotomy (Zpos (digits2_pos m)) d) as [H|[H|H]]; [|exact H|].
  - assert (2 ^ Zpos (digits2_pos m) <= 2 ^ (d - 1)) by (apply Z.pow_le_mono_r; lia). lia.
  - assert (2 ^ d <= 2 ^ (Zpos (digits2_pos m) - 1)) by (apply Z.pow_le_mono_r; lia). lia.
Qed.

Lemma digits2_pos_scale (m M : positive) (n : Z) :
  0 <= n -> Zpos m = Zpos M * 2 ^ n ->
  Zpos (digits2_pos m) = Zpos (digits2_pos M) + n.
Proof.
  intros Hn Hm. apply digits2_pos_unique. pose proof (digits2_pos_bounds M) as [H1 H2].
  replace (Zpos (digits2_pos M) + n - 1) with ((Zpos (digits2_pos M) - 1) + n) by lia.
  rewrite !Z.pow_add_r by lia. rewrite Hm.
  assert (0 < 2 ^ n) by (apply Z.pow_pos_nonneg; lia). nia.
Qed.

Lemma iter_pos_nat {A : Type} (f : A -> A) (p : positive) (x : A) :
  iter_pos f p x = Nat.iter (Pos.to_nat p) f x.
Proof.
  revert x. induction p as [p IH|p IH|]; intro x; cbn [iter_pos].
  - rewrite !IH, Pos2Nat.inj_xI.
    replace (S (2 * Pos.to_nat p)) with (Pos.to_nat p + (Pos.to_nat p + 1))%nat by lia.
    rewrite !Nat.iter_add. reflexivity.
  - rewrite !IH, Pos2Nat.inj_xO.
    replace (2 * Pos.to_nat p)%nat with (Pos.to_nat p + Pos.to_nat p)%nat by lia.
    rewrite Nat.iter_add. reflexivity.
  - reflexivity.
Qed.

Lemma shr_1_iter (n : nat) (m M : positive) :
  Zpos m = Zpos M * 2 ^ Z.of_nat n ->
  Nat.iter n shr_1 {| shr_m := Zpos m; shr_r := false; shr_s := false |} =
  {| shr_m := Zpos M; shr_r := false; shr_s := false |}.
Proof.
  revert m. induction n as [|n IH]; intros m Hm.
  - change (Z.of_nat 0) with 0 in Hm. rewrite Z.pow_0_r, Z.mul_1_r in Hm.
    inversion Hm. reflexivity.
  - rewrite Nat.iter_succ_r.
    rewrite Nat2Z.inj_succ, Z.pow_succ_r in Hm by lia.
    destruct m as [m|m|]; [lia| |lia].
    cbn [shr_1 orb]. apply IH. lia.
Qed.

Lemma shr_exact (m M : positive) (e n : Z) :
  0 <= n -> Zpos m = Zpos M * 2 ^ n ->
  shr {| shr_m := Zpos m; shr_r := false; shr_s := false |} e n =
  ({| shr_m := Zpos M; shr_r := false; shr_s := false |}, e + n).
Proof.
  intros Hn Hm. destruct n as [|p|p]; [| |lia].
  - rewrite Z.pow_0_r, Z.mul_1_r in Hm. inversion Hm. cbn [shr]. now rewrite Z.add_0_r.
  - cbn [shr]. f_equal. rewrite iter_pos_nat. apply shr_1_iter.
    now rewrite positive_nat_Z.
Qed.

Lemma fexp_normal (e : Z) : -1021 <= e -> fexp prec emax e = e - 53.
Proof. intro H. unfold fexp, emin, prec, emax. lia. Qed.

(** Rounding a mantissa with [53] digits and trailing zeros drops the
    zeros. *)
Lemma round_aux_exact (s : bool) (m M : positive) (E n : Z) :
  Zpos (digits2_pos M) = 53 -> -1074 <= E <= 971 -> 0 <= n ->
  Zpos m = Zpos M * 2 ^ n ->
  binary_round_aux prec emax s (Zpos m) (E - n) loc_Exact = S754_finite s M E.
Proof.
  intros HM HE Hn Hm.
  assert (H1 : shr_fexp prec emax (Zpos m) (E - n) loc_Exact =
               ({| shr_m := Zpos M; shr_r := false; shr_s := false |}, E)).
  { unfold shr_fexp. cbn [Zdigits2 shr_record_of_loc].
    rewrite (digits2_pos_scale m M n Hn Hm), HM.
    rewrite fexp_normal by lia.
    replace (53 + n + (E - n) - 53 - (E - n)) with n by lia.
    rewrite (shr_exact m M (E - n) n Hn Hm). f_equal. lia. }
  assert (H2 : shr_fexp prec emax (Zpos M) E loc_Exact =
               ({| shr_m := Zpos M; shr_r := false; shr_s := false |}, E)).
  { unfold shr_fexp. cbn [Zdigits2 shr_record_of_loc]. rewrite HM.
    rewrite fexp_normal by lia. replace (53 + E - 53 - E) with 0 by lia.
    reflexivity. }
  unfold binary_round_aux. rewrite H1.
  cbn [shr_m loc_of_shr_record round_nearest_even]. rewrite H2. cbn [shr_m].
  replace (E <=? emax - prec) with true; [reflexivity|].
  symmetry. apply Z.leb_le. unfold emax, prec. lia.
Qed.

Lemma canon_mantissa (P : positive) :
  Zpos (digits2_pos P) <= 53 ->
  let M := Z.to_pos (Zpos P * 2 ^ (53 - Zpos (digits2_pos P))) in
  Zpos M = Zpos P * 2 ^ (53 - Zpos (digits2_pos P)) /\ Zpos (digits2_pos M) = 53.
Proof.
  intro Hd. cbn zeta.
  assert (Hp : 0 < 2 ^ (53 - Zpos (digits2_pos P))) by (apply Z.pow_pos_nonneg; lia).
  assert (HM : Zpos (Z.to_pos (Zpos P * 2 ^ (53 - Zpos (digits2_pos P)))) =
               Zpos P * 2 ^ (53 - Zpos (digits2_pos P))) by (apply Z2Pos.id; nia).
  split; [exact HM|].
  rewrite (digits2_pos_scale _ P (53 - Zpos (digits2_pos P))); [lia | lia | exact HM].
Qed.

(** Rounding [P * 2 ** k] at exponent [- k], once it has [53] digits. *)
Lemma round_aux_canon (s : bool) (m P : positive) (k : Z) :
  Zpos (digits2_pos P) <= 53 -> 0 <= k -> Zpos m = Zpos P * 2 ^ k ->
  2 ^ 52 <= Zpos m ->
  binary_round_aux prec emax s (Zpos m) (- k) loc_Exact = canon s P.
Proof.
  intros Hd Hk Hm Hbig. destruct (canon_mantissa P Hd) as [HM HdM]. cbn zeta in *.
  pose proof (digits2_pos_bounds P) as [HP1 HP2].
  pose proof (Pos2Z.is_pos (digits2_pos P)) as Hpos.
  assert (Hn : 53 - Zpos (digits2_pos P) <= k).
  { destruct (Z.le_gt_cases (53 - Zpos (digits2_pos P)) k) as [H|H]; [exact H|].
    exfalso.
    assert (H' : Zpos P * 2 ^ k < 2 ^ Zpos (digits2_pos P) * 2 ^ k).
    { assert (0 < 2 ^ k) by (apply Z.pow_pos_nonneg; lia). nia. }
    rewrite <- Z.pow_add_r in H' by lia.
    assert (2 ^ (Zpos (digits2_pos P) + k) <= 2 ^ 52) by (apply Z.pow_le_mono_r; lia).
    lia. }
  unfold canon.
  replace (- k) with (Zpos (digits2_pos P) - 53 - (k - (53 - Zpos (digits2_pos P)))) by lia.
  apply round_aux_exact; [exact HdM | lia | lia |].
  rewrite HM, Hm, <- Z.mul_assoc, <- Z.pow_add_r by lia. do 2 f_equal. lia.
Qed.


Lemma iter_xO_value (m d : positive) :
  Zpos (Pos.iter xO m d) = Zpos m * 2 ^ Zpos d.
Proof.
  rewrite <- Z.shiftl_mul_pow2 by lia. cbn [Z.shiftl].
  apply (Pos.iter_swap_gen _ _ Zpos xO (Z.mul 2)). reflexivity.
Qed.

(** Normalising [P * 2 ** k] at exponent [- k] gives the float of [P]. *)
Lemma round_canon (s : bool) (m P : positive) (k : Z) :
  Zpos (digits2_pos P) <= 53 -> 0 <= k -> Zpos m = Zpos P * 2 ^ k ->
  binary_round prec emax s m (- k) = canon s P.
Proof.
  intros Hd Hk Hm. unfold binary_round.
  rewrite (digits2_pos_scale m P k Hk Hm).
  pose proof (Pos2Z.is_pos (digits2_pos P)) as Hpos.
  rewrite fexp_normal by lia. unfold shl_align.
  destruct (canon_mantissa P Hd) as [HM HdM]. cbn zeta in *.
  destruct (Z.pos (digits2_pos P) + k + - k - 53 - - k) as [|d|d] eqn:E.
  - apply round_aux_canon; try assumption.
    pose proof (digits2_pos_bounds m) as [H1 _].
    rewrite (digits2_pos_scale m P k Hk Hm) in H1.
    replace (Zpos (digits2_pos P) + k - 1) with 52 in H1 by lia. exact H1.
  - apply round_aux_canon; try assumption.
    pose proof (digits2_pos_bounds m) as [H1 _].
    rewrite (digits2_pos_scale m P k Hk Hm) in H1.
    assert (2 ^ 52 <= 2 ^ (Zpos (digits2_pos P) + k - 1)) by (apply Z.pow_le_mono_r; lia).
    lia.
  - unfold canon.
    replace (Z.pos (digits2_pos P) + k + - k - 53)
      with (Zpos (digits2_pos P) - 53 - 0) by lia.
    apply round_aux_exact; [exact HdM | lia | lia |].
    rewrite iter_xO_value, HM, Hm, Z.pow_0_r, Z.mul_1_r, <- Z.mul_assoc, <- Z.pow_add_r by lia.
    do 2 f_equal. lia.
Qed.

Lemma small_digits (P : positive) : Zpos P < 2 ^ 53 -> Zpos (digits2_pos P) <= 53.
Proof.
  intro H. pose proof (digits2_pos_bounds P) as [H1 _].
  destruct (Z.le_gt_cases (Zpos (digits2_pos P)) 53) as [Hd|Hd]; [exact Hd|].
  assert (2 ^ 53 <= 2 ^ (Zpos (digits2_pos P) - 1)) by (apply Z.pow_le_mono_r; lia). lia.
Qed.

(** Normalising [z * 2 ** k] at exponent [- k]. *)
Lemma normalize_val (z k : Z) :
  small z -> 0 <= k ->
  fin_val (binary_normalize prec emax (z * 2 ^ k) (- k) false) z.
Proof.
  intros Hz Hk. unfold small in Hz.
  assert (Hp : 0 < 2 ^ k) by (apply Z.pow_pos_nonneg; lia).
  destruct z as [|P|P]; cbn [fin_val].
  - rewrite Z.mul_0_l. cbn. now exists false.
  - destruct (Zpos P * 2 ^ k) as [|m|m] eqn:E; try lia.
    cbn [binary_normalize]. apply round_canon; [apply small_digits; lia | lia | lia].
  - destruct (Zneg P * 2 ^ k) as [|m|m] eqn:E; try lia.
    cbn [binary_normalize]. apply round_canon; [apply small_digits; lia | lia | lia].
Qed.

Lemma float_of_int_val (z : Z) : small z -> fin_val (float_of_int z) z.
Proof.
  intro Hz. unfold float_of_int.
  replace z with (z * 2 ^ 0) at 1 by (rewrite Z.pow_0_r; lia).
  exact (normalize_val z 0 Hz ltac:(lia)).
Qed.

(** The shape of the float of an integer that is not zero *)
Lemma fin_val_finite (f : spec_float) (z : Z) :
  fin_val f z -> z <> 0 -> small z ->
  exists M E, f = S754_finite (z <? 0) M E /\ -52 <= E <= 0 /\
              Zpos M = Z.abs z * 2 ^ (- E) /\ Zpos (digits2_pos M) = 53.
Proof.
  intros Hf Hz Hs. unfold small in Hs.
  destruct z as [|P|P]; [congruence| |]; cbn [fin_val] in Hf; subst f; unfold canon;
    (assert (Hd : Zpos (digits2_pos P) <= 53) by (apply small_digits; lia));
    destruct (canon_mantissa P Hd) as [HM HdM]; cbn zeta in *;
    pose proof (Pos2Z.is_pos (digits2_pos P)) as Hpos;
    eexists; eexists; (split; [reflexivity|]); (split; [lia|]); (split; [|exact HdM]);
    rewrite HM; cbn [Z.abs]; do 2 f_equal; lia.
Qed.

Lemma fin_val_zero (f : spec_float) : fin_val f 0 -> exists s, f = S754_zero s.
Proof. intro H. exact H. Qed.

Lemma shl_align_fst (M : positive) (E ez : Z) :
  ez <= E -> Zpos (fst (shl_align M E ez)) = Zpos M * 2 ^ (E - ez).
Proof.
  intro H. unfold shl_align.
  destruct (ez - E) as [|d|d] eqn:Ed; cbn [fst]; try lia.
  - replace (E - ez) with 0 by lia. rewrite Z.pow_0_r. lia.
  - rewrite iter_xO_value. do 2 f_equal. lia.
Qed.

Lemma cond_Zopp_abs (z : Z) : cond_Zopp (z <? 0) (Z.abs z) = z.
Proof. unfold cond_Zopp. destruct (Z.ltb_spec z 0); lia. Qed.

Lemma cond_Zopp_mul (s : bool) (a b : Z) : cond_Zopp s (a * b) = cond_Zopp s a * b.
Proof. unfold cond_Zopp. destruct s; lia. Qed.

(** The aligned mantissa of the float of [z], with its sign *)
Lemma aligned_mantissa (z : Z) (M : positive) (E ez : Z) :
  ez <= E -> E <= 0 -> Zpos M = Z.abs z * 2 ^ (- E) ->
  cond_Zopp (z <? 0) (Zpos (fst (shl_align M E ez))) = z * 2 ^ (- ez).
Proof.
  intros H1 H2 HM. rewrite shl_align_fst by exact H1. rewrite HM.
  rewrite <- Z.mul_assoc, <- Z.pow_add_r by lia.
  replace (- E + (E - ez)) with (- ez) by lia.
  rewrite cond_Zopp_mul, cond_Zopp_abs. reflexivity.
Qed.

Lemma SFadd_val (f g : spec_float) (x y : Z) :
  fin_val f x -> fin_val g y -> small x -> small y -> small (x + y) ->
  fin_val (SFadd prec emax f g) (x + y).
Proof.
  intros Hf Hg Hx Hy Hxy.
  destruct (Z.eq_dec x 0) as [->|Hx0].
  - destruct Hf as [s ->]. destruct (Z.eq_dec y 0) as [->|Hy0].
    + destruct Hg as [t ->]. cbn [SFadd Z.add fin_val].
      destruct s, t; eexists; reflexivity.
    + destruct (fin_val_finite g y Hg Hy0 Hy) as (M & E & Eg & _).
      rewrite Eg in *. cbn [SFadd]. exact Hg.
  - destruct (fin_val_finite f x Hf Hx0 Hx) as (M & E & -> & HE & HM & _).
    destruct (Z.eq_dec y 0) as [->|Hy0].
    + destruct Hg as [t ->]. cbn [SFadd]. rewrite Z.add_0_r.
      clear - Hf. exact Hf.
    + destruct (fin_val_finite g y Hg Hy0 Hy) as (M' & E' & -> & HE' & HM' & _).
      cbn [SFadd]. cbv zeta.
      rewrite (aligned_mantissa x M E (Z.min E E')) by (try exact HM; lia).
      rewrite (aligned_mantissa y M' E' (Z.min E E')) by (try exact HM'; lia).
      rewrite <- Z.mul_add_distr_r.
      pose proof (normalize_val (x + y) (- Z.min E E') Hxy ltac:(lia)) as H.
      rewrite Z.opp_involutive in H. exact H.
Qed.

Lemma SFsub_val (f g : spec_float) (x y : Z) :
  fin_val f x -> fin_val g y -> small x -> small y -> small (x - y) ->
  fin_val (SFsub prec emax f g) (x - y).
Proof.
  intros Hf Hg Hx Hy Hxy.
  destruct (Z.eq_dec x 0) as [->|Hx0].
  - destruct Hf as [s ->]. destruct (Z.eq_dec y 0) as [->|Hy0].
    + destruct Hg as [t ->]. cbn [SFsub Z.sub Z.add Z.opp fin_val].
      destruct s, t; eexists; reflexivity.
    + destruct (fin_val_finite g y Hg Hy0 Hy) as (M & E & Eg & _).
      rewrite Eg. cbn [SFsub]. rewrite Z.sub_0_l.
      destruct y as [|P|P]; [congruence| |]; cbn [fin_val Z.opp] in *;
        rewrite Hg in Eg; unfold canon in *; inversion Eg; subst; reflexivity.
  - destruct (fin_val_finite f x Hf Hx0 Hx) as (M & E & -> & HE & HM & _).
    destruct (Z.eq_dec y 0) as [->|Hy0].
    + destruct Hg as [t ->]. cbn [SFsub]. rewrite Z.sub_0_r.
      clear - Hf. exact Hf.
    + destruct (fin_val_finite g y Hg Hy0 Hy) as (M' & E' & -> & HE' & HM' & _).
      cbn [SFsub]. cbv zeta.
      rewrite (aligned_mantissa x M E (Z.min E E')) by (try exact HM; lia).
      rewrite (aligned_mantissa y M' E' (Z.min E E')) by (try exact HM'; lia).
      rewrite <- Z.mul_sub_distr_r.
      pose proof (normalize_val (x - y) (- Z.min E E') Hxy ltac:(lia)) as H.
      rewrite Z.opp_involutive in H. exact H.
Qed.

Lemma xorb_sign (x y : Z) :
  x <> 0 -> y <> 0 -> xorb (x <? 0) (y <? 0) = (x * y <? 0).
Proof.
  intros Hx Hy. destruct (Z.ltb_spec x 0), (Z.ltb_spec y 0), (Z.ltb_spec (x * y) 0);
    cbn; try reflexivity; nia.
Qed.

(** The float of [z], by its sign and absolute value *)
Lemma fin_val_canon (z : Z) (P : positive) :
  Z.abs z = Zpos P -> fin_val (canon (z <? 0) P) z.
Proof.
  intro H. destruct z as [|Q|Q]; cbn [Z.abs] in H; [lia| |];
    inversion H; subst; reflexivity.
Qed.

Lemma SFmul_val (f g : spec_float) (x y : Z) :
  fin_val f x -> fin_val g y -> small x -> small y -> small (x * y) ->
  fin_val (SFmul prec emax f g) (x * y).
Proof.
  intros Hf Hg Hx Hy Hxy.
  destruct (Z.eq_dec x 0) as [->|Hx0].
  - destruct Hf as [s ->]. rewrite Z.mul_0_l.
    destruct (Z.eq_dec y 0) as [->|Hy0].
    + destruct Hg as [t ->]. cbn. eexists; reflexivity.
    + destruct (fin_val_finite g y Hg Hy0 Hy) as (M & E & -> & _).
      cbn. eexists; reflexivity.
  - destruct (fin_val_finite f x Hf Hx0 Hx) as (M & E & -> & HE & HM & HdM).
    destruct (Z.eq_dec y 0) as [->|Hy0].
    + destruct Hg as [t ->]. rewrite Z.mul_0_r. cbn. eexists; reflexivity.
    + destruct (fin_val_finite g y Hg Hy0 Hy) as (M' & E' & -> & HE' & HM' & HdM').
      cbn [SFmul]. rewrite xorb_sign by assumption.
      assert (Hxy0 : x * y <> 0) by nia.
      destruct (Z.abs (x * y)) as [|P|P] eqn:EP; [lia| |lia].
      replace (E + E') with (- (- E + - E')) by lia.
      unfold small in Hxy. rewrite EP in Hxy.
      rewrite (round_aux_canon _ (M * M') P (- E + - E')).
      * apply fin_val_canon. exact EP.
      * apply small_digits. exact Hxy.
      * lia.
      * rewrite Pos2Z.inj_mul, HM, HM', <- EP, Z.abs_mul, Z.pow_add_r by lia. ring.
      * pose proof (digits2_pos_bounds M) as [H1 _].
        pose proof (digits2_pos_bounds M') as [H1' _].
        rewrite HdM in H1. rewrite HdM' in H1'.
        change (2 ^ (53 - 1)) with 4503599627370496 in *.
        change (2 ^ 52) with 4503599627370496. rewrite Pos2Z.inj_mul. nia.
Qed.

Lemma SFdiv_val (f g : spec_float) (c y : Z) :
  fin_val f (y * c) -> fin_val g y -> y <> 0 ->
  small (y * c) -> small y -> small c ->
  fin_val (SFdiv prec emax f g) c.
Proof.
  intros Hf Hg Hy0 Hx Hy Hc.
  destruct (fin_val_finite g y Hg Hy0 Hy) as (M' & E' & -> & HE' & HM' & HdM').
  destruct (Z.eq_dec c 0) as [->|Hc0].
  - rewrite Z.mul_0_r in Hf. destruct Hf as [s ->]. cbn. eexists; reflexivity.
  - assert (Hx0 : y * c <> 0) by nia.
    destruct (fin_val_finite f (y * c) Hf Hx0 Hx) as (M & E & -> & HE & HM & HdM).
    cbn [SFdiv].
    destruct (Z.abs c) as [|P|P] eqn:EP; [lia| |lia].
    assert (Hm : Zpos M * 2 ^ 53 = Zpos M' * (Zpos P * 2 ^ (53 - E + E'))).
    { rewrite HM, HM', Z.abs_mul, EP.
      replace (53 - E + E') with (- E + (53 + E')) by lia.
      rewrite (Z.pow_add_r 2 (- E)) by lia.
      replace (2 ^ 53) with (2 ^ (- E') * 2 ^ (53 + E'))
        by (rewrite <- Z.pow_add_r by lia; f_equal; lia).
      ring. }
    assert (Hcore : SFdiv_core_binary prec emax (Zpos M) E (Zpos M') E' =
                    (Zpos P * 2 ^ (53 - E + E'), E - E' - 53, loc_Exact)).
    { unfold SFdiv_core_binary. cbn [Zdigits2]. rewrite HdM, HdM'.
      rewrite fexp_normal by lia.
      replace (Z.min (53 + E - (53 + E') - 53) (E - E')) with (E - E' - 53) by lia.
      replace (E - E' - (E - E' - 53)) with 53 by lia.
      rewrite Z.shiftl_mul_pow2 by lia.
      destruct (Z.div_eucl (Zpos M * 2 ^ 53) (Zpos M')) as [q r] eqn:Ediv.
      assert (Hq : q = Zpos M * 2 ^ 53 / Zpos M') by (unfold Z.div; now rewrite Ediv).
      assert (Hr : r = (Zpos M * 2 ^ 53) mod Zpos M') by (unfold Z.modulo; now rewrite Ediv).
      rewrite Hm in Hq, Hr. rewrite Z.mul_comm, Z.div_mul in Hq by lia.
      rewrite Z.mul_comm, Z.mod_mul in Hr by lia. subst q r.
      f_equal. unfold new_location, new_location_even, new_location_odd.
      destruct (Z.even (Zpos M')); reflexivity. }
    rewrite Hcore.
    assert (Hpos : 0 < 2 ^ (53 - E + E')) by (apply Z.pow_pos_nonneg; lia).
    destruct (Zpos P * 2 ^ (53 - E + E')) as [|mq|mq] eqn:Emq; [lia| |lia].
    replace (E - E' - 53) with (- (53 - E + E')) by lia.
    unfold small in Hc. rewrite EP in Hc.
    rewrite xorb_sign by assumption.
    replace (y * c * y <? 0) with (c <? 0)
      by (destruct (Z.ltb_spec c 0), (Z.ltb_spec (y * c * y) 0); try reflexivity; nia).
    rewrite (round_aux_canon _ mq P (53 - E + E')).
    + apply fin_val_canon. exact EP.
    + apply small_digits. exact Hc.
    + lia.
    + lia.
    + pose proof (digits2_pos_bounds M) as [H1 _].
      pose proof (digits2_pos_bounds M') as [_ H2].
      rewrite HdM in H1. rewrite HdM' in H2.
      change (2 ^ (53 - 1)) with 4503599627370496 in H1.
      change (2 ^ 53) with 9007199254740992 in *.
      change (2 ^ 52) with 4503599627370496. nia.
Qed.

(** ** Python numbers that are integers *)

Lemma to_float_val (p : pynum) (z : Z) :
  rep p z -> small z -> fin_val (to_float p) z.
Proof.
  destruct p as [u|f]; cbn [rep to_float]; [|auto].
  intros -> Hz. now apply float_of_int_val.
Qed.

Lemma rep_arith (zop : Z -> Z -> Z) (fop : spec_float -> spec_float -> spec_float) :
  (forall f g x y, fin_val f x -> fin_val g y -> small x -> small y ->
                   small (zop x y) -> fin_val (fop f g) (zop x y)) ->
  forall a b x y, rep a x -> rep b y -> small x -> small y -> small (zop x y) ->
                  rep (pynum_arith zop fop a b) (zop x y).
Proof.
  intros Hop a b x y Ha Hb Hx Hy Hxy.
  destruct a as [u|f], b as [v|g]; cbn [pynum_arith rep] in *.
  - now subst.
  - apply Hop; try assumption. subst. now apply float_of_int_val.
  - apply Hop; try assumption. subst. now apply float_of_int_val.
  - now apply Hop.
Qed.

Lemma rep_add (a b : pynum) (x y : Z) :
  rep a x -> rep b y -> small x -> small y -> small (x + y) -> rep (a +! b) (x + y).
Proof. exact (rep_arith Z.add (SFadd prec emax) SFadd_val a b x y). Qed.

Lemma rep_sub (a b : pynum) (x y : Z) :
  rep a x -> rep b y -> small x -> small y -> small (x - y) -> rep (a -! b) (x - y).
Proof. exact (rep_arith Z.sub (SFsub prec emax) SFsub_val a b x y). Qed.

Lemma rep_mul (a b : pynum) (x y : Z) :
  rep a x -> rep b y -> small x -> small y -> small (x * y) -> rep (a *! b) (x * y).
Proof. exact (rep_arith Z.mul (SFmul prec emax) SFmul_val a b x y). Qed.

(** A quotient that is exact in the integers is the float of that
    integer. *)
Lemma rep_div (a b : pynum) (c y : Z) :
  rep a (y * c) -> rep b y -> y <> 0 -> small (y * c) -> small y -> small c ->
  exists f, py_truediv a b = PFloat f /\ fin_val f c.
Proof.
  intros Ha Hb Hy0 Hx Hy Hc. eexists. split; [reflexivity|].
  apply (SFdiv_val _ _ c y); try assumption; now apply to_float_val.
Qed.

(** [int(v) if int(v) == v else v] gives the integer back. *)
Lemma fin_val_int (f : spec_float) (z : Z) :
  fin_val f z -> small z -> py_int (PFloat f) = PInt z.
Proof.
  intros Hf Hz. destruct (Z.eq_dec z 0) as [->|Hz0].
  - destruct Hf as [s ->]. reflexivity.
  - destruct (fin_val_finite f z Hf Hz0 Hz) as (M & E & -> & HE & HM & _).
    cbn [py_int PyNum_pynum pynum_int].
    assert (Hmz : (if z <? 0 then Z.neg M else Z.pos M) = z * 2 ^ (- E)).
    { destruct (Z.ltb_spec z 0); [rewrite <- Pos2Z.opp_pos|]; rewrite HM;
        [rewrite Z.abs_neq by lia | rewrite Z.abs_eq by lia]; ring. }
    rewrite Hmz.
    assert (Hp : 0 < 2 ^ (- E)) by (apply Z.pow_pos_nonneg; lia).
    destruct (Z.leb_spec 0 E) as [H0|H0].
    + replace E with 0 by lia. cbn. f_equal. lia.
    + rewrite Z.mod_mul by lia. cbn [Z.eqb]. rewrite Z.div_mul by lia. reflexivity.
Qed.

Lemma rep_int (p : pynum) (z : Z) : rep p z -> small z -> py_int p = PInt z.
Proof.
  destruct p as [u|f]; cbn [rep]; [intros -> _; reflexivity|].
  apply fin_val_int.
Qed.

(** A sum whose partial sums are small integers. *)
Lemma rep_sum (G : Z -> pynum) (g : Z -> Z) (n : Z) :
  (forall k, 0 <= k < n -> rep (G k) (g k) /\ small (g k)) ->
  (forall j, 0 <= j <= n -> small (zsum g j)) ->
  rep (zsum G n) (zsum g n).
Proof.
  destruct (Z.le_gt_cases n 0) as [Hn|Hn].
  - intros _ _. rewrite !zsum_nil by lia. reflexivity.
  - pattern n. apply range_bound_ind with (lo := 0); [| |lia].
    + intros _ _. rewrite !zsum_nil by lia. reflexivity.
    + intros hi Hhi IH HG Hs. rewrite !zsum_succ by lia.
      destruct (HG hi ltac:(lia)) as [Hr Hsm].
      apply rep_add.
      * apply IH; intros; [apply HG | apply Hs]; lia.
      * exact Hr.
      * apply Hs. lia.
      * exact Hsm.
      * pose proof (Hs (hi + 1) ltac:(lia)) as H'.
        rewrite zsum_succ in H' by lia. exact H'.
Qed.

Lemma zsum_abs_bound (g : Z -> Z) (c n : Z) :
  0 <= n -> (forall k, 0 <= k < n -> Z.abs (g k) <= c) ->
  Z.abs (zsum g n) <= n * c.
Proof.
  intro Hn. pattern n. apply range_bound_ind with (lo := 0); [| |lia].
  - intros _. rewrite zsum_nil by lia. cbn. lia.
  - intros hi Hhi IH H. rewrite zsum_succ by lia.
    change (@py_add Z PyNum_Z) with Z.add.
    pose proof (H hi ltac:(lia)). assert (Z.abs (zsum g hi) <= hi * c) by (apply IH; intros; apply H; lia).
    lia.
Qed.

Lemma bounded_by_getitem (c : Z) (s : Seq Z) (k : Z) :
  0 <= c -> bounded_by c s = true -> Z.abs (Seq_getitem s k) <= c.
Proof.
  intros Hc Hb. unfold bounded_by in Hb. rewrite forallb_forall in Hb.
  destruct (Z.lt_ge_cases k 0) as [Hk|Hk].
  - rewrite Seq_getitem_neg by lia. cbn. lia.
  - rewrite Seq_getitem_nth by lia.
    destruct (Nat.lt_ge_cases (Z.to_nat k) (length (Seq_val s))) as [Hl|Hl].
    + apply Z.leb_le, Hb, nth_In. exact Hl.
    + rewrite nth_overflow by exact Hl. cbn. lia.
Qed.

(** ** The loop of [Seq.__truediv__] on a product of integer sequences *)

Lemma Seq_getitem_PInt (s : Seq Z) (k : Z) :
  Seq_getitem (Seq_map PInt s) k = PInt (Seq_getitem s k).
Proof. apply (Seq_getitem_map PInt); reflexivity. Qed.

Lemma Seq_len_PInt (s : Seq Z) : Seq_len (Seq_map PInt s) = Seq_len s.
Proof. apply (Seq_len_map PInt); reflexivity. Qed.

Lemma pydiv_PInt (u : pynum) (v : Z) :
  v <> 0 -> pydiv u (PInt v) = Ok (py_truediv u (PInt v)).
Proof.
  intro H. unfold pydiv, is_zero. cbn [py_eq PyNum_pynum pynum_eq zero of_int].
  destruct (Z.eqb_spec v 0); [contradiction|reflexivity].
Qed.

(** The coefficients of a stored list whose head is an [int]. *)
Lemma Seq_getitem_head_int (u : Z) (rest : list pynum) (k : Z) (z : Z) :
  0 <= k < Z.of_nat (length (PInt u :: rest)) ->
  rep (nth (Z.to_nat k) (PInt u :: rest) zero) z ->
  rep (Seq_getitem (mkSeq (PInt u :: rest)) k) z.
Proof.
  intros Hk Hr. unfold Seq_getitem, Seq_len. cbn [Seq_val nth].
  unfold is_zero. cbn [py_eq PyNum_pynum pynum_eq zero of_int].
  destruct ((Z.of_nat (length (PInt u :: rest)) =? 1) && (u =? 0)) eqn:E.
  - apply andb_true_iff in E. destruct E as [E1 E2].
    apply Z.eqb_eq in E1, E2. subst u.
    replace (k <? 0) with false by (symmetry; apply Z.ltb_ge; lia). cbn [andb].
    replace k with 0 in Hr by lia. exact Hr.
  - destruct (Z.ltb_spec k (Z.of_nat (length (PInt u :: rest)))); [|lia].
    destruct (Z.leb_spec 0 k); [|lia]. exact Hr.
Qed.

Section SmallQuotient.

Variables (q b : Seq Z) (Qb Bb l : Z).

Hypothesis Hb0 : Seq_getitem b 0 <> 0.
Hypothesis HQb : 1 <= Qb.
Hypothesis HQ : bounded_by Qb q = true.
Hypothesis HB : bounded_by Bb b = true.
Hypothesis Hl : l * Qb * Bb < 2 ^ 53.

Lemma Bb_pos : 1 <= Bb.
Proof.
  assert (0 <= Bb).
  { pose proof HB as HB'. unfold bounded_by in HB'. rewrite forallb_forall in HB'.
    destruct (Seq_val b) as [|v t] eqn:E.
    - exfalso. apply Hb0.
      assert (Hlen : Z.of_nat (length (Seq_val b)) <= 0) by (rewrite E; cbn; lia).
      exact (Seq_getitem_beyond b 0 Hlen).
    - specialize (HB' v ltac:(now left)). apply Z.leb_le in HB'. lia. }
  pose proof (bounded_by_getitem Bb b 0 H HB). lia.
Qed.

Lemma small_le (z : Z) : 1 <= l -> Z.abs z <= l * Qb * Bb -> small z.
Proof. intros _ H. unfold small. lia. Qed.

Lemma bound_grows : 1 <= l -> Qb <= l * Qb * Bb /\ Bb <= l * Qb * Bb /\ Qb * Bb <= l * Qb * Bb.
Proof.
  intro H1. pose proof Bb_pos as Hp.
  assert (Qb * 1 <= Qb * Bb) by (apply Z.mul_le_mono_nonneg_l; lia).
  assert (1 * Bb <= Qb * Bb) by (apply Z.mul_le_mono_nonneg_r; lia).
  assert (1 * (Qb * Bb) <= l * (Qb * Bb)) by (apply Z.mul_le_mono_nonneg_r; lia).
  rewrite <- Z.mul_assoc. lia.
Qed.

Lemma q_small (k : Z) : 1 <= l -> small (Seq_getitem q k).
Proof.
  intro H1. apply small_le; [exact H1|].
  pose proof (bounded_by_getitem Qb q k ltac:(lia) HQ). pose proof (bound_grows H1). lia.
Qed.

Lemma b_small (k : Z) : 1 <= l -> small (Seq_getitem b k).
Proof.
  intro H1. apply small_le; [exact H1|].
  pose proof Bb_pos as Hp.
  pose proof (bounded_by_getitem Bb b k ltac:(lia) HB). pose proof (bound_grows H1). lia.
Qed.

Lemma term_bound (k j : Z) :
  Z.abs (Seq_getitem q k * Seq_getitem b j) <= Qb * Bb.
Proof.
  pose proof Bb_pos as Hp.
  pose proof (bounded_by_getitem Qb q k ltac:(lia) HQ).
  pose proof (bounded_by_getitem Bb b j ltac:(lia) HB).
  rewrite Z.abs_mul. nia.
Qed.

Lemma partial_small (x j : Z) :
  0 <= j <= l ->
  small (zsum (fun k => Seq_getitem q k * Seq_getitem b (x - k)) j).
Proof.
  intro Hj. unfold small.
  pose proof (zsum_abs_bound (fun k => Seq_getitem q k * Seq_getitem b (x - k))
                (Qb * Bb) j ltac:(lia) (fun k _ => term_bound k (x - k))) as H.
  pose proof Bb_pos as Hp.
  assert (0 <= Qb * Bb) by (apply Z.mul_nonneg_nonneg; lia).
  assert (j * (Qb * Bb) <= l * (Qb * Bb)) by (apply Z.mul_le_mono_nonneg_r; lia).
  pose proof Hl as Hl'. rewrite <- Z.mul_assoc in Hl'. lia.
Qed.

(** Coefficient [n] of the product, by its last term. *)
Lemma product_last (n : Z) :
  0 <= n ->
  Seq_getitem (Seq_mul q b) n -
  zsum (fun k => Seq_getitem q k * Seq_getitem b (n - k)) n =
  Seq_getitem b 0 * Seq_getitem q n.
Proof.
  intro Hn. rewrite (Seq_getitem_mul q b n), zsum_succ by lia.
  change (@py_add Z PyNum_Z) with Z.add. change (@py_mul Z PyNum_Z) with Z.mul.
  rewrite Z.sub_diag. lia.
Qed.

(** Each quotient of the loop is the float of a coefficient of [q]. *)
Lemma quotient_step (S : pynum) (n : Z) :
  0 <= n < l ->
  rep S (zsum (fun k => Seq_getitem q k * Seq_getitem b (n - k)) n) ->
  exists f,
    py_truediv (Seq_getitem (Seq_map PInt (Seq_mul q b)) n -! S)
               (Seq_getitem (Seq_map PInt b) 0) = PFloat f /\
    fin_val f (Seq_getitem q n).
Proof.
  intros Hn HS. rewrite !Seq_getitem_PInt.
  apply (rep_div _ _ (Seq_getitem q n) (Seq_getitem b 0)).
  - rewrite <- product_last by lia. apply rep_sub.
    + reflexivity.
    + exact HS.
    + pose proof (partial_small n (n + 1) ltac:(lia)) as H.
      rewrite (Seq_getitem_mul q b n). exact H.
    + apply partial_small. lia.
    + rewrite product_last by lia. apply small_le; [lia|].
      pose proof (term_bound n 0) as H. rewrite Z.mul_comm in H. nia.
  - reflexivity.
  - exact Hb0.
  - apply small_le; [lia|].
    pose proof (term_bound n 0) as H. rewrite Z.mul_comm in H. nia.
  - apply b_small. lia.
  - apply q_small. lia.
Qed.

(** After [m] rounds the loop holds the first [m] coefficients of [q]:
    the first as an [int], the others as floats. *)
Lemma div_loop_small (m : Z) :
  1 <= m <= l ->
  exists rest,
    Seq_val (div_loop (Seq_map PInt (Seq_mul q b)) (Seq_map PInt b) m) =
      PInt (Seq_getitem q 0) :: rest /\
    Z.of_nat (length (PInt (Seq_getitem q 0) :: rest)) = m /\
    forall k, 0 <= k < m ->
      rep (nth (Z.to_nat k) (PInt (Seq_getitem q 0) :: rest) zero) (Seq_getitem q k).
Proof.
  intros [Hm Hml]. revert Hml. pattern m.
  apply range_bound_ind with (lo := 1); [| |lia].
  - intros H1. unfold div_loop. rewrite (range_nil 1 1) by lia. cbn [fold_left].
    destruct (quotient_step zero 0 ltac:(lia)) as (f & Ef & Hf).
    { rewrite zsum_nil by lia. reflexivity. }
    assert (E0 : Seq_getitem (Seq_map PInt (Seq_mul q b)) 0 -! zero =
                 Seq_getitem (Seq_map PInt (Seq_mul q b)) 0).
    { rewrite Seq_getitem_PInt. cbn. f_equal. lia. }
    rewrite E0 in Ef. rewrite Ef. unfold Seq_of_num.
    rewrite (fin_val_int f _ Hf) by (apply q_small; lia).
    exists []. split; [reflexivity|]. split; [reflexivity|].
    intros k Hk. replace k with 0 by lia. reflexivity.
  - intros hi Hhi IH Hl'. destruct (IH ltac:(lia)) as (rest & Ev & Hlen & Hrep).
    unfold div_loop in *. rewrite fold_range_snoc by lia.
    set (r := fold_left _ (range 1 hi) _) in *.
    assert (Hr : forall k, 0 <= k < hi -> rep (Seq_getitem r k) (Seq_getitem q k)).
    { intros k Hk. destruct r as [v]. cbn [Seq_val] in Ev. subst v.
      apply Seq_getitem_head_int; [lia|]. now apply Hrep. }
    destruct (quotient_step
                (py_sum (map (fun k => Seq_getitem r k *! Seq_getitem (Seq_map PInt b) (hi - k))
                             (range 0 hi))) hi ltac:(lia)) as (f & Ef & Hf).
    { apply (rep_sum (fun k => Seq_getitem r k *! Seq_getitem (Seq_map PInt b) (hi - k))
                     (fun k => Seq_getitem q k * Seq_getitem b (hi - k))).
      - intros k Hk. split.
        + rewrite Seq_getitem_PInt. apply rep_mul.
          * apply Hr. lia.
          * reflexivity.
          * apply q_small. lia.
          * apply b_small. lia.
          * apply small_le; [lia|]. pose proof (term_bound k (hi - k)). pose proof Bb_pos. nia.
        + apply small_le; [lia|]. pose proof (term_bound k (hi - k)). pose proof Bb_pos. nia.
      - intros j Hj. apply partial_small. lia. }
    rewrite Ef. unfold Seq_append. cbn [Seq_val]. rewrite Ev.
    exists (rest ++ [PFloat f]). split; [reflexivity|]. split.
    + cbn [length] in *. rewrite length_app. cbn [length]. lia.
    + intros k Hk. rewrite app_comm_cons.
      destruct (Z.lt_ge_cases k hi) as [Hlt|Hge].
      * rewrite app_nth1 by lia. apply Hrep. lia.
      * rewrite app_nth2 by lia.
        replace (Z.to_nat k - length (PInt (Seq_getitem q 0) :: rest))%nat with 0%nat by lia.
        cbn [nth rep]. replace k with hi by lia. exact Hf.
Qed.

End SmallQuotient.

(** [len(q * b)] is not below [len(q)] when [b] has a coefficient. *)
Lemma Seq_len_product (q b : Seq Z) :
  1 <= Seq_len b -> Seq_len q <= Z.max (Seq_len (Seq_mul q b)) (Seq_len b).
Proof.
  intro Hb. pose proof (Seq_len_bounds q) as Hq.
  assert (Hst : Z.of_nat (length (Seq_val (Seq_mul q b))) = Seq_len q + Seq_len b - 1).
  { unfold Seq_mul. cbv zeta. rewrite Seq_init_exact. cbn [Seq_val].
    rewrite length_map_range. lia. }
  destruct (Nat.eq_dec (length (Seq_val (Seq_mul q b))) 1) as [E|E].
  - lia.
  - rewrite (Seq_len_stored (Seq_mul q b) E). lia.
Qed.

(** [a / b] for [a = q * b]: the quotient stores the coefficients of [q]
    below [max(len(a), len(b))], as [int]. *)
Lemma Seq_truediv_small (q b : Seq Z) (Qb Bb : Z) :
  Seq_getitem b 0 <> 0 -> 1 <= Qb ->
  bounded_by Qb q = true -> bounded_by Bb b = true ->
  Z.max (Seq_len (Seq_mul q b)) (Seq_len b) * Qb * Bb < 2 ^ 53 ->
  Seq_truediv (Seq_map PInt (Seq_mul q b)) (Seq_map PInt b) =
  Ok (Seq_map PInt
        (mkSeq (map (Seq_getitem q)
                    (range 0 (Z.max (Seq_len (Seq_mul q b)) (Seq_len b)))))).
Proof.
  intros Hb0 HQb HQ HB Hl.
  set (l := Z.max (Seq_len (Seq_mul q b)) (Seq_len b)) in *.
  assert (Hl1 : 1 <= l).
  { assert (1 <= Seq_len b); [|lia].
    destruct (Z.le_gt_cases 1 (Seq_len b)) as [H|H]; [exact H|].
    exfalso. apply Hb0.
    assert (Hle : Seq_len b <= 0) by lia. exact (Seq_getitem_out b 0 Hle). }
  unfold Seq_truediv. rewrite !Seq_len_PInt. fold l.
  rewrite (Seq_getitem_PInt b 0), pydiv_PInt by exact Hb0. cbn [bind].
  erewrite foldM_ok.
  2:{ intros r k _. rewrite pydiv_PInt by exact Hb0. cbn [bind]. reflexivity. }
  cbn [bind]. f_equal.
  rewrite <- (Seq_getitem_PInt b 0).
  fold (div_loop (Seq_map PInt (Seq_mul q b)) (Seq_map PInt b) l).
  destruct (div_loop_small q b Qb Bb l Hb0 HQb HQ HB Hl l ltac:(lia))
    as (rest & Ev & Hlen & Hrep).
  rewrite Ev. unfold Seq_init, Seq_map. cbn [Seq_val]. f_equal.
  rewrite !map_map.
  apply (nth_ext _ _ zero zero).
  - rewrite !length_map, range_length. lia.
  - intros n Hn. rewrite length_map in Hn.
    rewrite (nth_indep (map _ (range 0 l)) zero (PInt (Seq_getitem q 0)))
      by (rewrite length_map, range_length; lia).
    replace n with (Z.to_nat (Z.of_nat n)) at 2 by lia.
    rewrite (nth_map_range (fun x => PInt (Seq_getitem q x)) l (Z.of_nat n)) by lia.
    rewrite (nth_indep _ zero (py_int (py_int zero))) by (rewrite length_map; lia).
    rewrite (map_nth (fun x => py_int (py_int x))).
    rewrite (rep_int (nth n (PInt (Seq_getitem q 0) :: rest) zero)
                     (Seq_getitem q (Z.of_nat n))).
    + reflexivity.
    + rewrite <- (Nat2Z.id n) at 1. apply Hrep. lia.
    + apply (q_small q b Qb Bb l Hb0 HQb HQ HB Hl). lia.
Qed.

(** The coefficients of [q], cut at a length that is not below [len(q)]. *)
Lemma Seq_getitem_cut (q : Seq Z) (l k : Z) :
  Seq_len q <= l ->
  Seq_getitem (mkSeq (map (Seq_getitem q) (range 0 l))) k = Seq_getitem q k.
Proof.
  intro Hl. rewrite <- (Seq_init_exact (map (Seq_getitem q) (range 0 l))).
  destruct (Z.lt_ge_cases k 0) as [Hk|Hk]; [now rewrite !Seq_getitem_neg by lia|].
  destruct (Z.lt_ge_cases k l) as [Hk'|Hk'].
  - now rewrite Seq_getitem_map_range by lia.
  - rewrite Seq_getitem_map_range_out by lia. symmetry. apply Seq_getitem_out. lia.
Qed.



(** For integer coefficients below the bound of C5, [Seq.__truediv__]
    undoes [Seq.__mul__]: [(q * b) / b] returns a sequence whose
    coefficients are those of [q], as [int], and that is [== q]. *)
Theorem Seq_truediv_of_product (q b : Seq Z) (Qb Bb : Z) :
  Seq_getitem b 0 <> 0 -> 1 <= Qb ->
  bounded_by Qb q = true -> bounded_by Bb b = true ->
  Z.max (Seq_len (Seq_mul q b)) (Seq_len b) * Qb * Bb < 2 ^ 53 ->
  exists r : Seq pynum,
    Seq_truediv (Seq_map PInt (Seq_mul q b)) (Seq_map PInt b) = Ok r /\
    (forall k, Seq_getitem r k = PInt (Seq_getitem q k)) /\
    Seq_eq r (Seq_map PInt q) = true.
Proof.
  intros Hb0 HQb HQ HB Hl.
  assert (Hb1 : 1 <= Seq_len b).
  { destruct (Z.le_gt_cases 1 (Seq_len b)) as [H|H]; [exact H|].
    exfalso. apply Hb0.
    assert (Hle : Seq_len b <= 0) by lia. exact (Seq_getitem_out b 0 Hle). }
  eexists. split; [exact (Seq_truediv_small q b Qb Bb Hb0 HQb HQ HB Hl)|]. split.
  - intro k. rewrite Seq_getitem_PInt. f_equal.
    apply Seq_getitem_cut. now apply Seq_len_product.
  - destruct methods_on_ints as (_ & _ & _ & _ & Heq & _).
    rewrite Heq. apply Seq_eq_true. intro k.
    apply Seq_getitem_cut. now apply Seq_len_product.
Qed.

(** [([1, 2] * [2, 1]) / [2, 1]]. *)
Lemma Seq_truediv_of_product_witness :
  exists r : Seq pynum,
    Seq_truediv (Seq_map PInt (Seq_mul (SeqZ [1; 2]) (SeqZ [2; 1])))
                (Seq_map PInt (SeqZ [2; 1])) = Ok r /\
    (forall k, Seq_getitem r k = PInt (Seq_getitem (SeqZ [1; 2]) k)) /\
    Seq_eq r (Seq_map PInt (SeqZ [1; 2])) = true.
Proof.
  apply (Seq_truediv_of_product (SeqZ [1; 2]) (SeqZ [2; 1]) 2 2);
    [vm_compute; discriminate | lia | reflexivity | reflexivity
    | vm_compute; reflexivity].
Defined.
